(** * AiRoyalties_FHE: the encrypted-reveal state machine of the contract

    A shallow embedding of the Solidity contract [AiRoyalties_FHE]
    (pragma ^0.8.24).  Unsigned integers are values of [N] and every
    arithmetic operation of the contract is written with the overflow check
    that Solidity 0.8 compiles in; storage mappings are finite maps read with
    the zero value as default; a transaction either commits its new state or
    reverts to the state it started from. *)

From Stdlib Require Import NArith List String Lia Sorted.
From stdpp Require Import base option numbers list gmap strings fin_maps.

Local Open Scope N_scope.

(** ** Integer widths and checked arithmetic *)

Definition uint32_max : N := 2 ^ 32 - 1.
Definition uint256_max : N := 2 ^ 256 - 1.

(** The ways a call of the contract can abort. *)
Inductive Error : Type :=
| Require_failed (reason : string)   (* require(cond, reason) *)
| Panic_overflow                     (* Panic(0x11): checked arithmetic *)
| Invalid_signatures                 (* FHE.checkSignatures reverted *)
| Abi_decode_failed.                 (* abi.decode reverted *)

Inductive Result (A : Type) : Type :=
| Ok (a : A)
| Revert (e : Error).

Arguments Ok {A} a.
Arguments Revert {A} e.

Definition bind {A B : Type} (r : Result A) (k : A -> Result B) : Result B :=
  match r with
  | Ok a => k a
  | Revert e => Revert e
  end.

Notation "'let*' x ':=' r 'in' k" := (bind r (fun x => k))
  (at level 10, x pattern, r at level 100, k at level 200).

Definition require (cond : bool) (reason : string) : Result unit :=
  if cond then Ok tt else Revert (Require_failed reason).

Definition checked_add (max a b : N) : Result N :=
  if a + b <=? max then Ok (a + b) else Revert Panic_overflow.

Definition checked_mul (max a b : N) : Result N :=
  if a * b <=? max then Ok (a * b) else Revert Panic_overflow.

(** ** Encrypted values

    The fhEVM library behind the [FHE] calls is not part of the sources.  An
    [euint32] or [ebool] is a handle to a ciphertext; it is represented by
    the plaintext it stands for, and [None] is the never-assigned handle, the
    zero word a storage slot holds before its first write.  [FHE.toBytes32]
    is the identity on handles. *)

Abbreviation euint32 := (option N) (only parsing).
Abbreviation ebool := (option bool) (only parsing).
Abbreviation bytes := (list Byte.byte) (only parsing).

Module FHE.

(** Modelled from the spec: [FHE.asEuint32] is library code that is not in
    the sources; a ciphertext is an encrypted value, opaque to the system
    (glossary), and the handle made here stands for the plaintext [v]. *)
Definition asEuint32 (v : N) : euint32 := Some v.

(** Modelled from the spec: [FHE.asEbool] is library code that is not in the
    sources; the handle made here stands for the plaintext [b]. *)
Definition asEbool (b : bool) : ebool := Some b.

(** Modelled from the spec: [FHE.decrypt] is library code that is not in the
    sources; section 4.4 speaks of the claimed flag (decrypted), the
    plaintext of the flag.  On the first calculation for a key the contract
    negates the flag of a Distribution that was never written (line 96), and
    that check has to pass for any Distribution to come into being: a
    never-assigned flag reads as [false]. *)
Definition decrypt (b : ebool) : bool := default false b.

End FHE.

(** ** ABI decoding of the oracle's cleartexts

    [abi.decode] reads the i-th 32-byte big-endian word; it reverts when the
    data is too short and when a word does not fit the requested type. *)

Definition word_of_bytes (bs : bytes) : N :=
  fold_left (fun acc b => acc * 256 + Byte.to_N b) bs 0.

Definition abi_word (data : bytes) (i : nat) : option N :=
  let w := take 32 (drop (32 * i) data) in
  if Nat.eqb (length w) 32 then Some (word_of_bytes w) else None.

Definition abi_decode_uint32_at (data : bytes) (i : nat) : Result N :=
  match abi_word data i with
  | Some w => if w <=? uint32_max then Ok w else Revert Abi_decode_failed
  | None => Revert Abi_decode_failed
  end.

(** abi.decode(cleartexts, (uint32, uint32, uint32)) *)
Definition abi_decode_uint32x3 (data : bytes) : Result (N * N * N) :=
  let* a := abi_decode_uint32_at data 0 in
  let* b := abi_decode_uint32_at data 1 in
  let* c := abi_decode_uint32_at data 2 in
  Ok (a, b, c).

(** abi.decode(cleartexts, (uint32)) *)
Definition abi_decode_uint32 (data : bytes) : Result N :=
  abi_decode_uint32_at data 0.

(** The encoding the oracle produces: one 32-byte big-endian word per value. *)
Definition byte_of_N (n : N) : Byte.byte :=
  default Byte.x00 (Byte.of_N (n mod 256)).

Fixpoint big_endian (n : nat) (v : N) : bytes :=
  match n with
  | O => []
  | S n' => big_endian n' (v / 256) ++ [byte_of_N v]
  end.

Definition abi_encode_word (v : N) : bytes := big_endian 32 v.

Definition abi_encode (vs : list N) : bytes :=
  concat (map abi_encode_word vs).

(** ** Storage *)

Record EncryptedContribution : Type := {
  id : N;
  encryptedComputeHours : euint32;
  encryptedDataQuality : euint32;
  encryptedModelImpact : euint32;
  timestamp : N;
  contributorHash : N
}.

Record RoyaltyDistribution : Type := {
  encryptedShare : euint32;
  encryptedPaymentAmount : euint32;
  isClaimed : ebool
}.

Record DecryptedRoyalty : Type := {
  sharePercentage : N;
  paymentAmount : N;
  isRevealed : bool
}.

(** The values a mapping returns for a key that was never written. *)
Definition zero_contribution : EncryptedContribution :=
  {| id := 0; encryptedComputeHours := None; encryptedDataQuality := None;
     encryptedModelImpact := None; timestamp := 0; contributorHash := 0 |}.

Definition zero_distribution : RoyaltyDistribution :=
  {| encryptedShare := None; encryptedPaymentAmount := None; isClaimed := None |}.

Definition zero_royalty : DecryptedRoyalty :=
  {| sharePercentage := 0; paymentAmount := 0; isRevealed := false |}.

Inductive Event : Type :=
| ContributionRecorded (id contributorHash timestamp : N)
| RoyaltyCalculationRequested (contributionId : N)
| RoyaltyDecrypted (contributionId : N)
| RewardPoolDeposited (amount : N).

Inductive Selector : Type :=
| processRoyaltyCalculation_selector
| processRoyaltyPayment_selector.

(** A decryption request as the oracle receives it. *)
Record DecryptionRequest : Type := {
  requestID : N;
  ctsHandles : list euint32;
  callbackSelector : Selector
}.

(** The contract's storage, followed by what the contract hands to its
    environment: the oracle's request counter and outbox, and the event log. *)
Record State : Type := {
  contributionCount : N;
  totalRewardPool : N;
  contributions : gmap N EncryptedContribution;
  royaltyDistributions : gmap N RoyaltyDistribution;
  decryptedRoyalties : gmap N DecryptedRoyalty;
  requestToContributionId : gmap N N;
  requestToContributorHash : gmap N N;
  counterRequest : N;
  decryptionRequests : list DecryptionRequest;
  events : list Event
}.

(** The state right after deployment. *)
Definition deployed : State :=
  {| contributionCount := 0; totalRewardPool := 0;
     contributions := ∅; royaltyDistributions := ∅; decryptedRoyalties := ∅;
     requestToContributionId := ∅; requestToContributorHash := ∅;
     counterRequest := 0; decryptionRequests := []; events := [] |}.

(** Reading a mapping: the stored value, or the zero value. *)
Definition contributions_at (s : State) (k : N) : EncryptedContribution :=
  default zero_contribution (contributions s !! k).

Definition royaltyDistributions_at (s : State) (k : N) : RoyaltyDistribution :=
  default zero_distribution (royaltyDistributions s !! k).

Definition decryptedRoyalties_at (s : State) (k : N) : DecryptedRoyalty :=
  default zero_royalty (decryptedRoyalties s !! k).

Definition requestToContributionId_at (s : State) (k : N) : N :=
  default 0 (requestToContributionId s !! k).

Definition requestToContributorHash_at (s : State) (k : N) : N :=
  default 0 (requestToContributorHash s !! k).

(** Storage writes, one per state variable the contract assigns. *)
Definition set_contributionCount (v : N) (s : State) : State :=
  {| contributionCount := v; totalRewardPool := totalRewardPool s;
     contributions := contributions s;
     royaltyDistributions := royaltyDistributions s;
     decryptedRoyalties := decryptedRoyalties s;
     requestToContributionId := requestToContributionId s;
     requestToContributorHash := requestToContributorHash s;
     counterRequest := counterRequest s;
     decryptionRequests := decryptionRequests s; events := events s |}.

Definition set_totalRewardPool (v : N) (s : State) : State :=
  {| contributionCount := contributionCount s; totalRewardPool := v;
     contributions := contributions s;
     royaltyDistributions := royaltyDistributions s;
     decryptedRoyalties := decryptedRoyalties s;
     requestToContributionId := requestToContributionId s;
     requestToContributorHash := requestToContributorHash s;
     counterRequest := counterRequest s;
     decryptionRequests := decryptionRequests s; events := events s |}.

Definition set_contributions (k : N) (v : EncryptedContribution) (s : State) : State :=
  {| contributionCount := contributionCount s;
     totalRewardPool := totalRewardPool s;
     contributions := <[k := v]> (contributions s);
     royaltyDistributions := royaltyDistributions s;
     decryptedRoyalties := decryptedRoyalties s;
     requestToContributionId := requestToContributionId s;
     requestToContributorHash := requestToContributorHash s;
     counterRequest := counterRequest s;
     decryptionRequests := decryptionRequests s; events := events s |}.

Definition set_royaltyDistributions (k : N) (v : RoyaltyDistribution) (s : State) : State :=
  {| contributionCount := contributionCount s;
     totalRewardPool := totalRewardPool s;
     contributions := contributions s;
     royaltyDistributions := <[k := v]> (royaltyDistributions s);
     decryptedRoyalties := decryptedRoyalties s;
     requestToContributionId := requestToContributionId s;
     requestToContributorHash := requestToContributorHash s;
     counterRequest := counterRequest s;
     decryptionRequests := decryptionRequests s; events := events s |}.

Definition set_decryptedRoyalties (k : N) (v : DecryptedRoyalty) (s : State) : State :=
  {| contributionCount := contributionCount s;
     totalRewardPool := totalRewardPool s;
     contributions := contributions s;
     royaltyDistributions := royaltyDistributions s;
     decryptedRoyalties := <[k := v]> (decryptedRoyalties s);
     requestToContributionId := requestToContributionId s;
     requestToContributorHash := requestToContributorHash s;
     counterRequest := counterRequest s;
     decryptionRequests := decryptionRequests s; events := events s |}.

Definition set_requestToContributionId (k v : N) (s : State) : State :=
  {| contributionCount := contributionCount s;
     totalRewardPool := totalRewardPool s;
     contributions := contributions s;
     royaltyDistributions := royaltyDistributions s;
     decryptedRoyalties := decryptedRoyalties s;
     requestToContributionId := <[k := v]> (requestToContributionId s);
     requestToContributorHash := requestToContributorHash s;
     counterRequest := counterRequest s;
     decryptionRequests := decryptionRequests s; events := events s |}.

Definition set_requestToContributorHash (k v : N) (s : State) : State :=
  {| contributionCount := contributionCount s;
     totalRewardPool := totalRewardPool s;
     contributions := contributions s;
     royaltyDistributions := royaltyDistributions s;
     decryptedRoyalties := decryptedRoyalties s;
     requestToContributionId := requestToContributionId s;
     requestToContributorHash := <[k := v]> (requestToContributorHash s);
     counterRequest := counterRequest s;
     decryptionRequests := decryptionRequests s; events := events s |}.

(** emit: the event is appended to the log. *)
Definition emit (e : Event) (s : State) : State :=
  {| contributionCount := contributionCount s;
     totalRewardPool := totalRewardPool s;
     contributions := contributions s;
     royaltyDistributions := royaltyDistributions s;
     decryptedRoyalties := decryptedRoyalties s;
     requestToContributionId := requestToContributionId s;
     requestToContributorHash := requestToContributorHash s;
     counterRequest := counterRequest s;
     decryptionRequests := decryptionRequests s;
     events := events s ++ [e] |}.

(** Modelled from the spec: [FHE.requestDecryption] belongs to the fhEVM
    library, which is not part of the sources.  Section 6 gives its
    interface, requestDecryption(ciphertexts, callback) -> requestId,
    fire-and-forget, and section 3 says the requestId is a unique handle
    issued by the oracle: the request is handed over under the next value of
    a counter, which is returned to the caller. *)
Definition requestDecryption (cts : list euint32) (sel : Selector) (s : State)
  : N * State :=
  let reqId := counterRequest s in
  (reqId,
   {| contributionCount := contributionCount s;
      totalRewardPool := totalRewardPool s;
      contributions := contributions s;
      royaltyDistributions := royaltyDistributions s;
      decryptedRoyalties := decryptedRoyalties s;
      requestToContributionId := requestToContributionId s;
      requestToContributorHash := requestToContributorHash s;
      counterRequest := reqId + 1;
      decryptionRequests :=
        decryptionRequests s ++
        [{| requestID := reqId; ctsHandles := cts; callbackSelector := sel |}];
      events := events s |}).

(** ** The contract *)

Definition calculateSharePercentage (computeHours dataQuality modelImpact : N)
  : Result N :=
  let* a := checked_mul uint32_max computeHours 40 in
  let* b := checked_mul uint32_max dataQuality 35 in
  let* ab := checked_add uint32_max a b in
  let* c := checked_mul uint32_max modelImpact 25 in
  let* abc := checked_add uint32_max ab c in
  Ok (abc / 100).

Definition depositRewardPool (s : State) (msg_value : N) : Result State :=
  let* pool := checked_add uint256_max (totalRewardPool s) msg_value in
  let s := set_totalRewardPool pool s in
  Ok (emit (RewardPoolDeposited msg_value) s).

Definition submitEncryptedContribution (s : State)
    (computeHours dataQuality modelImpact : euint32)
    (contributorHash block_timestamp : N) : Result State :=
  let* count := checked_add uint256_max (contributionCount s) 1 in
  let s := set_contributionCount count s in
  let newId := contributionCount s in
  let s := set_contributions newId
             {| id := newId;
                encryptedComputeHours := computeHours;
                encryptedDataQuality := dataQuality;
                encryptedModelImpact := modelImpact;
                timestamp := block_timestamp;
                contributorHash := contributorHash |} s in
  Ok (emit (ContributionRecorded newId contributorHash block_timestamp) s).

Definition calculateRoyaltyShare (s : State) (contributionId : N) : Result State :=
  let contrib := contributions_at s contributionId in
  let ciphertexts := [encryptedComputeHours contrib;
                      encryptedDataQuality contrib;
                      encryptedModelImpact contrib] in
  let '(reqId, s) := requestDecryption ciphertexts processRoyaltyCalculation_selector s in
  let s := set_requestToContributionId reqId contributionId s in
  Ok (emit (RoyaltyCalculationRequested contributionId) s).

Definition claimRoyalty (s : State) (contributorHash : N) : Result State :=
  let dist := royaltyDistributions_at s contributorHash in
  let* _ := require (negb (FHE.decrypt (isClaimed dist))) "Already claimed" in
  let ciphertexts := [encryptedPaymentAmount dist] in
  let '(reqId, s) := requestDecryption ciphertexts processRoyaltyPayment_selector s in
  Ok (set_requestToContributorHash reqId contributorHash s).

Definition getDecryptedRoyalty (s : State) (contributionId : N) : N * N * bool :=
  let r := decryptedRoyalties_at s contributionId in
  (sharePercentage r, paymentAmount r, isRevealed r).

Section Callbacks.

(** Modelled from the spec: [FHE.checkSignatures] is library code outside the
    sources.  Section 6 gives it as verifyProof(requestId, cleartextBytes,
    proof) -> bool, failing closed; the verdict is a parameter and the
    callbacks are stated for every verifier. *)
Variable verifySignatures : N -> bytes -> bytes -> bool.

Definition checkSignatures (requestId : N) (cleartexts proof : bytes) : Result unit :=
  if verifySignatures requestId cleartexts proof then Ok tt
  else Revert Invalid_signatures.

Definition processRoyaltyCalculation (s : State) (requestId : N)
    (cleartexts proof : bytes) : Result State :=
  let contributionId := requestToContributionId_at s requestId in
  let* _ := require (negb (contributionId =? 0)) "Invalid request" in
  let contrib := contributions_at s contributionId in
  (* the source negates the stored flag itself: require(!(...).isClaimed, ...) *)
  let* _ := require
              (negb (FHE.decrypt
                       (isClaimed (royaltyDistributions_at s (contributorHash contrib)))))
              "Already processed" in
  let* _ := checkSignatures requestId cleartexts proof in
  let* decoded := abi_decode_uint32x3 cleartexts in
  let '(computeHours, dataQuality, modelImpact) := decoded in
  let* share := calculateSharePercentage computeHours dataQuality modelImpact in
  let* product := checked_mul uint256_max (totalRewardPool s) share in
  let payment := product / 10000 in
  let s := set_royaltyDistributions (contributorHash contrib)
             {| encryptedShare := FHE.asEuint32 share;
                encryptedPaymentAmount := FHE.asEuint32 (payment mod 2 ^ 32);
                isClaimed := FHE.asEbool false |} s in
  let s := set_decryptedRoyalties contributionId
             {| sharePercentage := share;
                paymentAmount := payment;
                isRevealed := true |} s in
  Ok (emit (RoyaltyDecrypted contributionId) s).

Definition processRoyaltyPayment (s : State) (requestId : N)
    (cleartexts proof : bytes) : Result State :=
  let contributorHash := requestToContributorHash_at s requestId in
  let* _ := require (negb (contributorHash =? 0)) "Invalid request" in
  let dist := royaltyDistributions_at s contributorHash in
  let* _ := require (negb (FHE.decrypt (isClaimed dist))) "Already processed" in
  let* _ := checkSignatures requestId cleartexts proof in
  let* amount := abi_decode_uint32 cleartexts in
  Ok (set_royaltyDistributions contributorHash
        {| encryptedShare := encryptedShare dist;
           encryptedPaymentAmount := encryptedPaymentAmount dist;
           isClaimed := FHE.asEbool true |} s).

End Callbacks.

(** ** Transactions

    A call of a public function, with the parts of the transaction it reads
    ([msg.value], [block.timestamp]). *)

Inductive Call : Type :=
| DepositRewardPool (msg_value : N)
| SubmitEncryptedContribution (computeHours dataQuality modelImpact : euint32)
    (contributorHash block_timestamp : N)
| CalculateRoyaltyShare (contributionId : N)
| ProcessRoyaltyCalculation (requestId : N) (cleartexts proof : bytes)
| ClaimRoyalty (contributorHash : N)
| ProcessRoyaltyPayment (requestId : N) (cleartexts proof : bytes)
| GetDecryptedRoyalty (contributionId : N).

(** What the caller observes: the words the function returns, or the revert. *)
Inductive Outcome : Type :=
| Success (returndata : list N)
| Reverted (e : Error).

(** A function without return values: its new state is committed and the
    return data is empty; on a revert the state is the one before the call. *)
Definition commit (s : State) (r : Result State) : State * Outcome :=
  match r with
  | Ok s' => (s', Success [])
  | Revert e => (s, Reverted e)
  end.

Section Transactions.

Variable verifySignatures : N -> bytes -> bytes -> bool.

Definition exec (s : State) (c : Call) : State * Outcome :=
  match c with
  | DepositRewardPool msg_value => commit s (depositRewardPool s msg_value)
  | SubmitEncryptedContribution ch dq mi h ts =>
      commit s (submitEncryptedContribution s ch dq mi h ts)
  | CalculateRoyaltyShare contributionId =>
      commit s (calculateRoyaltyShare s contributionId)
  | ProcessRoyaltyCalculation requestId cleartexts proof =>
      commit s (processRoyaltyCalculation verifySignatures s requestId cleartexts proof)
  | ClaimRoyalty h => commit s (claimRoyalty s h)
  | ProcessRoyaltyPayment requestId cleartexts proof =>
      commit s (processRoyaltyPayment verifySignatures s requestId cleartexts proof)
  | GetDecryptedRoyalty contributionId =>
      let '(share, amount, revealed) := getDecryptedRoyalty s contributionId in
      (s, Success [share; amount; if revealed then 1 else 0])
  end.

(** The state after a sequence of transactions. *)
Fixpoint run (s : State) (cs : list Call) : State :=
  match cs with
  | [] => s
  | c :: cs' => run (fst (exec s c)) cs'
  end.

(** What each transaction of a sequence returned. *)
Fixpoint outcomes (s : State) (cs : list Call) : list Outcome :=
  match cs with
  | [] => []
  | c :: cs' => snd (exec s c) :: outcomes (fst (exec s c)) cs'
  end.

(** What one transaction adds to the pool. *)
Definition credit (s : State) (c : Call) : N :=
  match c, snd (exec s c) with
  | DepositRewardPool v, Success _ => v
  | _, _ => 0
  end.

(** The ether the pool received: the values of the deposits that went
    through. *)
Fixpoint deposited (s : State) (cs : list Call) : N :=
  match cs with
  | [] => 0
  | c :: cs' => credit s c + deposited (fst (exec s c)) cs'
  end.

End Transactions.

(** The values of all deposit calls of a sequence. *)
Fixpoint deposit_amounts (cs : list Call) : list N :=
  match cs with
  | [] => []
  | DepositRewardPool v :: cs' => v :: deposit_amounts cs'
  | _ :: cs' => deposit_amounts cs'
  end.

Definition sum_N (l : list N) : N := fold_right N.add 0 l.

(** The ids announced by [ContributionRecorded], oldest first. *)
Definition recorded_ids (log : list Event) : list N :=
  omap (fun e => match e with
                 | ContributionRecorded i _ _ => Some i
                 | _ => None
                 end) log.

(** A verifier for the examples: it accepts exactly the proof [2a]. *)
Definition demo_verifier (requestId : N) (cleartexts proof : bytes) : bool :=
  match proof with
  | [b] => Byte.eqb b Byte.x2a
  | _ => false
  end.

Definition demo_proof : bytes := [Byte.x2a].

(** ** What the specification says the callback computes *)

Definition weighted_sum (computeHours dataQuality modelImpact : N) : N :=
  computeHours * 40 + dataQuality * 35 + modelImpact * 25.

(** share = floor((computeHours*40 + dataQuality*35 + modelImpact*25) / 100) *)
Definition spec_share (computeHours dataQuality modelImpact : N) : N :=
  weighted_sum computeHours dataQuality modelImpact / 100.

(** payment = floor(pool * share / 10000) *)
Definition spec_payment (pool share : N) : N := pool * share / 10000.

(** The decrypted claimed flag stored under a contributor key. *)
Definition claimed (s : State) (key : N) : bool :=
  FHE.decrypt (isClaimed (royaltyDistributions_at s key)).

(** The state a calculation callback commits for contribution [cid] and a
    computed [share]. *)
Definition calculation_result (s : State) (cid share : N) : State :=
  let key := contributorHash (contributions_at s cid) in
  let payment := totalRewardPool s * share / 10000 in
  emit (RoyaltyDecrypted cid)
    (set_decryptedRoyalties cid
       {| sharePercentage := share; paymentAmount := payment; isRevealed := true |}
       (set_royaltyDistributions key
          {| encryptedShare := Some share;
             encryptedPaymentAmount := Some (payment mod 2 ^ 32);
             isClaimed := Some false |} s)).

(** Stored contributions sit under the ids 1..contributionCount, each under
    its own id, and the log announced exactly these ids, in order. *)
Definition ids_wf (s : State) : Prop :=
  (forall k r, contributions s !! k = Some r ->
               1 <= k <= contributionCount s /\ id r = k) /\
  recorded_ids (events s) = N.of_nat <$> seq 1 (N.to_nat (contributionCount s)).

(** The state a successful claim request commits. *)
Definition claim_result (s : State) (key : N) : State :=
  set_requestToContributorHash (counterRequest s) key
    (snd (requestDecryption
            [encryptedPaymentAmount (royaltyDistributions_at s key)]
            processRoyaltyPayment_selector s)).

(** The state a successful claim callback commits. *)
Definition payment_result (s : State) (key : N) : State :=
  set_royaltyDistributions key
    {| encryptedShare := encryptedShare (royaltyDistributions_at s key);
       encryptedPaymentAmount := encryptedPaymentAmount (royaltyDistributions_at s key);
       isClaimed := Some true |} s.

(** ** States and calls used in the examples *)

Definition example_cleartexts : bytes := abi_encode [100; 80; 60].
Definition example_submission : Call :=
  SubmitEncryptedContribution (Some 100) (Some 80) (Some 60) 7 1700000000.
Definition example_callback : Call :=
  ProcessRoyaltyCalculation 0 example_cleartexts demo_proof.
Definition requested_state : State :=
  run demo_verifier deployed
    [DepositRewardPool 1000; example_submission; CalculateRoyaltyShare 1].
Definition revealed_state : State :=
  fst (exec demo_verifier requested_state example_callback).
Definition wealthy_state : State :=
  run demo_verifier deployed
    [DepositRewardPool 1000000000000000; example_submission; CalculateRoyaltyShare 1].

(** Two contributions of the contributor 7, the first one already revealed. *)
Definition shared_key_state : State :=
  run demo_verifier deployed
    [DepositRewardPool 1000; example_submission;
     SubmitEncryptedContribution (Some 10) (Some 10) (Some 10) 7 1700000001;
     CalculateRoyaltyShare 1; CalculateRoyaltyShare 2; example_callback].

(** A revealed contribution of the contributor with the all-zero key. *)
Definition zero_key_state : State :=
  run demo_verifier deployed
    [DepositRewardPool 1000;
     SubmitEncryptedContribution (Some 100) (Some 80) (Some 60) 0 1700000000;
     CalculateRoyaltyShare 1; example_callback].

(** Contributor 7 has claimed and the claim callback has landed. *)
Definition settled_state : State :=
  run demo_verifier revealed_state
    [ClaimRoyalty 7; ProcessRoyaltyPayment 1 (abi_encode [8]) demo_proof].

(** ** One committed transaction *)

(** The states the remaining functions commit. *)
Definition deposit_result (s : State) (v : N) : State :=
  emit (RewardPoolDeposited v) (set_totalRewardPool (totalRewardPool s + v) s).

Definition submit_result (s : State) (ch dq mi : euint32) (h ts : N) : State :=
  emit (ContributionRecorded (contributionCount s + 1) h ts)
    (set_contributions (contributionCount s + 1)
       {| id := contributionCount s + 1;
          encryptedComputeHours := ch; encryptedDataQuality := dq;
          encryptedModelImpact := mi; timestamp := ts; contributorHash := h |}
       (set_contributionCount (contributionCount s + 1) s)).

Definition request_result (s : State) (cid : N) : State :=
  emit (RoyaltyCalculationRequested cid)
    (set_requestToContributionId (counterRequest s) cid
       (snd (requestDecryption
               [encryptedComputeHours (contributions_at s cid);
                encryptedDataQuality (contributions_at s cid);
                encryptedModelImpact (contributions_at s cid)]
               processRoyaltyCalculation_selector s))).

Section Steps.

Variable verifySignatures : N -> bytes -> bytes -> bool.

(** [committed s c s']: the call [c] goes through in [s] and leaves [s']. *)
Inductive committed (s : State) : Call -> State -> Prop :=
| committed_deposit (v : N) :
    totalRewardPool s + v <= uint256_max ->
    committed s (DepositRewardPool v) (deposit_result s v)
| committed_submit (ch dq mi : euint32) (h ts : N) :
    contributionCount s + 1 <= uint256_max ->
    committed s (SubmitEncryptedContribution ch dq mi h ts) (submit_result s ch dq mi h ts)
| committed_request (cid : N) :
    committed s (CalculateRoyaltyShare cid) (request_result s cid)
| committed_calculation (rid : N) (ct pf : bytes) (ch dq mi : N) :
    requestToContributionId_at s rid <> 0 ->
    claimed s (contributorHash (contributions_at s (requestToContributionId_at s rid))) = false ->
    verifySignatures rid ct pf = true ->
    abi_decode_uint32x3 ct = Ok (ch, dq, mi) ->
    weighted_sum ch dq mi <= uint32_max ->
    totalRewardPool s * spec_share ch dq mi <= uint256_max ->
    committed s (ProcessRoyaltyCalculation rid ct pf)
      (calculation_result s (requestToContributionId_at s rid) (spec_share ch dq mi))
| committed_claim (key : N) :
    claimed s key = false ->
    committed s (ClaimRoyalty key) (claim_result s key)
| committed_payment (rid : N) (ct pf : bytes) (amount : N) :
    requestToContributorHash_at s rid <> 0 ->
    claimed s (requestToContributorHash_at s rid) = false ->
    verifySignatures rid ct pf = true ->
    abi_decode_uint32 ct = Ok amount ->
    committed s (ProcessRoyaltyPayment rid ct pf)
      (payment_result s (requestToContributorHash_at s rid))
| committed_view (cid : N) :
    committed s (GetDecryptedRoyalty cid) s.

End Steps.

(** The amounts announced by [RewardPoolDeposited], summed. *)
Definition deposited_in_log (log : list Event) : N :=
  sum_N (omap (fun e => match e with
                        | RewardPoolDeposited v => Some v
                        | _ => None
                        end) log).

(** The largest share the checked 32-bit sum can produce. *)
Definition share_max : N := uint32_max / 100.

(** What the registries and the oracle's outbox have in common: registered
    ids were issued, no id is in both registries, requests are numbered in
    the order they were issued, and a registered id was issued for the
    callback of its registry. *)
Definition requests_wf (s : State) : Prop :=
  (forall rid cid, requestToContributionId s !! rid = Some cid -> rid < counterRequest s) /\
  (forall rid key, requestToContributorHash s !! rid = Some key -> rid < counterRequest s) /\
  (forall rid, is_Some (requestToContributionId s !! rid) ->
               requestToContributorHash s !! rid = None) /\
  length (decryptionRequests s) = N.to_nat (counterRequest s) /\
  (forall i r, decryptionRequests s !! i = Some r -> requestID r = N.of_nat i) /\
  (forall rid cid, requestToContributionId s !! rid = Some cid ->
     exists r, decryptionRequests s !! N.to_nat rid = Some r /\
               callbackSelector r = processRoyaltyCalculation_selector) /\
  (forall rid key, requestToContributorHash s !! rid = Some key ->
     exists r, decryptionRequests s !! N.to_nat rid = Some r /\
               callbackSelector r = processRoyaltyPayment_selector /\
               length (ctsHandles r) = 1%nat).

(** What storage and log have in common: a set flag belongs to a non-zero
    key with a registered claim request, an audit record is revealed, has a
    non-zero id that was requested and announced, and holds a share the
    32-bit sum can produce; an announced id has an audit record. *)
Definition ledger_wf (s : State) : Prop :=
  (forall key, claimed s key = true ->
     key <> 0 /\ exists rid, requestToContributorHash s !! rid = Some key) /\
  (forall cid r, decryptedRoyalties s !! cid = Some r ->
     cid <> 0 /\ isRevealed r = true /\ sharePercentage r <= share_max /\
     paymentAmount r <= totalRewardPool s * sharePercentage r / 10000 /\
     (exists rid, requestToContributionId s !! rid = Some cid) /\
     RoyaltyDecrypted cid ∈ events s) /\
  (forall cid, RoyaltyDecrypted cid ∈ events s -> is_Some (decryptedRoyalties s !! cid)) /\
  totalRewardPool s = deposited_in_log (events s) /\
  (forall key d, royaltyDistributions s !! key = Some d ->
     is_Some (isClaimed d) /\
     (forall sh, encryptedShare d = Some sh -> sh <= share_max) /\
     (forall p, encryptedPaymentAmount d = Some p -> p < 2 ^ 32) /\
     (encryptedShare d = None <-> encryptedPaymentAmount d = None) /\
     (encryptedShare d = None -> isClaimed d = Some true)).

(** What the store and the log have in common: every id up to the counter
    is stored, nothing else is, and the log announced each stored record
    with its contributorHash and timestamp. *)
Definition store_wf (s : State) : Prop :=
  ids_wf s /\
  (forall k, 1 <= k <= contributionCount s -> is_Some (contributions s !! k)) /\
  size (contributions s) = N.to_nat (contributionCount s) /\
  (forall i h t, ContributionRecorded i h t ∈ events s <->
     exists r, contributions s !! i = Some r /\ contributorHash r = h /\ timestamp r = t).

(** ** The dashboard counters of the web client *)

Module App.

Section Dashboard.

(** A JavaScript number; the counters do not look into it. *)
Variable number : Type.

Record RoyaltyContribution : Type := {
  id : string;
  encryptedData : string;
  timestamp : number;
  owner : string;
  model : string;
  amount : number;
  status : string
}.

Definition verifiedCount (contributions : list RoyaltyContribution) : nat :=
  length (List.filter (fun c => String.eqb (status c) "verified") contributions).

Definition pendingCount (contributions : list RoyaltyContribution) : nat :=
  length (List.filter (fun c => String.eqb (status c) "pending") contributions).

Definition paidCount (contributions : list RoyaltyContribution) : nat :=
  length (List.filter (fun c => String.eqb (status c) "paid") contributions).

End Dashboard.

Arguments id {number} _.
Arguments encryptedData {number} _.
Arguments timestamp {number} _.
Arguments owner {number} _.
Arguments model {number} _.
Arguments amount {number} _.
Arguments status {number} _.
Arguments verifiedCount {number} _.
Arguments pendingCount {number} _.
Arguments paidCount {number} _.

End App.

(** ** More states and calls for the examples *)

Definition revealing_calls : list Call :=
  [DepositRewardPool 1000; example_submission; CalculateRoyaltyShare 1; example_callback].

Definition settling_calls : list Call :=
  revealing_calls ++ [ClaimRoyalty 7; ProcessRoyaltyPayment 1 (abi_encode [8]) demo_proof].

Definition claim_requested_state : State :=
  run demo_verifier revealed_state [ClaimRoyalty 7].

Definition dashboard_rows : list (App.RoyaltyContribution N) :=
  [{| App.id := "a"; App.encryptedData := "FHE-x"; App.timestamp := 3; App.owner := "0x1";
      App.model := "GPT-4"; App.amount := 1; App.status := "verified" |};
   {| App.id := "b"; App.encryptedData := "FHE-y"; App.timestamp := 2; App.owner := "0x2";
      App.model := "LLaMA"; App.amount := 2; App.status := "archived" |}].

(** Two words only: too short for the three metrics. *)
Definition short_cleartexts : bytes := abi_encode [100; 80].

(** One word that does not fit a uint32. *)
Definition oversized_cleartexts : bytes := abi_encode [4294967296].

(** ** Reasoning about results *)

Lemma bind_Ok {A B : Type} (r : Result A) (k : A -> Result B) (b : B) :
  bind r k = Ok b <-> exists a, r = Ok a /\ k a = Ok b.
Proof.
  destruct r as [a|e]; simpl; split.
  - intros H. exists a. split; [reflexivity | exact H].
  - intros (a' & Ha & Hk). injection Ha as ->. exact Hk.
  - discriminate.
  - intros (a' & Ha & _). discriminate.
Qed.

Lemma require_Ok (cond : bool) (reason : string) (u : unit) :
  require cond reason = Ok u <-> cond = true.
Proof. destruct cond, u; simpl; split; congruence. Qed.

Lemma require_false (reason : string) :
  require false reason = Revert (Require_failed reason).
Proof. reflexivity. Qed.

Lemma checked_add_Ok (max a b r : N) :
  checked_add max a b = Ok r <-> a + b <= max /\ r = a + b.
Proof.
  unfold checked_add. destruct (N.leb_spec (a + b) max); split.
  - intros [= <-]. split; [assumption | reflexivity].
  - intros [_ ->]. reflexivity.
  - discriminate.
  - intros [Hle _]. lia.
Qed.

Lemma checked_add_overflow (max a b : N) :
  max < a + b -> checked_add max a b = Revert Panic_overflow.
Proof. unfold checked_add. destruct (N.leb_spec (a + b) max); [lia | reflexivity]. Qed.

Lemma checked_mul_Ok (max a b r : N) :
  checked_mul max a b = Ok r <-> a * b <= max /\ r = a * b.
Proof.
  unfold checked_mul. destruct (N.leb_spec (a * b) max); split.
  - intros [= <-]. split; [assumption | reflexivity].
  - intros [_ ->]. reflexivity.
  - discriminate.
  - intros [Hle _]. lia.
Qed.

Lemma checked_mul_overflow (max a b : N) :
  max < a * b -> checked_mul max a b = Revert Panic_overflow.
Proof. unfold checked_mul. destruct (N.leb_spec (a * b) max); [lia | reflexivity]. Qed.

Lemma checked_add_fits (max a b : N) :
  a + b <= max -> checked_add max a b = Ok (a + b).
Proof. intros H. apply checked_add_Ok. split; [assumption | reflexivity]. Qed.

Lemma checked_mul_fits (max a b : N) :
  a * b <= max -> checked_mul max a b = Ok (a * b).
Proof. intros H. apply checked_mul_Ok. split; [assumption | reflexivity]. Qed.

(** Unfold one [bind] of a successful computation. *)
Ltac step_Ok H :=
  let a := fresh "a" in
  let Ha := fresh "Ha" in
  apply bind_Ok in H; destruct H as (a & Ha & H).

Lemma abi_decode_uint32_at_bound (data : bytes) (i : nat) (v : N) :
  abi_decode_uint32_at data i = Ok v -> v <= uint32_max.
Proof.
  unfold abi_decode_uint32_at. destruct (abi_word data i) as [w|]; [|discriminate].
  destruct (N.leb_spec w uint32_max); [|discriminate].
  intros [= <-]. assumption.
Qed.

(** ** Decoding what the oracle encoded *)

Lemma length_big_endian (n : nat) : forall v, length (big_endian n v) = n.
Proof.
  induction n as [|n IH]; intros v; simpl; [reflexivity|].
  rewrite length_app, IH. simpl. lia.
Qed.

Lemma to_N_byte_of_N (v : N) : Byte.to_N (byte_of_N v) = v mod 256.
Proof.
  unfold byte_of_N.
  destruct (Byte.of_N (v mod 256)) as [b|] eqn:H.
  - simpl. apply Byte.to_of_N, H.
  - exfalso. pose proof (Byte.to_of_N_option_map (v mod 256)) as Hm.
    rewrite H in Hm. simpl in Hm.
    assert (v mod 256 < 256) by (apply N.mod_lt; discriminate).
    destruct (N.leb_spec (v mod 256) 255); [discriminate | lia].
Qed.

Lemma word_of_bytes_snoc (l : bytes) (b : Byte.byte) :
  word_of_bytes (l ++ [b]) = word_of_bytes l * 256 + Byte.to_N b.
Proof. unfold word_of_bytes. rewrite fold_left_app. reflexivity. Qed.

Lemma word_of_big_endian (n : nat) :
  forall v, word_of_bytes (big_endian n v) = v mod 256 ^ N.of_nat n.
Proof.
  induction n as [|n IH]; intros v.
  - simpl. rewrite N.mod_1_r. reflexivity.
  - simpl big_endian. rewrite word_of_bytes_snoc, IH, to_N_byte_of_N.
    rewrite Nat2N.inj_succ, N.pow_succ_r'.
    rewrite N.Div0.mod_mul_r. lia.
Qed.

Lemma abi_word_head (v : N) (rest : bytes) :
  abi_word (abi_encode_word v ++ rest) 0 = Some (v mod 2 ^ 256).
Proof.
  unfold abi_word, abi_encode_word. cbv zeta.
  rewrite Nat.mul_0_r, drop_0.
  pose proof (length_big_endian 32 v) as Hlen.
  pose proof (word_of_big_endian 32 v) as Hword.
  generalize dependent (big_endian 32 v). intros w Hlen Hword.
  rewrite (take_app_length' w rest 32) by (symmetry; exact Hlen).
  rewrite Hlen, Hword. reflexivity.
Qed.

Lemma abi_word_tail (v : N) (rest : bytes) (i : nat) :
  abi_word (abi_encode_word v ++ rest) (S i) = abi_word rest i.
Proof.
  unfold abi_word, abi_encode_word.
  pose proof (length_big_endian 32 v) as Hlen.
  generalize dependent (big_endian 32 v). intros w Hlen.
  assert (E : (32 * S i = length w + 32 * i)%nat) by (rewrite Hlen; lia).
  rewrite E, drop_app_add. reflexivity.
Qed.

Lemma abi_decode_uint32_at_encode (v : N) (rest : bytes) :
  v <= uint32_max -> abi_decode_uint32_at (abi_encode_word v ++ rest) 0 = Ok v.
Proof.
  intros Hv. unfold abi_decode_uint32_at. rewrite abi_word_head.
  assert (v < 2 ^ 256) by (unfold uint32_max in Hv; lia).
  rewrite N.mod_small by lia.
  destruct (N.leb_spec v uint32_max); [reflexivity | lia].
Qed.

Lemma abi_decode_uint32_at_skip (v : N) (rest : bytes) (i : nat) :
  abi_decode_uint32_at (abi_encode_word v ++ rest) (S i) = abi_decode_uint32_at rest i.
Proof. unfold abi_decode_uint32_at. rewrite abi_word_tail. reflexivity. Qed.

Lemma abi_decode_encode_uint32x3 (a b c : N) :
  a <= uint32_max -> b <= uint32_max -> c <= uint32_max ->
  abi_decode_uint32x3 (abi_encode [a; b; c]) = Ok (a, b, c).
Proof.
  intros Ha Hb Hc.
  change (abi_encode [a; b; c])
    with (abi_encode_word a ++ abi_encode_word b ++ abi_encode_word c ++ []).
  unfold abi_decode_uint32x3.
  rewrite !abi_decode_uint32_at_skip.
  rewrite (abi_decode_uint32_at_encode a _ Ha).
  rewrite (abi_decode_uint32_at_encode b _ Hb).
  rewrite (abi_decode_uint32_at_encode c _ Hc).
  reflexivity.
Qed.

Lemma abi_decode_encode_uint32 (a : N) :
  a <= uint32_max -> abi_decode_uint32 (abi_encode [a]) = Ok a.
Proof.
  intros Ha.
  change (abi_encode [a]) with (abi_encode_word a ++ []).
  apply abi_decode_uint32_at_encode, Ha.
Qed.

Lemma abi_decode_uint32x3_bound (data : bytes) (a b c : N) :
  abi_decode_uint32x3 data = Ok (a, b, c) ->
  a <= uint32_max /\ b <= uint32_max /\ c <= uint32_max.
Proof.
  unfold abi_decode_uint32x3. intros H.
  step_Ok H. step_Ok H. step_Ok H. injection H as <- <- <-.
  repeat split; eapply abi_decode_uint32_at_bound; eassumption.
Qed.

(** ** The share formula *)

Lemma calculateSharePercentage_fits (ch dq mi : N) :
  weighted_sum ch dq mi <= uint32_max ->
  calculateSharePercentage ch dq mi = Ok (spec_share ch dq mi).
Proof.
  unfold weighted_sum, spec_share, weighted_sum, calculateSharePercentage.
  intros H.
  rewrite (checked_mul_fits _ ch 40) by lia. simpl.
  rewrite (checked_mul_fits _ dq 35) by lia. simpl.
  rewrite checked_add_fits by lia. simpl.
  rewrite (checked_mul_fits _ mi 25) by lia. simpl.
  rewrite checked_add_fits by lia. reflexivity.
Qed.

Lemma calculateSharePercentage_overflow (ch dq mi : N) :
  uint32_max < weighted_sum ch dq mi ->
  calculateSharePercentage ch dq mi = Revert Panic_overflow.
Proof.
  unfold weighted_sum, calculateSharePercentage. intros H.
  destruct (N.le_gt_cases (ch * 40) uint32_max) as [Ha|Ha];
    [rewrite (checked_mul_fits _ _ _ Ha) | rewrite (checked_mul_overflow _ _ _ Ha)];
    simpl; [|reflexivity].
  destruct (N.le_gt_cases (dq * 35) uint32_max) as [Hb|Hb];
    [rewrite (checked_mul_fits _ _ _ Hb) | rewrite (checked_mul_overflow _ _ _ Hb)];
    simpl; [|reflexivity].
  destruct (N.le_gt_cases (ch * 40 + dq * 35) uint32_max) as [Hab|Hab];
    [rewrite (checked_add_fits _ _ _ Hab) | rewrite (checked_add_overflow _ _ _ Hab)];
    simpl; [|reflexivity].
  destruct (N.le_gt_cases (mi * 25) uint32_max) as [Hc|Hc];
    [rewrite (checked_mul_fits _ _ _ Hc) | rewrite (checked_mul_overflow _ _ _ Hc)];
    simpl; [|reflexivity].
  rewrite checked_add_overflow by lia. reflexivity.
Qed.

Lemma calculateSharePercentage_Ok (ch dq mi share : N) :
  calculateSharePercentage ch dq mi = Ok share <->
  weighted_sum ch dq mi <= uint32_max /\ share = spec_share ch dq mi.
Proof.
  split.
  - intros H. destruct (N.le_gt_cases (weighted_sum ch dq mi) uint32_max) as [Hle|Hgt].
    + rewrite (calculateSharePercentage_fits _ _ _ Hle) in H.
      injection H as <-. split; [assumption | reflexivity].
    + rewrite (calculateSharePercentage_overflow _ _ _ Hgt) in H. discriminate.
  - intros [Hle ->]. apply calculateSharePercentage_fits, Hle.
Qed.

(** ** The callbacks, case by case *)

Section CallbackFacts.

Variable verify : N -> bytes -> bytes -> bool.

Lemma checkSignatures_Ok (rid : N) (ct pf : bytes) (u : unit) :
  checkSignatures verify rid ct pf = Ok u <-> verify rid ct pf = true.
Proof.
  unfold checkSignatures. destruct (verify rid ct pf), u; split; congruence.
Qed.

(** When the calculation callback goes through, and what it commits. *)
Lemma processRoyaltyCalculation_Ok (s : State) (rid : N) (ct pf : bytes) (s' : State) :
  processRoyaltyCalculation verify s rid ct pf = Ok s' <->
  exists ch dq mi,
    requestToContributionId_at s rid <> 0 /\
    claimed s (contributorHash (contributions_at s (requestToContributionId_at s rid))) = false /\
    verify rid ct pf = true /\
    abi_decode_uint32x3 ct = Ok (ch, dq, mi) /\
    weighted_sum ch dq mi <= uint32_max /\
    totalRewardPool s * spec_share ch dq mi <= uint256_max /\
    s' = calculation_result s (requestToContributionId_at s rid) (spec_share ch dq mi).
Proof.
  unfold processRoyaltyCalculation, claimed. cbv zeta. split.
  - intros H.
    step_Ok H. apply require_Ok, negb_true_iff, N.eqb_neq in Ha.
    step_Ok H. apply require_Ok, negb_true_iff in Ha0.
    step_Ok H. apply checkSignatures_Ok in Ha1.
    step_Ok H. destruct a2 as [[ch dq] mi].
    step_Ok H. apply calculateSharePercentage_Ok in Ha3 as [Hsum ->].
    step_Ok H. apply checked_mul_Ok in Ha3 as [Hmul ->].
    injection H as <-.
    exists ch, dq, mi. repeat split; assumption.
  - intros (ch & dq & mi & Hid & Hcl & Hv & Hdec & Hsum & Hmul & ->).
    apply N.eqb_neq in Hid. rewrite Hid, Hcl. simpl.
    unfold checkSignatures. rewrite Hv. simpl.
    rewrite Hdec. simpl.
    rewrite (calculateSharePercentage_fits _ _ _ Hsum). simpl.
    rewrite (checked_mul_fits _ _ _ Hmul). reflexivity.
Qed.

(** When the claim callback goes through, and what it commits. *)
Lemma processRoyaltyPayment_Ok (s : State) (rid : N) (ct pf : bytes) (s' : State) :
  processRoyaltyPayment verify s rid ct pf = Ok s' <->
  exists amount,
    requestToContributorHash_at s rid <> 0 /\
    claimed s (requestToContributorHash_at s rid) = false /\
    verify rid ct pf = true /\
    abi_decode_uint32 ct = Ok amount /\
    s' = set_royaltyDistributions (requestToContributorHash_at s rid)
           {| encryptedShare :=
                encryptedShare (royaltyDistributions_at s (requestToContributorHash_at s rid));
              encryptedPaymentAmount :=
                encryptedPaymentAmount
                  (royaltyDistributions_at s (requestToContributorHash_at s rid));
              isClaimed := Some true |} s.
Proof.
  unfold processRoyaltyPayment, claimed. cbv zeta. split.
  - intros H.
    step_Ok H. apply require_Ok, negb_true_iff, N.eqb_neq in Ha.
    step_Ok H. apply require_Ok, negb_true_iff in Ha0.
    step_Ok H. apply checkSignatures_Ok in Ha1.
    step_Ok H. injection H as <-.
    exists a2. repeat split; assumption.
  - intros (amount & Hid & Hcl & Hv & Hdec & ->).
    apply N.eqb_neq in Hid. rewrite Hid, Hcl. simpl.
    unfold checkSignatures. rewrite Hv. simpl.
    rewrite Hdec. reflexivity.
Qed.

Lemma processRoyaltyCalculation_unknown (s : State) (rid : N) (ct pf : bytes) :
  requestToContributionId_at s rid = 0 ->
  processRoyaltyCalculation verify s rid ct pf = Revert (Require_failed "Invalid request").
Proof. unfold processRoyaltyCalculation. intros ->. reflexivity. Qed.

Lemma processRoyaltyPayment_unknown (s : State) (rid : N) (ct pf : bytes) :
  requestToContributorHash_at s rid = 0 ->
  processRoyaltyPayment verify s rid ct pf = Revert (Require_failed "Invalid request").
Proof. unfold processRoyaltyPayment. intros ->. reflexivity. Qed.

Lemma processRoyaltyCalculation_claimed (s : State) (rid : N) (ct pf : bytes) :
  requestToContributionId_at s rid <> 0 ->
  claimed s (contributorHash (contributions_at s (requestToContributionId_at s rid))) = true ->
  processRoyaltyCalculation verify s rid ct pf = Revert (Require_failed "Already processed").
Proof.
  unfold processRoyaltyCalculation, claimed. intros Hid Hcl.
  apply N.eqb_neq in Hid. cbv zeta. rewrite Hid, Hcl. reflexivity.
Qed.

Lemma processRoyaltyPayment_claimed (s : State) (rid : N) (ct pf : bytes) :
  requestToContributorHash_at s rid <> 0 ->
  claimed s (requestToContributorHash_at s rid) = true ->
  processRoyaltyPayment verify s rid ct pf = Revert (Require_failed "Already processed").
Proof.
  unfold processRoyaltyPayment, claimed. intros Hid Hcl.
  apply N.eqb_neq in Hid. cbv zeta. rewrite Hid, Hcl. reflexivity.
Qed.

(** A reverted call leaves the state as it was. *)
Lemma commit_reverted (s : State) (r : Result State) (e : Error) :
  snd (commit s r) = Reverted e -> fst (commit s r) = s.
Proof. destruct r; simpl; [discriminate | reflexivity]. Qed.

Lemma exec_reverted (s : State) (c : Call) (e : Error) :
  snd (exec verify s c) = Reverted e -> fst (exec verify s c) = s.
Proof.
  destruct c; unfold exec; try apply commit_reverted.
  destruct (getDecryptedRoyalty s contributionId) as [[? ?] ?]. reflexivity.
Qed.

End CallbackFacts.

(** ** What a committed calculation leaves in storage *)

Lemma calculation_result_royalty (s : State) (cid share : N) :
  decryptedRoyalties (calculation_result s cid share) !! cid =
  Some {| sharePercentage := share;
          paymentAmount := totalRewardPool s * share / 10000;
          isRevealed := true |}.
Proof. unfold calculation_result. simpl. apply lookup_insert_eq. Qed.

Lemma calculation_result_distribution (s : State) (cid share : N) :
  royaltyDistributions (calculation_result s cid share)
    !! contributorHash (contributions_at s cid) =
  Some {| encryptedShare := Some share;
          encryptedPaymentAmount := Some ((totalRewardPool s * share / 10000) mod 2 ^ 32);
          isClaimed := Some false |}.
Proof. unfold calculation_result. simpl. apply lookup_insert_eq. Qed.

(** C5: for all decoded metric values the calculation callback computes
    share = floor((computeHours*40 + dataQuality*35 + modelImpact*25) / 100)
    and payment = floor(pool * share / 10000) against the pool it finds when
    it runs; computeHours=100, dataQuality=80, modelImpact=60 and pool=1000
    give share 83 and payment 8. *)
Theorem calculation_callback_formula :
  forall (verify : N -> bytes -> bytes -> bool) (s : State) (rid : N)
         (ct pf : bytes) (ch dq mi : N),
    abi_decode_uint32x3 ct = Ok (ch, dq, mi) ->
    let cid := requestToContributionId_at s rid in
    let key := contributorHash (contributions_at s cid) in
    let share := spec_share ch dq mi in
    let payment := spec_payment (totalRewardPool s) share in
    (forall s', processRoyaltyCalculation verify s rid ct pf = Ok s' ->
       calculateSharePercentage ch dq mi = Ok share /\
       decryptedRoyalties s' !! cid =
         Some {| sharePercentage := share; paymentAmount := payment;
                 isRevealed := true |} /\
       getDecryptedRoyalty s' cid = (share, payment, true) /\
       encryptedShare (royaltyDistributions_at s' key) = Some share) /\
    (cid <> 0 -> claimed s key = false -> verify rid ct pf = true ->
     weighted_sum ch dq mi <= uint32_max ->
     totalRewardPool s * share <= uint256_max ->
     exists s', processRoyaltyCalculation verify s rid ct pf = Ok s') /\
    (ch <= uint32_max /\ dq <= uint32_max /\ mi <= uint32_max /\
     abi_decode_uint32x3 (abi_encode [ch; dq; mi]) = Ok (ch, dq, mi)) /\
    (spec_share 100 80 60 = 83 /\ spec_payment 1000 83 = 8 /\
     calculateSharePercentage 100 80 60 = Ok 83).
Proof.
  intros verify s rid ct pf ch dq mi Hdec cid key share payment.
  split; [|split; [|split]]; cycle 2.
  { destruct (abi_decode_uint32x3_bound ct ch dq mi Hdec) as (Hch & Hdq & Hmi).
    repeat split; try assumption.
    apply abi_decode_encode_uint32x3; assumption. }
  - repeat split.
  - intros s' H.
    apply processRoyaltyCalculation_Ok in H
      as (ch' & dq' & mi' & _ & _ & _ & Hdec' & Hsum & _ & ->).
    rewrite Hdec in Hdec'. injection Hdec' as <- <- <-.
    split; [apply calculateSharePercentage_fits, Hsum|].
    split; [apply calculation_result_royalty|].
    split.
    + unfold getDecryptedRoyalty, decryptedRoyalties_at.
      fold cid. rewrite calculation_result_royalty. reflexivity.
    + unfold royaltyDistributions_at. fold cid. fold key.
      unfold key. rewrite calculation_result_distribution. reflexivity.
  - intros Hid Hcl Hv Hsum Hmul.
    eexists. apply processRoyaltyCalculation_Ok.
    exists ch, dq, mi. repeat split; eassumption.
Qed.

(** C10: the weighted sum is evaluated in checked 32-bit arithmetic; for a
    decoded triple where computeHours*40, dataQuality*35, modelImpact*25 or
    their sum exceeds 2^32 - 1 the calculation callback aborts with the
    arithmetic-overflow panic and writes nothing, and the floor formula is
    produced only when every intermediate value fits in 32 bits. *)
Theorem share_overflow_aborts_callback :
  forall (verify : N -> bytes -> bytes -> bool) (s : State) (rid : N)
         (ct pf : bytes) (ch dq mi : N),
    abi_decode_uint32x3 ct = Ok (ch, dq, mi) ->
    let cid := requestToContributionId_at s rid in
    let key := contributorHash (contributions_at s cid) in
    (uint32_max < ch * 40 \/ uint32_max < dq * 35 \/ uint32_max < mi * 25 \/
     uint32_max < ch * 40 + dq * 35 + mi * 25 ->
       calculateSharePercentage ch dq mi = Revert Panic_overflow /\
       (exists e, exec verify s (ProcessRoyaltyCalculation rid ct pf) = (s, Reverted e)) /\
       (cid <> 0 -> claimed s key = false -> verify rid ct pf = true ->
        exec verify s (ProcessRoyaltyCalculation rid ct pf) = (s, Reverted Panic_overflow))) /\
    (forall share, calculateSharePercentage ch dq mi = Ok share ->
       ch * 40 <= uint32_max /\ dq * 35 <= uint32_max /\ mi * 25 <= uint32_max /\
       ch * 40 + dq * 35 + mi * 25 <= uint32_max /\
       share = (ch * 40 + dq * 35 + mi * 25) / 100) /\
    (ch * 40 + dq * 35 + mi * 25 <= uint32_max ->
       calculateSharePercentage ch dq mi = Ok ((ch * 40 + dq * 35 + mi * 25) / 100)).
Proof.
  intros verify s rid ct pf ch dq mi Hdec cid key.
  split; [|split].
  - intros Hover.
    assert (Hgt : uint32_max < weighted_sum ch dq mi) by (unfold weighted_sum; lia).
    pose proof (calculateSharePercentage_overflow _ _ _ Hgt) as Hshare.
    split; [exact Hshare|]. split.
    + simpl. destruct (processRoyaltyCalculation verify s rid ct pf) as [s'|e] eqn:H.
      * apply processRoyaltyCalculation_Ok in H
          as (ch' & dq' & mi' & _ & _ & _ & Hdec' & Hsum & _).
        rewrite Hdec in Hdec'. injection Hdec' as <- <- <-. lia.
      * exists e. reflexivity.
    + intros Hid Hcl Hv. simpl.
      unfold processRoyaltyCalculation. cbv zeta.
      fold cid. apply N.eqb_neq in Hid. rewrite Hid. simpl.
      fold key. unfold claimed in Hcl. rewrite Hcl. simpl.
      unfold checkSignatures. rewrite Hv. simpl.
      rewrite Hdec. simpl. rewrite Hshare. reflexivity.
  - intros share H. apply calculateSharePercentage_Ok in H as [Hsum ->].
    unfold spec_share, weighted_sum in *. repeat split; lia.
  - intros Hsum. apply (calculateSharePercentage_fits ch dq mi Hsum).
Qed.

(** ** The reward pool *)

Section PoolFacts.

Variable verify : N -> bytes -> bytes -> bool.

Lemma depositRewardPool_Ok (s : State) (v : N) (s' : State) :
  depositRewardPool s v = Ok s' <->
  totalRewardPool s + v <= uint256_max /\
  s' = emit (RewardPoolDeposited v) (set_totalRewardPool (totalRewardPool s + v) s).
Proof.
  unfold depositRewardPool. cbv zeta. split.
  - intros H. step_Ok H. apply checked_add_Ok in Ha as [Hle ->].
    injection H as <-. split; [assumption | reflexivity].
  - intros [Hle ->]. rewrite (checked_add_fits _ _ _ Hle). reflexivity.
Qed.

Lemma submitEncryptedContribution_Ok (s : State) (ch dq mi : euint32) (h ts : N) (s' : State) :
  submitEncryptedContribution s ch dq mi h ts = Ok s' <->
  contributionCount s + 1 <= uint256_max /\
  s' = emit (ContributionRecorded (contributionCount s + 1) h ts)
         (set_contributions (contributionCount s + 1)
            {| id := contributionCount s + 1;
               encryptedComputeHours := ch; encryptedDataQuality := dq;
               encryptedModelImpact := mi; timestamp := ts; contributorHash := h |}
            (set_contributionCount (contributionCount s + 1) s)).
Proof.
  unfold submitEncryptedContribution. cbv zeta. split.
  - intros H. step_Ok H. apply checked_add_Ok in Ha as [Hle ->].
    injection H as <-. split; [assumption | reflexivity].
  - intros [Hle ->]. rewrite (checked_add_fits _ _ _ Hle). reflexivity.
Qed.

Lemma claimRoyalty_Ok (s : State) (key : N) (s' : State) :
  claimRoyalty s key = Ok s' <->
  claimed s key = false /\
  s' = set_requestToContributorHash (counterRequest s) key
         (snd (requestDecryption
                 [encryptedPaymentAmount (royaltyDistributions_at s key)]
                 processRoyaltyPayment_selector s)).
Proof.
  unfold claimRoyalty, claimed. cbv zeta. split.
  - intros H. step_Ok H. apply require_Ok, negb_true_iff in Ha.
    simpl in H. injection H as <-. split; [assumption | reflexivity].
  - intros [Hcl ->]. rewrite Hcl. reflexivity.
Qed.

Lemma exec_pool (s : State) (c : Call) :
  totalRewardPool (fst (exec verify s c)) = totalRewardPool s + credit verify s c.
Proof.
  unfold credit. destruct c; unfold exec.
  - destruct (depositRewardPool s msg_value) as [s'|e] eqn:H; simpl; [|lia].
    apply depositRewardPool_Ok in H as [_ ->]. reflexivity.
  - destruct (submitEncryptedContribution _ _ _ _ _ _) as [s'|e] eqn:H; simpl; [|lia].
    apply submitEncryptedContribution_Ok in H as [_ ->]. simpl. lia.
  - simpl. lia.
  - destruct (processRoyaltyCalculation _ _ _ _ _) as [s'|e] eqn:H; simpl; [|lia].
    apply processRoyaltyCalculation_Ok in H as (? & ? & ? & _ & _ & _ & _ & _ & _ & ->).
    simpl. lia.
  - destruct (claimRoyalty s contributorHash0) as [s'|e] eqn:H; simpl; [|lia].
    apply claimRoyalty_Ok in H as [_ ->]. simpl. lia.
  - destruct (processRoyaltyPayment _ _ _ _ _) as [s'|e] eqn:H; simpl; [|lia].
    apply processRoyaltyPayment_Ok in H as (? & _ & _ & _ & _ & ->).
    simpl. lia.
  - destruct (getDecryptedRoyalty s contributionId) as [[? ?] ?]. simpl. lia.
Qed.

Lemma deposited_credit (s : State) (c : Call) (cs : list Call) :
  deposited verify s (c :: cs) = credit verify s c + deposited verify (fst (exec verify s c)) cs.
Proof. reflexivity. Qed.

Lemma run_pool (cs : list Call) :
  forall s, totalRewardPool (run verify s cs) = totalRewardPool s + deposited verify s cs.
Proof.
  induction cs as [|c cs IH]; intros s.
  - simpl. lia.
  - rewrite deposited_credit. simpl run. rewrite IH, exec_pool. lia.
Qed.

Lemma credit_deposit_fits (s : State) (v : N) :
  totalRewardPool s + v <= uint256_max -> credit verify s (DepositRewardPool v) = v.
Proof.
  intros Hle. unfold credit, exec, depositRewardPool.
  rewrite (checked_add_fits _ _ _ Hle). reflexivity.
Qed.

Lemma credit_other (s : State) (c : Call) :
  (forall v, c <> DepositRewardPool v) -> credit verify s c = 0.
Proof.
  intros Hc. unfold credit. destruct c; try reflexivity.
  exfalso. apply (Hc msg_value). reflexivity.
Qed.

Lemma deposited_all (cs : list Call) :
  forall s, totalRewardPool s + sum_N (deposit_amounts cs) <= uint256_max ->
            deposited verify s cs = sum_N (deposit_amounts cs).
Proof.
  induction cs as [|c cs IH]; intros s Hle; [reflexivity|].
  rewrite deposited_credit.
  destruct c;
    try (rewrite credit_other by discriminate; simpl deposit_amounts in *;
         rewrite IH; [reflexivity | rewrite exec_pool, credit_other by discriminate; lia]).
  simpl deposit_amounts in *. simpl sum_N in *.
  rewrite credit_deposit_fits by lia.
  rewrite IH; [reflexivity|].
  rewrite exec_pool, credit_deposit_fits by lia. lia.
Qed.

End PoolFacts.

(** C8: a deposit adds exactly its amount to the pool and nothing else
    changes the pool; after any interleaving of deposits with other calls
    the pool is the prior value plus the sum of the deposited amounts, and
    it never decreases. *)
Theorem reward_pool_is_sum_of_deposits :
  forall (verify : N -> bytes -> bytes -> bool) (s : State) (cs : list Call),
    totalRewardPool (run verify s cs) = totalRewardPool s + deposited verify s cs /\
    totalRewardPool s <= totalRewardPool (run verify s cs) /\
    (forall v s', depositRewardPool s v = Ok s' ->
                  totalRewardPool s' = totalRewardPool s + v) /\
    (forall v, totalRewardPool s + v <= uint256_max ->
               exists s', exec verify s (DepositRewardPool v) = (s', Success []) /\
                          totalRewardPool s' = totalRewardPool s + v) /\
    (forall c, (forall v, c <> DepositRewardPool v) ->
               totalRewardPool (fst (exec verify s c)) = totalRewardPool s) /\
    (totalRewardPool s + sum_N (deposit_amounts cs) <= uint256_max ->
     totalRewardPool (run verify s cs) =
     totalRewardPool s + sum_N (deposit_amounts cs)).
Proof.
  intros verify s cs.
  split; [apply run_pool|].
  split; [rewrite run_pool; lia|].
  split.
  { intros v s' H. apply depositRewardPool_Ok in H as [_ ->]. reflexivity. }
  split.
  { intros v Hle.
    exists (emit (RewardPoolDeposited v) (set_totalRewardPool (totalRewardPool s + v) s)).
    split; [|reflexivity].
    unfold exec, depositRewardPool. rewrite (checked_add_fits _ _ _ Hle). reflexivity. }
  split.
  { intros c Hc. rewrite exec_pool, credit_other by exact Hc. lia. }
  intros Hle. rewrite run_pool, deposited_all by exact Hle. reflexivity.
Qed.

(** ** The ciphertext store *)

Lemma recorded_ids_snoc (log : list Event) (e : Event) :
  recorded_ids (log ++ [e]) =
  recorded_ids log ++ match e with
                      | ContributionRecorded i _ _ => [i]
                      | _ => []
                      end.
Proof. unfold recorded_ids. rewrite omap_app. destruct e; reflexivity. Qed.

Lemma ids_upto_succ (n : N) :
  N.of_nat <$> seq 1 (N.to_nat (n + 1)) =
  (N.of_nat <$> seq 1 (N.to_nat n)) ++ [n + 1].
Proof.
  replace (N.to_nat (n + 1)) with (S (N.to_nat n)) by lia.
  rewrite seq_S, fmap_app. simpl. f_equal. f_equal. lia.
Qed.

Lemma ids_upto_NoDup (a n : nat) : NoDup (N.of_nat <$> seq a n).
Proof.
  apply NoDup_fmap_2; [|apply NoDup_seq].
  intros x y Hxy. apply Nat2N.inj, Hxy.
Qed.

Lemma ids_upto_sorted (n : nat) :
  forall a, StronglySorted N.lt (N.of_nat <$> seq a n).
Proof.
  induction n as [|n IH]; intros a; simpl; constructor.
  - apply IH.
  - apply Forall_forall. intros x Hx.
    apply list_elem_of_fmap in Hx as (y & -> & Hy).
    apply list_elem_of_In, in_seq in Hy. lia.
Qed.

Section StoreFacts.

Variable verify : N -> bytes -> bytes -> bool.

(** Only a submission touches the store, its counter or the announced ids. *)
Lemma exec_store_frame (s : State) (c : Call) :
  (forall ch dq mi h ts, c <> SubmitEncryptedContribution ch dq mi h ts) ->
  contributions (fst (exec verify s c)) = contributions s /\
  contributionCount (fst (exec verify s c)) = contributionCount s /\
  recorded_ids (events (fst (exec verify s c))) = recorded_ids (events s).
Proof.
  intros Hc.
  destruct c as [v | ch dq mi h ts | cid | rid ct pf | key | rid ct pf | cid];
    unfold exec.
  - destruct (depositRewardPool s v) as [s'|e] eqn:H; simpl; [|auto].
    apply depositRewardPool_Ok in H as [_ ->]. simpl.
    rewrite recorded_ids_snoc, app_nil_r. auto.
  - exfalso. apply (Hc ch dq mi h ts). reflexivity.
  - simpl. rewrite recorded_ids_snoc, app_nil_r. auto.
  - destruct (processRoyaltyCalculation _ _ _ _ _) as [s'|e] eqn:H; simpl; [|auto].
    apply (processRoyaltyCalculation_Ok verify) in H
      as (? & ? & ? & _ & _ & _ & _ & _ & _ & ->).
    simpl. rewrite recorded_ids_snoc, app_nil_r. auto.
  - destruct (claimRoyalty s key) as [s'|e] eqn:H; simpl; [|auto].
    apply claimRoyalty_Ok in H as [_ ->]. simpl. auto.
  - destruct (processRoyaltyPayment _ _ _ _ _) as [s'|e] eqn:H; simpl; [|auto].
    apply (processRoyaltyPayment_Ok verify) in H as (? & _ & _ & _ & _ & ->).
    simpl. auto.
  - destruct (getDecryptedRoyalty s cid) as [[? ?] ?]. simpl. auto.
Qed.

Lemma exec_ids_wf (s : State) (c : Call) :
  ids_wf s -> ids_wf (fst (exec verify s c)).
Proof.
  intros [Hkeys Hlog].
  destruct c as [v | ch dq mi h ts | cid | rid ct pf | key | rid ct pf | cid];
    try (match goal with
         | |- context [exec verify s ?c] =>
             destruct (exec_store_frame s c) as (Hc & Hn & Hr);
             [intros; discriminate|]
         end;
         unfold ids_wf; rewrite Hc, Hn, Hr; split; assumption).
  unfold exec.
  destruct (submitEncryptedContribution _ _ _ _ _ _) as [s'|e] eqn:H; simpl;
    [|split; assumption].
  apply submitEncryptedContribution_Ok in H as [_ ->].
  split; simpl.
  - intros k r Hk.
    destruct (decide (contributionCount s + 1 = k)) as [<-|Hne].
    + rewrite lookup_insert_eq in Hk. injection Hk as <-. simpl. split; [lia | reflexivity].
    + rewrite lookup_insert_ne in Hk by exact Hne.
      apply Hkeys in Hk. split; [lia | apply Hk].
  - rewrite recorded_ids_snoc, Hlog, ids_upto_succ. reflexivity.
Qed.

Lemma exec_contributions_kept (s : State) (c : Call) (k : N) (r : EncryptedContribution) :
  ids_wf s -> contributions s !! k = Some r ->
  contributions (fst (exec verify s c)) !! k = Some r.
Proof.
  intros [Hkeys _] Hk.
  destruct c as [v | ch dq mi h ts | cid | rid ct pf | key | rid ct pf | cid];
    try (match goal with
         | |- context [exec verify s ?c] =>
             destruct (exec_store_frame s c) as (Hc & _ & _);
             [intros; discriminate|]
         end;
         rewrite Hc; exact Hk).
  unfold exec.
  destruct (submitEncryptedContribution _ _ _ _ _ _) as [s'|e] eqn:H; simpl;
    [|exact Hk].
  apply submitEncryptedContribution_Ok in H as [_ ->]. simpl.
  rewrite lookup_insert_ne; [exact Hk|].
  apply Hkeys in Hk. lia.
Qed.

Lemma deployed_ids_wf : ids_wf deployed.
Proof.
  split; [|reflexivity]. intros k r Hk. simpl in Hk.
  rewrite lookup_empty in Hk. discriminate.
Qed.

Lemma run_ids_wf (cs : list Call) :
  forall s, ids_wf s -> ids_wf (run verify s cs).
Proof.
  induction cs as [|c cs IH]; intros s Hs; [exact Hs|].
  simpl. apply IH, exec_ids_wf, Hs.
Qed.

Lemma run_contributions_kept (cs : list Call) :
  forall s k r, ids_wf s -> contributions s !! k = Some r ->
                contributions (run verify s cs) !! k = Some r.
Proof.
  induction cs as [|c cs IH]; intros s k r Hs Hk; [exact Hk|].
  simpl. apply IH; [apply exec_ids_wf, Hs | apply exec_contributions_kept; assumption].
Qed.

End StoreFacts.

(** C7 (as the code has it): every submission takes the next id, starting
    from 1, stores the record verbatim under it and announces the id in
    ContributionRecorded; the function itself returns no value.  The
    announced ids are 1, 2, ... in order, hence unique and strictly
    increasing, and a stored record is never changed or removed. *)
Theorem contribution_ids_sequential :
  forall (verify : N -> bytes -> bytes -> bool) (cs : list Call),
    let s := run verify deployed cs in
    recorded_ids (events s) = N.of_nat <$> seq 1 (N.to_nat (contributionCount s)) /\
    StronglySorted N.lt (recorded_ids (events s)) /\
    NoDup (recorded_ids (events s)) /\
    (forall k r, contributions s !! k = Some r ->
                 1 <= k <= contributionCount s /\ id r = k) /\
    (forall ch dq mi h ts,
       contributionCount s + 1 <= uint256_max ->
       exists s',
         exec verify s (SubmitEncryptedContribution ch dq mi h ts) = (s', Success []) /\
         contributionCount s' = contributionCount s + 1 /\
         contributions s' !! (contributionCount s + 1) =
           Some {| id := contributionCount s + 1;
                   encryptedComputeHours := ch; encryptedDataQuality := dq;
                   encryptedModelImpact := mi; timestamp := ts;
                   contributorHash := h |} /\
         events s' = events s ++ [ContributionRecorded (contributionCount s + 1) h ts]) /\
    (forall k r cs',
       contributions s !! k = Some r ->
       contributions (run verify s cs') !! k = Some r).
Proof.
  intros verify cs s.
  pose proof (run_ids_wf verify cs deployed (deployed_ids_wf)) as Hwf.
  fold s in Hwf. destruct Hwf as [Hkeys Hlog].
  split; [exact Hlog|].
  split; [rewrite Hlog; apply ids_upto_sorted|].
  split; [rewrite Hlog; apply ids_upto_NoDup|].
  split; [exact Hkeys|].
  split.
  - intros ch dq mi h ts Hle. eexists. split.
    + unfold exec, submitEncryptedContribution.
      rewrite (checked_add_fits _ _ _ Hle). reflexivity.
    + simpl. split; [reflexivity|]. split; [apply lookup_insert_eq | reflexivity].
  - intros k r cs' Hk. apply run_contributions_kept; [|exact Hk].
    split; assumption.
Qed.

(** ** Requests, callbacks and the claimed flag *)

Lemma claimed_calculation_result (s : State) (cid share key : N) :
  claimed (calculation_result s cid share) key =
  if decide (contributorHash (contributions_at s cid) = key) then false
  else claimed s key.
Proof.
  unfold claimed, royaltyDistributions_at, calculation_result. simpl.
  rewrite lookup_insert. destruct (decide _); reflexivity.
Qed.

Lemma claimed_payment_result (s : State) (k key : N) :
  claimed (payment_result s k) key =
  if decide (k = key) then true else claimed s key.
Proof.
  unfold claimed, royaltyDistributions_at, payment_result. simpl.
  rewrite lookup_insert. destruct (decide _); reflexivity.
Qed.

Lemma claimed_claim_result (s : State) (k key : N) :
  claimed (claim_result s k) key = claimed s key.
Proof. reflexivity. Qed.

Lemma registry_claim_result (s : State) (k rid : N) :
  requestToContributorHash_at (claim_result s k) rid =
  if decide (counterRequest s = rid) then k else requestToContributorHash_at s rid.
Proof.
  unfold requestToContributorHash_at, claim_result. simpl.
  rewrite lookup_insert. destruct (decide _); reflexivity.
Qed.

Lemma registry_payment_result (s : State) (k rid : N) :
  requestToContributorHash_at (payment_result s k) rid = requestToContributorHash_at s rid.
Proof. reflexivity. Qed.

Section FlagFacts.

Variable verify : N -> bytes -> bytes -> bool.

Lemma exec_claim_ok (s : State) (key : N) :
  claimed s key = false ->
  exec verify s (ClaimRoyalty key) = (claim_result s key, Success []).
Proof.
  intros Hcl. unfold exec.
  rewrite (proj2 (claimRoyalty_Ok s key (claim_result s key))); [reflexivity|].
  split; [exact Hcl | reflexivity].
Qed.

Lemma exec_claim_rejected (s : State) (key : N) :
  claimed s key = true ->
  exec verify s (ClaimRoyalty key) = (s, Reverted (Require_failed "Already claimed")).
Proof.
  intros Hcl. unfold exec, claimRoyalty. cbv zeta.
  unfold claimed in Hcl. rewrite Hcl. reflexivity.
Qed.

Lemma exec_payment_ok (s : State) (rid : N) (ct pf : bytes) (amount : N) :
  requestToContributorHash_at s rid <> 0 ->
  claimed s (requestToContributorHash_at s rid) = false ->
  verify rid ct pf = true ->
  abi_decode_uint32 ct = Ok amount ->
  exec verify s (ProcessRoyaltyPayment rid ct pf) =
  (payment_result s (requestToContributorHash_at s rid), Success []).
Proof.
  intros Hid Hcl Hv Hdec. unfold exec.
  rewrite (proj2 (processRoyaltyPayment_Ok verify s rid ct pf
                    (payment_result s (requestToContributorHash_at s rid))));
    [reflexivity|].
  exists amount. repeat split; assumption.
Qed.

Lemma exec_payment_rejected (s : State) (rid : N) (ct pf : bytes) :
  requestToContributorHash_at s rid <> 0 ->
  claimed s (requestToContributorHash_at s rid) = true ->
  exec verify s (ProcessRoyaltyPayment rid ct pf) =
  (s, Reverted (Require_failed "Already processed")).
Proof.
  intros Hid Hcl. unfold exec.
  rewrite (processRoyaltyPayment_claimed verify s rid ct pf Hid Hcl). reflexivity.
Qed.

(** Once set, the flag stays set. *)
Lemma exec_claimed_stays (s : State) (c : Call) (key : N) :
  claimed s key = true -> claimed (fst (exec verify s c)) key = true.
Proof.
  intros Hcl.
  destruct c as [v | ch dq mi h ts | cid | rid ct pf | k | rid ct pf | cid];
    unfold exec.
  - destruct (depositRewardPool s v) as [s'|e] eqn:H; simpl; [|exact Hcl].
    apply depositRewardPool_Ok in H as [_ ->]. exact Hcl.
  - destruct (submitEncryptedContribution _ _ _ _ _ _) as [s'|e] eqn:H; simpl;
      [|exact Hcl].
    apply submitEncryptedContribution_Ok in H as [_ ->]. exact Hcl.
  - exact Hcl.
  - destruct (processRoyaltyCalculation _ _ _ _ _) as [s'|e] eqn:H; simpl; [|exact Hcl].
    apply (processRoyaltyCalculation_Ok verify) in H
      as (? & ? & ? & _ & Hfree & _ & _ & _ & _ & ->).
    rewrite claimed_calculation_result.
    destruct (decide _) as [Heq|_]; [|exact Hcl].
    rewrite Heq in Hfree. congruence.
  - destruct (claimRoyalty s k) as [s'|e] eqn:H; simpl; [|exact Hcl].
    apply claimRoyalty_Ok in H as [_ ->]. exact Hcl.
  - destruct (processRoyaltyPayment _ _ _ _ _) as [s'|e] eqn:H; simpl; [|exact Hcl].
    apply (processRoyaltyPayment_Ok verify) in H as (? & _ & _ & _ & _ & ->).
    fold (payment_result s (requestToContributorHash_at s rid)).
    rewrite claimed_payment_result. destruct (decide _); [reflexivity | exact Hcl].
  - destruct (getDecryptedRoyalty s cid) as [[? ?] ?]. exact Hcl.
Qed.

(** Only a claim callback registered for the key sets the flag. *)
Lemma exec_claimed_set (s : State) (c : Call) (key : N) :
  claimed s key = false -> claimed (fst (exec verify s c)) key = true ->
  exists rid ct pf,
    c = ProcessRoyaltyPayment rid ct pf /\ requestToContributorHash_at s rid = key.
Proof.
  intros Hcl Hset.
  destruct c as [v | ch dq mi h ts | cid | rid ct pf | k | rid ct pf | cid];
    unfold exec in Hset.
  - destruct (depositRewardPool s v) as [s'|e] eqn:H; simpl in Hset; [|congruence].
    apply depositRewardPool_Ok in H as [_ ->].
    change (claimed s key = true) in Hset. congruence.
  - destruct (submitEncryptedContribution _ _ _ _ _ _) as [s'|e] eqn:H; simpl in Hset;
      [|congruence].
    apply submitEncryptedContribution_Ok in H as [_ ->].
    change (claimed s key = true) in Hset. congruence.
  - change (claimed s key = true) in Hset. congruence.
  - destruct (processRoyaltyCalculation _ _ _ _ _) as [s'|e] eqn:H; simpl in Hset;
      [|congruence].
    apply (processRoyaltyCalculation_Ok verify) in H
      as (? & ? & ? & _ & _ & _ & _ & _ & _ & ->).
    rewrite claimed_calculation_result in Hset.
    destruct (decide _); congruence.
  - destruct (claimRoyalty s k) as [s'|e] eqn:H; simpl in Hset; [|congruence].
    apply claimRoyalty_Ok in H as [_ ->].
    change (claimed s key = true) in Hset. congruence.
  - destruct (processRoyaltyPayment _ _ _ _ _) as [s'|e] eqn:H; simpl in Hset;
      [|congruence].
    apply (processRoyaltyPayment_Ok verify) in H as (? & _ & _ & _ & _ & ->).
    fold (payment_result s (requestToContributorHash_at s rid)) in Hset.
    rewrite claimed_payment_result in Hset.
    destruct (decide _) as [Heq|]; [|congruence].
    exists rid, ct, pf. split; [reflexivity | exact Heq].
  - destruct (getDecryptedRoyalty s cid) as [[? ?] ?]. simpl in Hset. congruence.
Qed.

(** Two claim requests for one key, then their two callbacks. *)
Lemma two_claims_first_then_second (s : State) (key : N)
    (ct1 pf1 ct2 pf2 : bytes) (a1 a2 : N) :
  key <> 0 -> claimed s key = false ->
  verify (counterRequest s) ct1 pf1 = true ->
  verify (counterRequest s + 1) ct2 pf2 = true ->
  abi_decode_uint32 ct1 = Ok a1 -> abi_decode_uint32 ct2 = Ok a2 ->
  outcomes verify s
    [ClaimRoyalty key; ClaimRoyalty key;
     ProcessRoyaltyPayment (counterRequest s) ct1 pf1;
     ProcessRoyaltyPayment (counterRequest s + 1) ct2 pf2] =
  [Success []; Success []; Success [];
   Reverted (Require_failed "Already processed")].
Proof.
  intros Hkey Hcl Hv1 Hv2 Hd1 Hd2.
  set (s1 := claim_result s key).
  set (s2 := claim_result s1 key).
  assert (Hr1 : requestToContributorHash_at s2 (counterRequest s) = key).
  { unfold s2. rewrite registry_claim_result.
    destruct (decide _); [reflexivity|].
    unfold s1. rewrite registry_claim_result.
    destruct (decide _); [reflexivity | congruence]. }
  assert (Hr2 : requestToContributorHash_at s2 (counterRequest s + 1) = key).
  { unfold s2. rewrite registry_claim_result.
    destruct (decide _) as [|Hne]; [reflexivity|].
    exfalso. apply Hne. reflexivity. }
  unfold outcomes.
  rewrite (exec_claim_ok s key Hcl). cbn [fst snd]. fold s1.
  rewrite (exec_claim_ok s1 key Hcl). cbn [fst snd]. fold s2.
  rewrite (exec_payment_ok s2 (counterRequest s) ct1 pf1 a1);
    [| rewrite Hr1; assumption ..| assumption | assumption].
  cbn [fst snd]. rewrite Hr1.
  rewrite (exec_payment_rejected (payment_result s2 key));
    [reflexivity | rewrite registry_payment_result, Hr2; exact Hkey |].
  rewrite registry_payment_result, Hr2, claimed_payment_result.
  destruct (decide _); [reflexivity | congruence].
Qed.

Lemma two_claims_second_then_first (s : State) (key : N)
    (ct1 pf1 ct2 pf2 : bytes) (a1 a2 : N) :
  key <> 0 -> claimed s key = false ->
  verify (counterRequest s) ct1 pf1 = true ->
  verify (counterRequest s + 1) ct2 pf2 = true ->
  abi_decode_uint32 ct1 = Ok a1 -> abi_decode_uint32 ct2 = Ok a2 ->
  outcomes verify s
    [ClaimRoyalty key; ClaimRoyalty key;
     ProcessRoyaltyPayment (counterRequest s + 1) ct2 pf2;
     ProcessRoyaltyPayment (counterRequest s) ct1 pf1] =
  [Success []; Success []; Success [];
   Reverted (Require_failed "Already processed")].
Proof.
  intros Hkey Hcl Hv1 Hv2 Hd1 Hd2.
  set (s1 := claim_result s key).
  set (s2 := claim_result s1 key).
  assert (Hr1 : requestToContributorHash_at s2 (counterRequest s) = key).
  { unfold s2. rewrite registry_claim_result.
    destruct (decide _); [reflexivity|].
    unfold s1. rewrite registry_claim_result.
    destruct (decide _); [reflexivity | congruence]. }
  assert (Hr2 : requestToContributorHash_at s2 (counterRequest s + 1) = key).
  { unfold s2. rewrite registry_claim_result.
    destruct (decide _) as [|Hne]; [reflexivity|].
    exfalso. apply Hne. reflexivity. }
  unfold outcomes.
  rewrite (exec_claim_ok s key Hcl). cbn [fst snd]. fold s1.
  rewrite (exec_claim_ok s1 key Hcl). cbn [fst snd]. fold s2.
  rewrite (exec_payment_ok s2 (counterRequest s + 1) ct2 pf2 a2);
    [| rewrite Hr2; assumption ..| assumption | assumption].
  cbn [fst snd]. rewrite Hr2.
  rewrite (exec_payment_rejected (payment_result s2 key));
    [reflexivity | rewrite registry_payment_result, Hr1; exact Hkey |].
  rewrite registry_payment_result, Hr1, claimed_payment_result.
  destruct (decide _); [reflexivity | congruence].
Qed.

(** A claim request that arrives after the settlement is turned away. *)
Lemma claim_after_settlement (s : State) (key : N) (ct1 pf1 : bytes) (a1 : N) :
  key <> 0 -> claimed s key = false ->
  verify (counterRequest s) ct1 pf1 = true ->
  abi_decode_uint32 ct1 = Ok a1 ->
  outcomes verify s
    [ClaimRoyalty key; ProcessRoyaltyPayment (counterRequest s) ct1 pf1;
     ClaimRoyalty key] =
  [Success []; Success []; Reverted (Require_failed "Already claimed")].
Proof.
  intros Hkey Hcl Hv1 Hd1.
  set (s1 := claim_result s key).
  assert (Hr1 : requestToContributorHash_at s1 (counterRequest s) = key).
  { unfold s1. rewrite registry_claim_result.
    destruct (decide _); [reflexivity | congruence]. }
  unfold outcomes.
  rewrite (exec_claim_ok s key Hcl). cbn [fst snd]. fold s1.
  rewrite (exec_payment_ok s1 (counterRequest s) ct1 pf1 a1);
    [| rewrite Hr1; assumption ..| assumption | assumption].
  cbn [fst snd]. rewrite Hr1.
  rewrite (exec_claim_rejected (payment_result s1 key)); [reflexivity|].
  rewrite claimed_payment_result.
  destruct (decide _); [reflexivity | congruence].
Qed.

End FlagFacts.

(** C1 (as the code has it): a callback whose requestId has no registry
    entry fails with "Invalid request" and changes nothing.  A processed
    callback leaves both registries as they were: the entry is not removed,
    a calculation callback that went through goes through again when it is
    replayed, and a replayed claim callback is stopped by the claimed flag
    ("Already processed"), not by the registry. *)
Theorem unknown_request_rejected_entry_kept :
  forall (verify : N -> bytes -> bytes -> bool) (s : State) (rid : N) (ct pf : bytes),
    (requestToContributionId s !! rid = None ->
     exec verify s (ProcessRoyaltyCalculation rid ct pf) =
     (s, Reverted (Require_failed "Invalid request"))) /\
    (requestToContributorHash s !! rid = None ->
     exec verify s (ProcessRoyaltyPayment rid ct pf) =
     (s, Reverted (Require_failed "Invalid request"))) /\
    (requestToContributionId (fst (exec verify s (ProcessRoyaltyCalculation rid ct pf))) =
       requestToContributionId s /\
     requestToContributorHash (fst (exec verify s (ProcessRoyaltyCalculation rid ct pf))) =
       requestToContributorHash s /\
     requestToContributionId (fst (exec verify s (ProcessRoyaltyPayment rid ct pf))) =
       requestToContributionId s /\
     requestToContributorHash (fst (exec verify s (ProcessRoyaltyPayment rid ct pf))) =
       requestToContributorHash s) /\
    (forall s', processRoyaltyCalculation verify s rid ct pf = Ok s' ->
                exists s'', processRoyaltyCalculation verify s' rid ct pf = Ok s'') /\
    (forall s', processRoyaltyPayment verify s rid ct pf = Ok s' ->
                exec verify s' (ProcessRoyaltyPayment rid ct pf) =
                (s', Reverted (Require_failed "Already processed"))).
Proof.
  intros verify s rid ct pf.
  split; [|split; [|split; [|split]]].
  - intros Hnone. unfold exec.
    rewrite processRoyaltyCalculation_unknown; [reflexivity|].
    unfold requestToContributionId_at. rewrite Hnone. reflexivity.
  - intros Hnone. unfold exec.
    rewrite processRoyaltyPayment_unknown; [reflexivity|].
    unfold requestToContributorHash_at. rewrite Hnone. reflexivity.
  - unfold exec.
    destruct (processRoyaltyCalculation verify s rid ct pf) as [s1|e1] eqn:H1;
      destruct (processRoyaltyPayment verify s rid ct pf) as [s2|e2] eqn:H2; simpl;
      try (apply processRoyaltyCalculation_Ok in H1
             as (? & ? & ? & _ & _ & _ & _ & _ & _ & ->));
      try (apply processRoyaltyPayment_Ok in H2 as (? & _ & _ & _ & _ & ->));
      repeat split.
  - intros s' H.
    apply processRoyaltyCalculation_Ok in H
      as (ch & dq & mi & Hid & Hcl & Hv & Hdec & Hsum & Hmul & ->).
    eexists. apply processRoyaltyCalculation_Ok.
    exists ch, dq, mi.
    split; [exact Hid|]. split.
    + rewrite claimed_calculation_result.
      destruct (decide _) as [|Hne]; [reflexivity|].
      exfalso. apply Hne. reflexivity.
    + repeat split; assumption.
  - intros s' H.
    apply processRoyaltyPayment_Ok in H as (amount & Hid & Hcl & Hv & Hdec & ->).
    fold (payment_result s (requestToContributorHash_at s rid)).
    apply exec_payment_rejected.
    + rewrite registry_payment_result. exact Hid.
    + rewrite registry_payment_result, claimed_payment_result.
      destruct (decide _) as [|Hne]; [reflexivity|].
      exfalso. apply Hne. reflexivity.
Qed.

(** C2 (as the code has it): the calculation callback is guarded by the
    claimed flag of the Distribution stored for the contribution's
    contributorKey.  With the flag set it fails with "Already processed" and
    changes nothing; with the flag clear it goes through whether or not a
    Distribution is already stored for the key, and puts the newly computed
    Distribution (claimed = false) in its place. *)
Theorem calculation_guard_is_claimed_flag :
  forall (verify : N -> bytes -> bytes -> bool) (s : State) (rid : N) (ct pf : bytes),
    let cid := requestToContributionId_at s rid in
    let key := contributorHash (contributions_at s cid) in
    cid <> 0 ->
    (claimed s key = true ->
     exec verify s (ProcessRoyaltyCalculation rid ct pf) =
     (s, Reverted (Require_failed "Already processed"))) /\
    (forall s', processRoyaltyCalculation verify s rid ct pf = Ok s' ->
       claimed s key = false /\
       exists share,
         royaltyDistributions s' =
         <[key := {| encryptedShare := Some share;
                     encryptedPaymentAmount :=
                       Some ((totalRewardPool s * share / 10000) mod 2 ^ 32);
                     isClaimed := Some false |}]> (royaltyDistributions s)) /\
    (forall ch dq mi,
       claimed s key = false -> verify rid ct pf = true ->
       abi_decode_uint32x3 ct = Ok (ch, dq, mi) ->
       weighted_sum ch dq mi <= uint32_max ->
       totalRewardPool s * spec_share ch dq mi <= uint256_max ->
       exec verify s (ProcessRoyaltyCalculation rid ct pf) =
       (calculation_result s cid (spec_share ch dq mi), Success [])).
Proof.
  intros verify s rid ct pf cid key Hid.
  split; [|split].
  - intros Hcl. unfold exec.
    rewrite (processRoyaltyCalculation_claimed verify s rid ct pf Hid Hcl). reflexivity.
  - intros s' H.
    apply processRoyaltyCalculation_Ok in H
      as (ch & dq & mi & _ & Hcl & _ & _ & _ & _ & ->).
    split; [exact Hcl|]. exists (spec_share ch dq mi). reflexivity.
  - intros ch dq mi Hcl Hv Hdec Hsum Hmul. unfold exec.
    rewrite (proj2 (processRoyaltyCalculation_Ok verify s rid ct pf
                      (calculation_result s cid (spec_share ch dq mi))));
      [reflexivity|].
    exists ch, dq, mi. repeat split; assumption.
Qed.

(** C3 (as the code has it): calculateRoyaltyShare has no precondition.  For
    every contributionId, whether or not a contribution is stored under it
    and whether or not a Distribution exists for its contributorKey, it
    succeeds, hands the oracle one request for the three stored metric
    handles and records requestId -> contributionId. *)
Theorem calculateRoyaltyShare_unguarded :
  forall (s : State) (contributionId : N),
    exists s',
      calculateRoyaltyShare s contributionId = Ok s' /\
      requestToContributionId s' =
        <[counterRequest s := contributionId]> (requestToContributionId s) /\
      decryptionRequests s' =
        decryptionRequests s ++
        [{| requestID := counterRequest s;
            ctsHandles :=
              [encryptedComputeHours (contributions_at s contributionId);
               encryptedDataQuality (contributions_at s contributionId);
               encryptedModelImpact (contributions_at s contributionId)];
            callbackSelector := processRoyaltyCalculation_selector |}] /\
      counterRequest s' = counterRequest s + 1 /\
      events s' = events s ++ [RoyaltyCalculationRequested contributionId] /\
      royaltyDistributions s' = royaltyDistributions s /\
      decryptedRoyalties s' = decryptedRoyalties s /\
      contributions s' = contributions s /\
      totalRewardPool s' = totalRewardPool s.
Proof.
  intros s contributionId. eexists. split; [reflexivity|].
  simpl. repeat split.
Qed.

(** C4 (as the code has it): claimRoyalty looks at the claimed flag only.
    With the flag set it fails with "Already claimed", issues no request and
    writes no registry entry; with the flag clear it succeeds, also for a
    key no Distribution was ever written for, whose flag reads as false. *)
Theorem claimRoyalty_checks_claimed_flag_only :
  forall (verify : N -> bytes -> bytes -> bool) (s : State) (key : N),
    (claimed s key = true ->
     exec verify s (ClaimRoyalty key) =
     (s, Reverted (Require_failed "Already claimed"))) /\
    (claimed s key = false ->
     exists s',
       exec verify s (ClaimRoyalty key) = (s', Success []) /\
       decryptionRequests s' =
         decryptionRequests s ++
         [{| requestID := counterRequest s;
             ctsHandles := [encryptedPaymentAmount (royaltyDistributions_at s key)];
             callbackSelector := processRoyaltyPayment_selector |}] /\
       requestToContributorHash s' =
         <[counterRequest s := key]> (requestToContributorHash s)) /\
    (royaltyDistributions s !! key = None -> claimed s key = false).
Proof.
  intros verify s key. split; [|split].
  - apply exec_claim_rejected.
  - intros Hcl. exists (claim_result s key).
    split; [apply exec_claim_ok, Hcl|]. split; reflexivity.
  - intros Hnone. unfold claimed, royaltyDistributions_at. rewrite Hnone. reflexivity.
Qed.

(** C6 (as the code has it): the claimed flag, once true, stays true under
    every operation; it turns true only in a claim callback registered for
    the key, which first checks that it is still false and fails with
    "Already processed" otherwise.  For a non-zero contributorKey, two claim
    requests followed by their two attested callbacks, in either order, give
    one settlement and one "Already processed" rejection; a second request
    that comes after the settlement is rejected with "Already claimed". *)
Theorem claimed_flag_set_once :
  forall (verify : N -> bytes -> bytes -> bool) (s : State) (key : N),
    (forall c, claimed s key = true -> claimed (fst (exec verify s c)) key = true) /\
    (forall c, claimed s key = false -> claimed (fst (exec verify s c)) key = true ->
       exists rid ct pf,
         c = ProcessRoyaltyPayment rid ct pf /\ requestToContributorHash_at s rid = key) /\
    (forall rid ct pf,
       requestToContributorHash_at s rid = key -> key <> 0 -> claimed s key = true ->
       exec verify s (ProcessRoyaltyPayment rid ct pf) =
       (s, Reverted (Require_failed "Already processed"))) /\
    (forall ct1 pf1 ct2 pf2 a1 a2,
       key <> 0 -> claimed s key = false ->
       verify (counterRequest s) ct1 pf1 = true ->
       verify (counterRequest s + 1) ct2 pf2 = true ->
       abi_decode_uint32 ct1 = Ok a1 -> abi_decode_uint32 ct2 = Ok a2 ->
       outcomes verify s
         [ClaimRoyalty key; ClaimRoyalty key;
          ProcessRoyaltyPayment (counterRequest s) ct1 pf1;
          ProcessRoyaltyPayment (counterRequest s + 1) ct2 pf2] =
       [Success []; Success []; Success [];
        Reverted (Require_failed "Already processed")] /\
       outcomes verify s
         [ClaimRoyalty key; ClaimRoyalty key;
          ProcessRoyaltyPayment (counterRequest s + 1) ct2 pf2;
          ProcessRoyaltyPayment (counterRequest s) ct1 pf1] =
       [Success []; Success []; Success [];
        Reverted (Require_failed "Already processed")] /\
       outcomes verify s
         [ClaimRoyalty key; ProcessRoyaltyPayment (counterRequest s) ct1 pf1;
          ClaimRoyalty key] =
       [Success []; Success []; Reverted (Require_failed "Already claimed")]).
Proof.
  intros verify s key. split; [|split; [|split]].
  - intros c. apply exec_claimed_stays.
  - intros c. apply exec_claimed_set.
  - intros rid ct pf Hreg Hkey Hcl. apply exec_payment_rejected; rewrite Hreg; assumption.
  - intros ct1 pf1 ct2 pf2 a1 a2 Hkey Hcl Hv1 Hv2 Hd1 Hd2. split; [|split].
    + apply (two_claims_first_then_second verify s key ct1 pf1 ct2 pf2 a1 a2); assumption.
    + apply (two_claims_second_then_first verify s key ct1 pf1 ct2 pf2 a1 a2); assumption.
    + apply (claim_after_settlement verify s key ct1 pf1 a1); assumption.
Qed.

(** ** The claims on concrete runs *)

(** C1, counterexample: request 0 was consumed by a callback that went
    through; after one more deposit the same callback goes through once
    more and rewrites the Distribution and the audit record. *)
Lemma consumed_request_accepted_again :
  exec demo_verifier requested_state example_callback = (revealed_state, Success []) /\
  requestToContributionId revealed_state !! 0 = Some 1 /\
  royaltyDistributions revealed_state !! 7 =
    Some {| encryptedShare := Some 83; encryptedPaymentAmount := Some 8;
            isClaimed := Some false |} /\
  snd (exec demo_verifier revealed_state example_callback) = Success [] /\
  snd (exec demo_verifier
         (fst (exec demo_verifier revealed_state (DepositRewardPool 1000)))
         example_callback) = Success [] /\
  royaltyDistributions
    (run demo_verifier revealed_state [DepositRewardPool 1000; example_callback]) !! 7 =
    Some {| encryptedShare := Some 83; encryptedPaymentAmount := Some 16;
            isClaimed := Some false |} /\
  decryptedRoyalties
    (run demo_verifier revealed_state [DepositRewardPool 1000; example_callback]) !! 1 =
    Some {| sharePercentage := 83; paymentAmount := 16; isRevealed := true |}.
Proof. vm_compute. repeat split. Qed.

Lemma unknown_request_rejected_entry_kept_witness :
  requestToContributionId deployed !! 3 = None /\
  exec demo_verifier deployed (ProcessRoyaltyCalculation 3 example_cleartexts demo_proof) =
  (deployed, Reverted (Require_failed "Invalid request")).
Proof.
  split; [reflexivity|].
  apply (unknown_request_rejected_entry_kept demo_verifier deployed 3
           example_cleartexts demo_proof).
  reflexivity.
Defined.

(** C2, counterexample: contributor 7 already has a Distribution (share 83,
    payment 8); the callback for a second contribution of the same
    contributor goes through and the Distribution now reads share 10,
    payment 1. *)
Lemma second_calculation_overwrites_distribution :
  contributorHash (contributions_at shared_key_state 2) = 7 /\
  royaltyDistributions shared_key_state !! 7 =
    Some {| encryptedShare := Some 83; encryptedPaymentAmount := Some 8;
            isClaimed := Some false |} /\
  snd (exec demo_verifier shared_key_state
         (ProcessRoyaltyCalculation 1 (abi_encode [10; 10; 10]) demo_proof)) = Success [] /\
  royaltyDistributions
    (fst (exec demo_verifier shared_key_state
            (ProcessRoyaltyCalculation 1 (abi_encode [10; 10; 10]) demo_proof))) !! 7 =
    Some {| encryptedShare := Some 10; encryptedPaymentAmount := Some 1;
            isClaimed := Some false |}.
Proof. vm_compute. repeat split. Qed.

Lemma calculation_guard_is_claimed_flag_witness :
  requestToContributionId_at shared_key_state 1 <> 0 /\
  exec demo_verifier shared_key_state
    (ProcessRoyaltyCalculation 1 (abi_encode [10; 10; 10]) demo_proof) =
  (calculation_result shared_key_state 2 10, Success []).
Proof.
  assert (Hid : requestToContributionId_at shared_key_state 1 <> 0)
    by (vm_compute; discriminate).
  split; [exact Hid|].
  destruct (calculation_guard_is_claimed_flag demo_verifier shared_key_state 1
              (abi_encode [10; 10; 10]) demo_proof Hid) as (_ & _ & Haccept).
  rewrite (Haccept 10 10 10);
    [| reflexivity | reflexivity | reflexivity
     | vm_compute; discriminate | vm_compute; discriminate].
  vm_compute. reflexivity.
Defined.

(** C3, counterexample: contributor 7 already has a Distribution, and
    calculateRoyaltyShare for the contribution succeeds all the same,
    issues request 1 and registers it; it also succeeds for an id nothing
    was submitted under. *)
Lemma calculation_requested_for_distributed_key :
  contributorHash (contributions_at revealed_state 1) = 7 /\
  royaltyDistributions revealed_state !! 7 =
    Some {| encryptedShare := Some 83; encryptedPaymentAmount := Some 8;
            isClaimed := Some false |} /\
  snd (exec demo_verifier revealed_state (CalculateRoyaltyShare 1)) = Success [] /\
  requestToContributionId
    (fst (exec demo_verifier revealed_state (CalculateRoyaltyShare 1))) !! 1 = Some 1 /\
  decryptionRequests (fst (exec demo_verifier revealed_state (CalculateRoyaltyShare 1))) =
    decryptionRequests revealed_state ++
    [{| requestID := 1; ctsHandles := [Some 100; Some 80; Some 60];
        callbackSelector := processRoyaltyCalculation_selector |}] /\
  contributions deployed !! 9 = None /\
  snd (exec demo_verifier deployed (CalculateRoyaltyShare 9)) = Success [].
Proof. vm_compute. repeat split. Qed.

(** C4, counterexample: nothing was ever written for key 5, and claimRoyalty
    succeeds, issues a request for the never-assigned payment handle and
    registers it. *)
Lemma claim_without_distribution_accepted :
  royaltyDistributions deployed !! 5 = None /\
  snd (exec demo_verifier deployed (ClaimRoyalty 5)) = Success [] /\
  decryptionRequests (fst (exec demo_verifier deployed (ClaimRoyalty 5))) =
    [{| requestID := 0; ctsHandles := [None];
        callbackSelector := processRoyaltyPayment_selector |}] /\
  requestToContributorHash (fst (exec demo_verifier deployed (ClaimRoyalty 5))) !! 0 =
    Some 5.
Proof. vm_compute. repeat split. Qed.

Lemma claimRoyalty_checks_claimed_flag_only_witness :
  claimed settled_state 7 = true /\
  exec demo_verifier settled_state (ClaimRoyalty 7) =
  (settled_state, Reverted (Require_failed "Already claimed")).
Proof.
  split; [reflexivity|].
  apply (claimRoyalty_checks_claimed_flag_only demo_verifier settled_state 7).
  reflexivity.
Defined.

(** C6, counterexample: the contributor with the all-zero key has an
    unclaimed Distribution; both claim requests are accepted and both
    callbacks fail with "Invalid request": no settlement, no rejection for
    an earlier claim. *)
Lemma zero_key_claims_never_settle :
  royaltyDistributions zero_key_state !! 0 =
    Some {| encryptedShare := Some 83; encryptedPaymentAmount := Some 8;
            isClaimed := Some false |} /\
  outcomes demo_verifier zero_key_state
    [ClaimRoyalty 0; ClaimRoyalty 0;
     ProcessRoyaltyPayment 1 (abi_encode [8]) demo_proof;
     ProcessRoyaltyPayment 2 (abi_encode [8]) demo_proof] =
  [Success []; Success [];
   Reverted (Require_failed "Invalid request");
   Reverted (Require_failed "Invalid request")] /\
  claimed
    (run demo_verifier zero_key_state
       [ClaimRoyalty 0; ClaimRoyalty 0;
        ProcessRoyaltyPayment 1 (abi_encode [8]) demo_proof;
        ProcessRoyaltyPayment 2 (abi_encode [8]) demo_proof]) 0 = false.
Proof. vm_compute. repeat split. Qed.

Lemma claimed_flag_set_once_witness :
  claimed revealed_state 7 = false /\
  outcomes demo_verifier revealed_state
    [ClaimRoyalty 7; ClaimRoyalty 7;
     ProcessRoyaltyPayment 1 (abi_encode [8]) demo_proof;
     ProcessRoyaltyPayment 2 (abi_encode [8]) demo_proof] =
  [Success []; Success []; Success [];
   Reverted (Require_failed "Already processed")].
Proof.
  split; [reflexivity|].
  destruct (claimed_flag_set_once demo_verifier revealed_state 7)
    as (_ & _ & _ & Hpairs).
  destruct (Hpairs (abi_encode [8]) demo_proof (abi_encode [8]) demo_proof 8 8)
    as (Hfirst & _ & _);
    [discriminate | reflexivity | reflexivity | reflexivity | reflexivity
    | reflexivity |].
  exact Hfirst.
Defined.

(** C7, counterexample: the first submission is given id 1 and announces
    it in the log, but the call returns no data. *)
Lemma submission_returns_no_id :
  snd (exec demo_verifier deployed example_submission) = Success [] /\
  contributionCount (fst (exec demo_verifier deployed example_submission)) = 1 /\
  events (fst (exec demo_verifier deployed example_submission)) =
    [ContributionRecorded 1 7 1700000000] /\
  snd (exec demo_verifier deployed example_submission) <> Success [1].
Proof. vm_compute. repeat split. discriminate. Qed.

Lemma contribution_ids_sequential_witness :
  contributionCount (run demo_verifier deployed [example_submission]) + 1 <= uint256_max /\
  exists s',
    exec demo_verifier (run demo_verifier deployed [example_submission])
      (SubmitEncryptedContribution (Some 10) (Some 10) (Some 10) 7 1700000001) =
    (s', Success []) /\
    contributionCount s' = 2 /\
    events s' = [ContributionRecorded 1 7 1700000000; ContributionRecorded 2 7 1700000001].
Proof.
  split; [vm_compute; discriminate|].
  destruct (contribution_ids_sequential demo_verifier [example_submission])
    as (_ & _ & _ & _ & Hsubmit & _).
  destruct (Hsubmit (Some 10) (Some 10) (Some 10) 7 1700000001)
    as (s' & Hexec & Hcount & _ & Hlog); [vm_compute; discriminate|].
  exists s'. split; [exact Hexec|]. split; [exact Hcount | exact Hlog].
Defined.

Lemma reward_pool_is_sum_of_deposits_witness :
  totalRewardPool deployed +
    sum_N (deposit_amounts [DepositRewardPool 5; example_submission; DepositRewardPool 7])
    <= uint256_max /\
  totalRewardPool
    (run demo_verifier deployed
       [DepositRewardPool 5; example_submission; DepositRewardPool 7]) = 12.
Proof.
  split; [vm_compute; discriminate|].
  apply (reward_pool_is_sum_of_deposits demo_verifier deployed
           [DepositRewardPool 5; example_submission; DepositRewardPool 7]).
  vm_compute; discriminate.
Defined.

Lemma calculation_callback_formula_witness :
  abi_decode_uint32x3 example_cleartexts = Ok (100, 80, 60) /\
  exists s',
    processRoyaltyCalculation demo_verifier requested_state 0 example_cleartexts demo_proof =
    Ok s' /\
    getDecryptedRoyalty s' 1 = (83, 8, true).
Proof.
  split; [reflexivity|].
  destruct (calculation_callback_formula demo_verifier requested_state 0
              example_cleartexts demo_proof 100 80 60 eq_refl) as (Hval & Hrun & _).
  destruct Hrun as [s' Hs'];
    [vm_compute; discriminate | reflexivity | reflexivity
    | vm_compute; discriminate | vm_compute; discriminate |].
  exists s'. split; [exact Hs'|].
  apply Hval in Hs' as (_ & _ & Hget & _). exact Hget.
Defined.

Lemma share_overflow_aborts_callback_witness :
  abi_decode_uint32x3 (abi_encode [4294967295; 0; 0]) = Ok (4294967295, 0, 0) /\
  exec demo_verifier requested_state
    (ProcessRoyaltyCalculation 0 (abi_encode [4294967295; 0; 0]) demo_proof) =
  (requested_state, Reverted Panic_overflow).
Proof.
  split; [reflexivity|].
  destruct (share_overflow_aborts_callback demo_verifier requested_state 0
              (abi_encode [4294967295; 0; 0]) demo_proof 4294967295 0 0 eq_refl)
    as (Hover & _).
  destruct Hover as (_ & _ & Habort); [left; reflexivity|].
  apply Habort; [vm_compute; discriminate | reflexivity | reflexivity].
Defined.

(** * Further properties of the contract and its client *)

(** ** Every transaction, case by case *)

Section StepFacts.

Variable verify : N -> bytes -> bytes -> bool.

(** A call either reverts and leaves the state, or commits one of the steps. *)
Lemma exec_committed (s : State) (c : Call) :
  (exists e, exec verify s c = (s, Reverted e)) \/
  (exists ret, snd (exec verify s c) = Success ret /\
               committed verify s c (fst (exec verify s c))).
Proof.
  destruct c as [v | ch dq mi h ts | cid | rid ct pf | key | rid ct pf | cid];
    unfold exec.
  - destruct (depositRewardPool s v) as [s'|e] eqn:H; simpl; [right | left; eauto].
    apply depositRewardPool_Ok in H as [Hle ->].
    exists []. split; [reflexivity | constructor; exact Hle].
  - destruct (submitEncryptedContribution _ _ _ _ _ _) as [s'|e] eqn:H; simpl;
      [right | left; eauto].
    apply submitEncryptedContribution_Ok in H as [Hle ->].
    exists []. split; [reflexivity | constructor; exact Hle].
  - right. exists []. split; [reflexivity | apply committed_request].
  - destruct (processRoyaltyCalculation _ _ _ _ _) as [s'|e] eqn:H; simpl;
      [right | left; eauto].
    apply processRoyaltyCalculation_Ok in H
      as (ch & dq & mi & Hid & Hcl & Hv & Hdec & Hsum & Hmul & ->).
    exists []. split; [reflexivity | econstructor; eassumption].
  - destruct (claimRoyalty s key) as [s'|e] eqn:H; simpl; [right | left; eauto].
    apply claimRoyalty_Ok in H as [Hcl ->].
    exists []. split; [reflexivity | constructor; exact Hcl].
  - destruct (processRoyaltyPayment _ _ _ _ _) as [s'|e] eqn:H; simpl;
      [right | left; eauto].
    apply processRoyaltyPayment_Ok in H as (amount & Hid & Hcl & Hv & Hdec & ->).
    exists []. split; [reflexivity | econstructor; eassumption].
  - right. destruct (getDecryptedRoyalty s cid) as [[sh am] rv]. simpl.
    eexists. split; [reflexivity | constructor].
Qed.

(** A property kept by every committed step holds along every run. *)
Lemma exec_invariant (P : State -> Prop) :
  (forall s c s', P s -> committed verify s c s' -> P s') ->
  forall s c, P s -> P (fst (exec verify s c)).
Proof.
  intros Hstep s c HP.
  destruct (exec_committed s c) as [[e He] | (ret & _ & Hc)].
  - rewrite He. exact HP.
  - exact (Hstep _ _ _ HP Hc).
Qed.

Lemma run_invariant (P : State -> Prop) :
  (forall s c s', P s -> committed verify s c s' -> P s') ->
  forall cs s, P s -> P (run verify s cs).
Proof.
  intros Hstep cs. induction cs as [|c cs IH]; intros s HP; [exact HP|].
  simpl. apply IH, exec_invariant; assumption.
Qed.

End StepFacts.

(** ** Registries and outbox *)

Lemma deployed_requests_wf : requests_wf deployed.
Proof.
  unfold requests_wf. simpl.
  repeat split; try (intros ? ? H; rewrite ?lookup_empty in H; discriminate).
Qed.

Section RequestFacts.

Variable verify : N -> bytes -> bytes -> bool.

Lemma committed_requests_wf (s : State) (c : Call) (s' : State) :
  requests_wf s -> committed verify s c s' -> requests_wf s'.
Proof.
  intros Hwf Hc.
  destruct Hc as [v Hle | ch dq mi h ts Hle | cid | rid ct pf ch dq mi _ _ _ _ _ _
                 | key Hcl | rid ct pf amount _ _ _ _ | cid];
    try exact Hwf.
  - (* a calculation request *)
    destruct Hwf as (H1 & H2 & H3 & H4 & H5 & H6 & H7).
    unfold requests_wf, request_result. simpl.
    split; [|split; [|split; [|split; [|split; [|split]]]]].
    + intros rid cid' Hl. destruct (decide (counterRequest s = rid)) as [<-|Hne]; [lia|].
      rewrite lookup_insert_ne in Hl by exact Hne. apply H1 in Hl. lia.
    + intros rid key Hl. apply H2 in Hl. lia.
    + intros rid Hs. destruct (decide (counterRequest s = rid)) as [<-|Hne].
      * destruct (requestToContributorHash s !! counterRequest s) as [k|] eqn:Hk;
          [|reflexivity].
        apply H2 in Hk. lia.
      * rewrite lookup_insert_ne in Hs by exact Hne. apply H3, Hs.
    + rewrite length_app, H4. simpl. lia.
    + intros i r Hl. apply lookup_snoc_Some in Hl as [[_ Hl] | [-> <-]].
      * apply H5, Hl.
      * simpl. rewrite H4. lia.
    + intros rid cid' Hl. destruct (decide (counterRequest s = rid)) as [<-|Hne].
      * eexists.
        split; [apply lookup_snoc_Some; right; split; [lia | reflexivity] | reflexivity].
      * rewrite lookup_insert_ne in Hl by exact Hne.
        pose proof (H1 _ _ Hl) as Hlt.
        destruct (H6 _ _ Hl) as (r & Hr & Hsel).
        exists r. split; [|exact Hsel].
        apply lookup_snoc_Some. left. split; [lia | exact Hr].
    + intros rid key Hl. pose proof (H2 _ _ Hl) as Hlt.
      destruct (H7 _ _ Hl) as (r & Hr & Hsel).
      exists r. split; [|exact Hsel].
      apply lookup_snoc_Some. left. split; [lia | exact Hr].
  - (* a claim request *)
    destruct Hwf as (H1 & H2 & H3 & H4 & H5 & H6 & H7).
    unfold requests_wf, claim_result. simpl.
    split; [|split; [|split; [|split; [|split; [|split]]]]].
    + intros rid cid' Hl. apply H1 in Hl. lia.
    + intros rid key' Hl. destruct (decide (counterRequest s = rid)) as [<-|Hne]; [lia|].
      rewrite lookup_insert_ne in Hl by exact Hne. apply H2 in Hl. lia.
    + intros rid Hs. destruct (decide (counterRequest s = rid)) as [<-|Hne].
      * destruct Hs as [x Hx]. apply H1 in Hx. lia.
      * rewrite lookup_insert_ne by exact Hne. apply H3, Hs.
    + rewrite length_app, H4. simpl. lia.
    + intros i r Hl. apply lookup_snoc_Some in Hl as [[_ Hl] | [-> <-]].
      * apply H5, Hl.
      * simpl. rewrite H4. lia.
    + intros rid cid' Hl. pose proof (H1 _ _ Hl) as Hlt.
      destruct (H6 _ _ Hl) as (r & Hr & Hsel).
      exists r. split; [|exact Hsel].
      apply lookup_snoc_Some. left. split; [lia | exact Hr].
    + intros rid key' Hl. destruct (decide (counterRequest s = rid)) as [<-|Hne].
      * eexists.
        split; [apply lookup_snoc_Some; right; split; [lia | reflexivity]
               | split; reflexivity].
      * rewrite lookup_insert_ne in Hl by exact Hne.
        pose proof (H2 _ _ Hl) as Hlt.
        destruct (H7 _ _ Hl) as (r & Hr & Hsel).
        exists r. split; [|exact Hsel].
        apply lookup_snoc_Some. left. split; [lia | exact Hr].
Qed.

Lemma run_requests_wf (cs : list Call) :
  requests_wf (run verify deployed cs).
Proof.
  apply (run_invariant verify requests_wf committed_requests_wf), deployed_requests_wf.
Qed.

End RequestFacts.

(** ** Ledger and log *)

Lemma requestToContributionId_at_Some (s : State) (rid cid : N) :
  requestToContributionId_at s rid = cid -> cid <> 0 ->
  requestToContributionId s !! rid = Some cid.
Proof.
  unfold requestToContributionId_at. intros H Hne.
  destruct (requestToContributionId s !! rid) as [x|]; simpl in H; congruence.
Qed.

Lemma requestToContributorHash_at_Some (s : State) (rid key : N) :
  requestToContributorHash_at s rid = key -> key <> 0 ->
  requestToContributorHash s !! rid = Some key.
Proof.
  unfold requestToContributorHash_at. intros H Hne.
  destruct (requestToContributorHash s !! rid) as [x|]; simpl in H; congruence.
Qed.

Lemma sum_N_app (l1 l2 : list N) : sum_N (l1 ++ l2) = sum_N l1 + sum_N l2.
Proof.
  induction l1 as [|x l1 IH]; simpl; [reflexivity|].
  unfold sum_N in *. simpl. rewrite IH. lia.
Qed.

Lemma deposited_in_log_snoc (log : list Event) (e : Event) :
  deposited_in_log (log ++ [e]) =
  deposited_in_log log + match e with RewardPoolDeposited v => v | _ => 0 end.
Proof.
  unfold deposited_in_log. rewrite omap_app, sum_N_app.
  destruct e; simpl; lia.
Qed.

Lemma spec_share_le_max (ch dq mi : N) :
  weighted_sum ch dq mi <= uint32_max -> spec_share ch dq mi <= share_max.
Proof.
  intros H. unfold spec_share, share_max. apply N.Div0.div_le_mono, H.
Qed.

Lemma deployed_ledger_wf : ledger_wf deployed.
Proof.
  unfold ledger_wf. simpl.
  split; [intros key H; unfold claimed, royaltyDistributions_at in H; simpl in H;
          rewrite lookup_empty in H; discriminate|].
  split; [intros cid r H; rewrite lookup_empty in H; discriminate|].
  split; [intros cid H; apply elem_of_nil in H; destruct H|].
  split; [reflexivity|].
  intros key d H. rewrite lookup_empty in H. discriminate.
Qed.

Section LedgerFacts.

Variable verify : N -> bytes -> bytes -> bool.

Lemma committed_ledger_wf (s : State) (c : Call) (s' : State) :
  requests_wf s -> ledger_wf s -> committed verify s c s' -> ledger_wf s'.
Proof.
  intros (R1 & R2 & _) (L1 & L2 & L3 & L4 & L5) Hc.
  destruct Hc as [v Hle | ch dq mi h ts Hle | cid | rid ct pf ch dq mi Hid Hcl _ _ Hsum _
                 | key Hcl | rid ct pf amount Hid Hcl _ _ | cid].
  - (* deposit *)
    unfold ledger_wf, deposit_result. simpl.
    split; [exact L1|]. split; [|split; [|split; [|exact L5]]].
    + intros cid r Hr. destruct (L2 cid r Hr) as (Hn & Hrev & Hsh & Hpay & Hreq & Hev).
      repeat split; try assumption.
      * etransitivity; [exact Hpay|]. apply N.Div0.div_le_mono. nia.
      * apply elem_of_app. left. exact Hev.
    + intros cid Hev. apply L3. apply elem_of_app in Hev as [Hev|Hev]; [exact Hev|].
      apply list_elem_of_singleton in Hev. discriminate.
    + rewrite deposited_in_log_snoc, <- L4. reflexivity.
  - (* submission *)
    unfold ledger_wf, submit_result. simpl.
    split; [exact L1|]. split; [|split; [|split; [|exact L5]]].
    + intros cid r Hr. destruct (L2 cid r Hr) as (Hn & Hrev & Hsh & Hpay & Hreq & Hev).
      repeat split; try assumption. apply elem_of_app. left. exact Hev.
    + intros cid Hev. apply L3. apply elem_of_app in Hev as [Hev|Hev]; [exact Hev|].
      apply list_elem_of_singleton in Hev. discriminate.
    + rewrite deposited_in_log_snoc, <- L4. lia.
  - (* calculation request *)
    unfold ledger_wf, request_result. simpl.
    split; [exact L1|]. split; [|split; [|split; [|exact L5]]].
    + intros cid' r Hr. destruct (L2 cid' r Hr) as (Hn & Hrev & Hsh & Hpay & Hreq & Hev).
      repeat split; try assumption.
      * destruct Hreq as [rid Hrid]. exists rid.
        rewrite lookup_insert_ne; [exact Hrid|]. apply R1 in Hrid. lia.
      * apply elem_of_app. left. exact Hev.
    + intros cid' Hev. apply L3. apply elem_of_app in Hev as [Hev|Hev]; [exact Hev|].
      apply list_elem_of_singleton in Hev. discriminate.
    + rewrite deposited_in_log_snoc, <- L4. lia.
  - (* calculation callback *)
    set (cid := requestToContributionId_at s rid) in *.
    set (key := contributorHash (contributions_at s cid)) in *.
    unfold ledger_wf.
    split; [|split; [|split; [|split]]].
    + intros k Hk. rewrite claimed_calculation_result in Hk. fold key in Hk.
      destruct (decide (key = k)); [discriminate|]. apply L1, Hk.
    + unfold calculation_result. simpl. intros cid' r Hr.
      destruct (decide (cid = cid')) as [<-|Hne].
      * rewrite lookup_insert_eq in Hr. injection Hr as <-. simpl.
        split; [exact Hid|]. split; [reflexivity|].
        split; [apply spec_share_le_max, Hsum|]. split; [reflexivity|].
        split; [exists rid; apply requestToContributionId_at_Some; [reflexivity | exact Hid]|].
        apply elem_of_app. right. apply list_elem_of_singleton. reflexivity.
      * rewrite lookup_insert_ne in Hr by exact Hne.
        destruct (L2 cid' r Hr) as (Hn & Hrev & Hsh & Hpay & Hreq & Hev).
        repeat split; try assumption. apply elem_of_app. left. exact Hev.
    + unfold calculation_result. simpl. intros cid' Hev.
      apply lookup_insert_is_Some.
      destruct (decide (cid = cid')) as [Heq|Hne]; [left; exact Heq|].
      right. split; [exact Hne|]. apply L3.
      apply elem_of_app in Hev as [Hev|Hev]; [exact Hev|].
      apply list_elem_of_singleton in Hev. congruence.
    + unfold calculation_result. simpl.
      rewrite deposited_in_log_snoc, <- L4. lia.
    + unfold calculation_result. simpl. intros k d Hd.
      destruct (decide (key = k)) as [<-|Hne].
      * rewrite lookup_insert_eq in Hd. injection Hd as <-. simpl.
        split; [eexists; reflexivity|].
        split; [intros sh [= <-]; apply spec_share_le_max, Hsum|].
        split; [intros p [= <-]; apply N.mod_lt; discriminate|].
        split; [split; discriminate | discriminate].
      * rewrite lookup_insert_ne in Hd by exact Hne. apply (L5 k d Hd).
  - (* claim request *)
    unfold ledger_wf, claim_result. simpl.
    split; [|split; [exact L2|split; [exact L3|split; [exact L4|exact L5]]]].
    intros k Hk. destruct (L1 k Hk) as [Hn [rid Hrid]].
    split; [exact Hn|]. exists rid.
    rewrite lookup_insert_ne; [exact Hrid|]. apply R2 in Hrid. lia.
  - (* claim callback *)
    set (key := requestToContributorHash_at s rid) in *.
    unfold ledger_wf.
    split; [|split; [exact L2|split; [exact L3|split; [exact L4|]]]].
    + intros k Hk. rewrite claimed_payment_result in Hk.
      destruct (decide (key = k)) as [<-|Hne]; [|apply L1, Hk].
      split; [exact Hid|]. exists rid.
      apply requestToContributorHash_at_Some; [reflexivity | exact Hid].
    + unfold payment_result. simpl. intros k d Hd.
      destruct (decide (key = k)) as [<-|Hne].
      * rewrite lookup_insert_eq in Hd. injection Hd as <-. simpl.
        unfold royaltyDistributions_at.
        destruct (royaltyDistributions s !! key) as [d0|] eqn:Hd0; simpl.
        -- destruct (L5 key d0 Hd0) as (_ & Hsh & Hp & Hiff & _).
           split; [eexists; reflexivity|]. repeat split; try assumption; apply Hiff.
        -- split; [eexists; reflexivity|]. repeat split; discriminate.
      * rewrite lookup_insert_ne in Hd by exact Hne. apply (L5 k d Hd).
  - (* view *)
    exact (conj L1 (conj L2 (conj L3 (conj L4 L5)))).
Qed.

Lemma committed_wf (s : State) (c : Call) (s' : State) :
  requests_wf s /\ ledger_wf s -> committed verify s c s' ->
  requests_wf s' /\ ledger_wf s'.
Proof.
  intros [HR HL] Hc. split.
  - exact (committed_requests_wf verify s c s' HR Hc).
  - exact (committed_ledger_wf s c s' HR HL Hc).
Qed.

Lemma run_wf (cs : list Call) :
  requests_wf (run verify deployed cs) /\ ledger_wf (run verify deployed cs).
Proof.
  apply (run_invariant verify (fun s => requests_wf s /\ ledger_wf s) committed_wf).
  split; [apply deployed_requests_wf | apply deployed_ledger_wf].
Qed.

End LedgerFacts.

(** ** Attestation and decoding failures *)

Lemma abi_decode_uint32_at_Revert (data : bytes) (i : nat) (e : Error) :
  abi_decode_uint32_at data i = Revert e -> e = Abi_decode_failed.
Proof.
  unfold abi_decode_uint32_at. destruct (abi_word data i) as [w|].
  - destruct (w <=? uint32_max); [discriminate | congruence].
  - congruence.
Qed.

Lemma abi_word_Some (data : bytes) (i : nat) (w : N) :
  abi_word data i = Some w ->
  (32 * i + 32 <= length data)%nat /\ w = word_of_bytes (take 32 (drop (32 * i) data)).
Proof.
  unfold abi_word.
  destruct (Nat.eqb_spec (length (take 32 (drop (32 * i) data))) 32) as [Hlen|Hlen];
    [|discriminate].
  intros [= <-]. split; [|reflexivity].
  rewrite length_take, length_drop in Hlen. lia.
Qed.

Lemma abi_word_app (data extra : bytes) (i : nat) :
  (32 * i + 32 <= length data)%nat ->
  abi_word (data ++ extra) i = abi_word data i.
Proof.
  intros Hlen. unfold abi_word.
  rewrite drop_app_le by lia.
  rewrite take_app_le by (rewrite length_drop; lia).
  reflexivity.
Qed.

Lemma abi_decode_uint32_at_Ok (data : bytes) (i : nat) (v : N) :
  abi_decode_uint32_at data i = Ok v ->
  (32 * i + 32 <= length data)%nat /\ v <= uint32_max /\
  v = word_of_bytes (take 32 (drop (32 * i) data)).
Proof.
  intros H. pose proof (abi_decode_uint32_at_bound data i v H) as Hb.
  unfold abi_decode_uint32_at in H.
  destruct (abi_word data i) as [w|] eqn:Hw; [|discriminate].
  destruct (w <=? uint32_max); [|discriminate]. injection H as <-.
  apply abi_word_Some in Hw as [Hlen ->]. repeat split; assumption.
Qed.

Lemma abi_decode_uint32x3_Revert (data : bytes) (e : Error) :
  abi_decode_uint32x3 data = Revert e -> e = Abi_decode_failed.
Proof.
  unfold abi_decode_uint32x3.
  destruct (abi_decode_uint32_at data 0) as [a|e0] eqn:H0; simpl;
    [|intros [= <-]; eapply abi_decode_uint32_at_Revert; eassumption].
  destruct (abi_decode_uint32_at data 1) as [b|e1] eqn:H1; simpl;
    [|intros [= <-]; eapply abi_decode_uint32_at_Revert; eassumption].
  destruct (abi_decode_uint32_at data 2) as [c|e2] eqn:H2; simpl;
    [discriminate|intros [= <-]; eapply abi_decode_uint32_at_Revert; eassumption].
Qed.

Lemma abi_decode_uint32x3_Ok (data : bytes) (a b c : N) :
  abi_decode_uint32x3 data = Ok (a, b, c) ->
  (96 <= length data)%nat /\
  a = word_of_bytes (take 32 data) /\
  b = word_of_bytes (take 32 (drop 32 data)) /\
  c = word_of_bytes (take 32 (drop 64 data)).
Proof.
  unfold abi_decode_uint32x3. intros H.
  step_Ok H. step_Ok H. step_Ok H. injection H as <- <- <-.
  apply abi_decode_uint32_at_Ok in Ha as (_ & _ & Ha).
  apply abi_decode_uint32_at_Ok in Ha0 as (_ & _ & Hb).
  apply abi_decode_uint32_at_Ok in Ha1 as (Hlen & _ & Hc).
  repeat split; [lia | exact Ha | exact Hb | exact Hc].
Qed.

Lemma abi_word_exact (data : bytes) (i : nat) :
  (32 * i + 32 <= length data)%nat ->
  abi_word data i = Some (word_of_bytes (take 32 (drop (32 * i) data))).
Proof.
  intros Hlen. unfold abi_word.
  destruct (Nat.eqb_spec (length (take 32 (drop (32 * i) data))) 32) as [_|Hne];
    [reflexivity|].
  exfalso. apply Hne. rewrite length_take, length_drop. lia.
Qed.

Lemma abi_decode_uint32_at_exact (data : bytes) (i : nat) :
  (32 * i + 32 <= length data)%nat ->
  abi_decode_uint32_at data i =
  if word_of_bytes (take 32 (drop (32 * i) data)) <=? uint32_max
  then Ok (word_of_bytes (take 32 (drop (32 * i) data)))
  else Revert Abi_decode_failed.
Proof.
  intros Hlen. unfold abi_decode_uint32_at. rewrite (abi_word_exact data i Hlen).
  reflexivity.
Qed.

Lemma abi_decode_uint32_at_app (data extra : bytes) (i : nat) :
  (32 * i + 32 <= length data)%nat ->
  abi_decode_uint32_at (data ++ extra) i = abi_decode_uint32_at data i.
Proof.
  intros Hlen. unfold abi_decode_uint32_at. rewrite (abi_word_app data extra i Hlen).
  reflexivity.
Qed.

(** X4: abi.decode of the cleartexts reads the first three (one, for a
    claim) 32-byte big-endian words and nothing else: it succeeds exactly
    when the data is long enough and every word is at most 2^32 - 1, shorter
    data and larger words revert, bytes after the words are ignored, and a
    callback with cleartexts that do not decode never commits. *)
Theorem cleartexts_decoding :
  forall (data : bytes),
    ((length data < 96)%nat -> abi_decode_uint32x3 data = Revert Abi_decode_failed) /\
    ((length data < 32)%nat -> abi_decode_uint32 data = Revert Abi_decode_failed) /\
    (forall a b c,
       abi_decode_uint32x3 data = Ok (a, b, c) ->
       (96 <= length data)%nat /\
       a <= uint32_max /\ b <= uint32_max /\ c <= uint32_max /\
       a = word_of_bytes (take 32 data) /\
       b = word_of_bytes (take 32 (drop 32 data)) /\
       c = word_of_bytes (take 32 (drop 64 data))) /\
    (forall extra,
       (96 <= length data)%nat ->
       abi_decode_uint32x3 (data ++ extra) = abi_decode_uint32x3 data) /\
    (forall verify s rid pf e,
       abi_decode_uint32x3 data = Revert e ->
       (exists e', exec verify s (ProcessRoyaltyCalculation rid data pf) = (s, Reverted e')) /\
       (requestToContributionId_at s rid <> 0 ->
        claimed s (contributorHash (contributions_at s (requestToContributionId_at s rid)))
          = false ->
        verify rid data pf = true ->
        exec verify s (ProcessRoyaltyCalculation rid data pf) =
        (s, Reverted Abi_decode_failed))) /\
    (forall a,
       abi_decode_uint32 data = Ok a ->
       (32 <= length data)%nat /\ a <= uint32_max /\
       a = word_of_bytes (take 32 data)) /\
    (forall extra,
       (32 <= length data)%nat ->
       abi_decode_uint32 (data ++ extra) = abi_decode_uint32 data) /\
    ((32 <= length data)%nat ->
     (word_of_bytes (take 32 data) <= uint32_max ->
      abi_decode_uint32 data = Ok (word_of_bytes (take 32 data))) /\
     (uint32_max < word_of_bytes (take 32 data) ->
      abi_decode_uint32 data = Revert Abi_decode_failed)) /\
    ((96 <= length data)%nat ->
     (word_of_bytes (take 32 data) <= uint32_max ->
      word_of_bytes (take 32 (drop 32 data)) <= uint32_max ->
      word_of_bytes (take 32 (drop 64 data)) <= uint32_max ->
      abi_decode_uint32x3 data =
      Ok (word_of_bytes (take 32 data), word_of_bytes (take 32 (drop 32 data)),
          word_of_bytes (take 32 (drop 64 data)))) /\
     (uint32_max < word_of_bytes (take 32 data) \/
      uint32_max < word_of_bytes (take 32 (drop 32 data)) \/
      uint32_max < word_of_bytes (take 32 (drop 64 data)) ->
      abi_decode_uint32x3 data = Revert Abi_decode_failed)) /\
    (forall verify s rid pf e,
       abi_decode_uint32 data = Revert e ->
       (exists e', exec verify s (ProcessRoyaltyPayment rid data pf) = (s, Reverted e')) /\
       (requestToContributorHash_at s rid <> 0 ->
        claimed s (requestToContributorHash_at s rid) = false ->
        verify rid data pf = true ->
        exec verify s (ProcessRoyaltyPayment rid data pf) =
        (s, Reverted Abi_decode_failed))).
Proof.
  intros data.
  split; [|split; [|split; [|split; [|split; [|split; [|split; [|split; [|split]]]]]]]].
  - intros Hlen.
    destruct (abi_decode_uint32x3 data) as [[[a b] c]|e] eqn:H.
    + apply abi_decode_uint32x3_Ok in H as [Hl _]. lia.
    + apply abi_decode_uint32x3_Revert in H as ->. reflexivity.
  - intros Hlen. unfold abi_decode_uint32.
    destruct (abi_decode_uint32_at data 0) as [a|e] eqn:H.
    + apply abi_decode_uint32_at_Ok in H as [Hl _]. lia.
    + apply abi_decode_uint32_at_Revert in H as ->. reflexivity.
  - intros a b c H.
    destruct (abi_decode_uint32x3_bound data a b c H) as (Ha & Hb & Hc).
    destruct (abi_decode_uint32x3_Ok data a b c H) as (Hl & Ea & Eb & Ec).
    repeat split; assumption.
  - intros extra Hlen. unfold abi_decode_uint32x3, abi_decode_uint32_at.
    rewrite !abi_word_app by (simpl; lia). reflexivity.
  - intros verify s rid pf e He. split.
    + unfold exec.
      destruct (processRoyaltyCalculation verify s rid data pf) as [s'|e'] eqn:H.
      * apply processRoyaltyCalculation_Ok in H
          as (ch & dq & mi & _ & _ & _ & Hdec & _). congruence.
      * exists e'. reflexivity.
    + intros Hid Hcl Hv.
      apply abi_decode_uint32x3_Revert in He as He'. subst e.
      unfold exec, processRoyaltyCalculation. cbv zeta.
      apply N.eqb_neq in Hid. rewrite Hid. simpl.
      unfold claimed in Hcl. rewrite Hcl. simpl.
      unfold checkSignatures. rewrite Hv. simpl.
      rewrite He. reflexivity.
  - intros a H. unfold abi_decode_uint32 in H.
    apply abi_decode_uint32_at_Ok in H as (Hl & Ha & Ea).
    split; [lia|]. split; [exact Ha | exact Ea].
  - intros extra Hlen. unfold abi_decode_uint32.
    apply abi_decode_uint32_at_app. simpl. lia.
  - intros Hlen. unfold abi_decode_uint32.
    rewrite (abi_decode_uint32_at_exact data 0) by (simpl; lia).
    change (drop (32 * 0) data) with data. split.
    + intros Hle. destruct (N.leb_spec (word_of_bytes (take 32 data)) uint32_max);
        [reflexivity | lia].
    + intros Hgt. destruct (N.leb_spec (word_of_bytes (take 32 data)) uint32_max);
        [lia | reflexivity].
  - intros Hlen. unfold abi_decode_uint32x3.
    rewrite (abi_decode_uint32_at_exact data 0) by (simpl; lia).
    rewrite (abi_decode_uint32_at_exact data 1) by (simpl; lia).
    rewrite (abi_decode_uint32_at_exact data 2) by (simpl; lia).
    change (drop (32 * 0) data) with data.
    change (32 * 1)%nat with 32%nat. change (32 * 2)%nat with 64%nat.
    destruct (N.leb_spec (word_of_bytes (take 32 data)) uint32_max) as [H0|H0];
      destruct (N.leb_spec (word_of_bytes (take 32 (drop 32 data))) uint32_max) as [H1|H1];
      destruct (N.leb_spec (word_of_bytes (take 32 (drop 64 data))) uint32_max) as [H2|H2];
      simpl; split;
      try (intros ? ? ?; first [reflexivity | lia]);
      try (intros [?|[?|?]]; first [reflexivity | lia]).
  - intros verify s rid pf e He. split.
    + unfold exec.
      destruct (processRoyaltyPayment verify s rid data pf) as [s'|e'] eqn:H.
      * apply processRoyaltyPayment_Ok in H as (amount & _ & _ & _ & Hdec & _). congruence.
      * exists e'. reflexivity.
    + intros Hid Hcl Hv.
      unfold abi_decode_uint32 in He.
      apply abi_decode_uint32_at_Revert in He as He'. subst e.
      unfold exec, processRoyaltyPayment. cbv zeta.
      apply N.eqb_neq in Hid. rewrite Hid. simpl.
      unfold claimed in Hcl. rewrite Hcl. simpl.
      unfold checkSignatures. rewrite Hv. simpl.
      unfold abi_decode_uint32. rewrite He. reflexivity.
Qed.

(** X3: a callback whose proof the verifier rejects never commits, whatever
    the cleartexts; when the request is registered and the key unclaimed the
    revert is the one of the signature check, which comes before decoding. *)
Theorem rejected_proof_changes_nothing :
  forall (verify : N -> bytes -> bytes -> bool) (s : State) (rid : N) (ct pf : bytes),
    verify rid ct pf = false ->
    (exists e, exec verify s (ProcessRoyaltyCalculation rid ct pf) = (s, Reverted e)) /\
    (exists e, exec verify s (ProcessRoyaltyPayment rid ct pf) = (s, Reverted e)) /\
    (requestToContributionId_at s rid <> 0 ->
     claimed s (contributorHash (contributions_at s (requestToContributionId_at s rid)))
       = false ->
     exec verify s (ProcessRoyaltyCalculation rid ct pf) = (s, Reverted Invalid_signatures)) /\
    (requestToContributorHash_at s rid <> 0 ->
     claimed s (requestToContributorHash_at s rid) = false ->
     exec verify s (ProcessRoyaltyPayment rid ct pf) = (s, Reverted Invalid_signatures)).
Proof.
  intros verify s rid ct pf Hv. split; [|split; [|split]].
  - unfold exec.
    destruct (processRoyaltyCalculation verify s rid ct pf) as [s'|e] eqn:H.
    + apply processRoyaltyCalculation_Ok in H as (? & ? & ? & _ & _ & Hv' & _). congruence.
    + exists e. reflexivity.
  - unfold exec.
    destruct (processRoyaltyPayment verify s rid ct pf) as [s'|e] eqn:H.
    + apply processRoyaltyPayment_Ok in H as (? & _ & _ & Hv' & _). congruence.
    + exists e. reflexivity.
  - intros Hid Hcl. unfold exec, processRoyaltyCalculation. cbv zeta.
    apply N.eqb_neq in Hid. rewrite Hid. simpl.
    unfold claimed in Hcl. rewrite Hcl. simpl.
    unfold checkSignatures. rewrite Hv. reflexivity.
  - intros Hid Hcl. unfold exec, processRoyaltyPayment. cbv zeta.
    apply N.eqb_neq in Hid. rewrite Hid. simpl.
    unfold claimed in Hcl. rewrite Hcl. simpl.
    unfold checkSignatures. rewrite Hv. reflexivity.
Qed.

Lemma royaltyDistributions_at_payment_result (s : State) (key : N) :
  royaltyDistributions_at (payment_result s key) key =
  {| encryptedShare := encryptedShare (royaltyDistributions_at s key);
     encryptedPaymentAmount := encryptedPaymentAmount (royaltyDistributions_at s key);
     isClaimed := Some true |}.
Proof.
  unfold royaltyDistributions_at at 1. unfold payment_result. simpl.
  rewrite lookup_insert_eq. reflexivity.
Qed.

(** X16: the claim callback decodes the revealed amount and does nothing
    with it: two accepted callbacks for the same request leave the same
    state whatever amounts they carry, the stored handles stay as they
    were, and neither the pool nor the log changes. *)
Theorem claim_callback_ignores_amount :
  forall (verify : N -> bytes -> bytes -> bool) (s : State) (rid : N)
         (ct1 pf1 ct2 pf2 : bytes) (s1 s2 : State),
    processRoyaltyPayment verify s rid ct1 pf1 = Ok s1 ->
    processRoyaltyPayment verify s rid ct2 pf2 = Ok s2 ->
    s1 = s2 /\
    totalRewardPool s1 = totalRewardPool s /\
    events s1 = events s /\
    decryptedRoyalties s1 = decryptedRoyalties s /\
    encryptedPaymentAmount (royaltyDistributions_at s1 (requestToContributorHash_at s rid)) =
      encryptedPaymentAmount (royaltyDistributions_at s (requestToContributorHash_at s rid)) /\
    encryptedShare (royaltyDistributions_at s1 (requestToContributorHash_at s rid)) =
      encryptedShare (royaltyDistributions_at s (requestToContributorHash_at s rid)).
Proof.
  intros verify s rid ct1 pf1 ct2 pf2 s1 s2 H1 H2.
  apply processRoyaltyPayment_Ok in H1 as (a1 & _ & _ & _ & _ & ->).
  apply processRoyaltyPayment_Ok in H2 as (a2 & _ & _ & _ & _ & ->).
  split; [reflexivity|]. split; [reflexivity|]. split; [reflexivity|].
  split; [reflexivity|].
  fold (payment_result s (requestToContributorHash_at s rid)).
  rewrite royaltyDistributions_at_payment_result. split; reflexivity.
Qed.

(** ** Share and payment bounds *)

(** X5: the share is the floor of a weighted mean of the three metrics: it
    lies between the smallest and the largest metric, equals the metric when
    the three agree, never exceeds floor((2^32 - 1) / 100), and does not go
    down when a metric goes up. *)
Theorem share_is_weighted_mean :
  forall (ch dq mi share : N),
    calculateSharePercentage ch dq mi = Ok share ->
    N.min ch (N.min dq mi) <= share /\
    share <= N.max ch (N.max dq mi) /\
    share <= share_max /\
    (ch = dq -> dq = mi -> share = ch) /\
    (forall ch' dq' mi' share',
       ch <= ch' -> dq <= dq' -> mi <= mi' ->
       calculateSharePercentage ch' dq' mi' = Ok share' -> share <= share').
Proof.
  intros ch dq mi share H.
  apply calculateSharePercentage_Ok in H as [Hsum ->].
  unfold spec_share, weighted_sum in *.
  split; [|split; [|split; [|split]]].
  - apply N.div_le_lower_bound; [discriminate | lia].
  - apply N.Div0.div_le_upper_bound. lia.
  - unfold share_max. apply N.Div0.div_le_mono, Hsum.
  - intros -> ->.
    replace (mi * 40 + mi * 35 + mi * 25) with (mi * 100) by lia.
    apply N.div_mul. discriminate.
  - intros ch' dq' mi' share' Hch Hdq Hmi H'.
    apply calculateSharePercentage_Ok in H' as [_ ->].
    unfold spec_share, weighted_sum. apply N.Div0.div_le_mono. lia.
Qed.

(** X6: the callback does not clamp the share to 10000 basis points and sets
    nothing aside: with all three metrics at most 10000 the payment is at
    most the pool, with all three at least 10000 it is at least the pool,
    and the pool is the same after the callback. *)
Theorem payment_against_pool :
  forall (verify : N -> bytes -> bytes -> bool) (s : State) (rid : N)
         (ct pf : bytes) (ch dq mi : N) (s' : State),
    abi_decode_uint32x3 ct = Ok (ch, dq, mi) ->
    processRoyaltyCalculation verify s rid ct pf = Ok s' ->
    let r := decryptedRoyalties_at s' (requestToContributionId_at s rid) in
    (ch <= 10000 -> dq <= 10000 -> mi <= 10000 ->
     sharePercentage r <= 10000 /\ paymentAmount r <= totalRewardPool s) /\
    (10000 <= ch -> 10000 <= dq -> 10000 <= mi ->
     10000 <= sharePercentage r /\ totalRewardPool s <= paymentAmount r) /\
    paymentAmount r <= totalRewardPool s * share_max / 10000 /\
    totalRewardPool s' = totalRewardPool s.
Proof.
  intros verify s rid ct pf ch dq mi s' Hdec H r.
  apply processRoyaltyCalculation_Ok in H
    as (ch' & dq' & mi' & _ & _ & _ & Hdec' & Hsum & _ & ->).
  rewrite Hdec in Hdec'. injection Hdec' as <- <- <-.
  assert (Hr : r = {| sharePercentage := spec_share ch dq mi;
                      paymentAmount := totalRewardPool s * spec_share ch dq mi / 10000;
                      isRevealed := true |}).
  { unfold r, decryptedRoyalties_at. rewrite calculation_result_royalty. reflexivity. }
  rewrite Hr. simpl.
  split; [|split; [|split; [|reflexivity]]].
  - intros Hch Hdq Hmi.
    assert (Hsh : spec_share ch dq mi <= 10000).
    { unfold spec_share, weighted_sum. apply N.Div0.div_le_upper_bound. lia. }
    split; [exact Hsh|]. apply N.Div0.div_le_upper_bound. nia.
  - intros Hch Hdq Hmi.
    assert (Hsh : 10000 <= spec_share ch dq mi).
    { unfold spec_share, weighted_sum. apply N.div_le_lower_bound; [discriminate | lia]. }
    split; [exact Hsh|]. apply N.div_le_lower_bound; [discriminate | nia].
  - apply N.Div0.div_le_mono. apply N.mul_le_mono_l, spec_share_le_max, Hsum.
Qed.

(** ** A claimed Distribution *)

Section FrozenFacts.

Variable verify : N -> bytes -> bytes -> bool.

Lemma committed_frozen (s : State) (c : Call) (s' : State) (key : N) :
  claimed s key = true -> committed verify s c s' ->
  royaltyDistributions s' !! key = royaltyDistributions s !! key.
Proof.
  intros Hcl Hc.
  destruct Hc as [v Hle | ch dq mi h ts Hle | cid | rid ct pf ch dq mi _ Hfree _ _ _ _
                 | k _ | rid ct pf amount _ Hfree _ _ | cid]; try reflexivity.
  - unfold calculation_result. simpl. apply lookup_insert_ne. congruence.
  - unfold payment_result. simpl. apply lookup_insert_ne. congruence.
Qed.

Lemma run_frozen (cs : list Call) :
  forall s key, claimed s key = true ->
    claimed (run verify s cs) key = true /\
    royaltyDistributions (run verify s cs) !! key = royaltyDistributions s !! key.
Proof.
  induction cs as [|c cs IH]; intros s key Hcl; [split; [exact Hcl | reflexivity]|].
  simpl. destruct (IH (fst (exec verify s c)) key) as [Hcl' Heq].
  { apply exec_claimed_stays, Hcl. }
  split; [exact Hcl'|]. rewrite Heq.
  destruct (exec_committed verify s c) as [[e He] | (ret & _ & Hc)].
  - rewrite He. reflexivity.
  - apply (committed_frozen s c _ key Hcl Hc).
Qed.

End FrozenFacts.

(** X7: once the claimed flag of a key is set, the Distribution stored for
    the key is final: no later sequence of calls changes it, every
    calculation callback for a contribution of that key fails with "Already
    processed", and every further claim request fails with "Already
    claimed". *)
Theorem claimed_distribution_is_final :
  forall (verify : N -> bytes -> bytes -> bool) (s : State) (key : N) (cs : list Call),
    claimed s key = true ->
    let s' := run verify s cs in
    royaltyDistributions s' !! key = royaltyDistributions s !! key /\
    claimed s' key = true /\
    exec verify s' (ClaimRoyalty key) = (s', Reverted (Require_failed "Already claimed")) /\
    (forall rid ct pf,
       requestToContributionId_at s' rid <> 0 ->
       contributorHash (contributions_at s' (requestToContributionId_at s' rid)) = key ->
       exec verify s' (ProcessRoyaltyCalculation rid ct pf) =
       (s', Reverted (Require_failed "Already processed"))).
Proof.
  intros verify s key cs Hcl s'.
  destruct (run_frozen verify cs s key Hcl) as [Hcl' Heq]. fold s' in Hcl', Heq.
  split; [exact Heq|]. split; [exact Hcl'|]. split.
  - apply exec_claim_rejected, Hcl'.
  - intros rid ct pf Hid Hkey. unfold exec.
    rewrite (processRoyaltyCalculation_claimed verify s' rid ct pf Hid); [reflexivity|].
    rewrite Hkey. exact Hcl'.
Qed.

(** ** Calls in sequence *)

Lemma contributions_at_submit_result (s : State) (ch dq mi : euint32) (h ts : N) :
  contributions_at (submit_result s ch dq mi h ts) (contributionCount s + 1) =
  {| id := contributionCount s + 1;
     encryptedComputeHours := ch; encryptedDataQuality := dq;
     encryptedModelImpact := mi; timestamp := ts; contributorHash := h |}.
Proof.
  unfold contributions_at, submit_result. simpl. rewrite lookup_insert_eq. reflexivity.
Qed.

Lemma registry_request_result (s : State) (cid : N) :
  requestToContributionId_at (request_result s cid) (counterRequest s) = cid.
Proof.
  unfold requestToContributionId_at, request_result. simpl.
  rewrite lookup_insert_eq. reflexivity.
Qed.

Lemma royaltyDistributions_at_calculation_result (s : State) (cid share : N) :
  royaltyDistributions_at (calculation_result s cid share)
    (contributorHash (contributions_at s cid)) =
  {| encryptedShare := Some share;
     encryptedPaymentAmount := Some ((totalRewardPool s * share / 10000) mod 2 ^ 32);
     isClaimed := Some false |}.
Proof.
  unfold royaltyDistributions_at. rewrite calculation_result_distribution. reflexivity.
Qed.

Section SequenceFacts.

Variable verify : N -> bytes -> bytes -> bool.

(** A committed step is what [exec] does. *)
Lemma committed_exec (s : State) (c : Call) (s' : State) :
  committed verify s c s' ->
  (forall cid, c <> GetDecryptedRoyalty cid) ->
  exec verify s c = (s', Success []).
Proof.
  intros Hc Hview.
  destruct Hc as [v Hle | ch dq mi h ts Hle | cid | rid ct pf ch dq mi Hid Hcl Hv Hdec Hsum Hmul
                 | key Hcl | rid ct pf amount Hid Hcl Hv Hdec | cid]; unfold exec.
  - rewrite (proj2 (depositRewardPool_Ok s v (deposit_result s v)) (conj Hle eq_refl)).
    reflexivity.
  - rewrite (proj2 (submitEncryptedContribution_Ok s ch dq mi h ts
                      (submit_result s ch dq mi h ts)) (conj Hle eq_refl)).
    reflexivity.
  - reflexivity.
  - rewrite (proj2 (processRoyaltyCalculation_Ok verify s rid ct pf
                      (calculation_result s (requestToContributionId_at s rid)
                         (spec_share ch dq mi))));
      [reflexivity|].
    exists ch, dq, mi. repeat split; assumption.
  - exact (exec_claim_ok verify s key Hcl).
  - exact (exec_payment_ok verify s rid ct pf amount Hid Hcl Hv Hdec).
  - exfalso. apply (Hview cid). reflexivity.
Qed.

Lemma committed_fst (s : State) (c : Call) (s' : State) :
  committed verify s c s' -> fst (exec verify s c) = s'.
Proof.
  intros Hc. destruct c as [v | ch dq mi h ts | cid | rid ct pf | key | rid ct pf | cid];
    try (rewrite (committed_exec s _ s' Hc); [reflexivity | discriminate]).
  inversion Hc; subst. unfold exec.
  destruct (getDecryptedRoyalty s' cid) as [[? ?] ?]. reflexivity.
Qed.

Lemma exec_calculation_ok (s : State) (rid cid : N) (ct pf : bytes) (ch dq mi : N) :
  requestToContributionId_at s rid = cid -> cid <> 0 ->
  claimed s (contributorHash (contributions_at s cid)) = false ->
  verify rid ct pf = true ->
  abi_decode_uint32x3 ct = Ok (ch, dq, mi) ->
  weighted_sum ch dq mi <= uint32_max ->
  totalRewardPool s * spec_share ch dq mi <= uint256_max ->
  exec verify s (ProcessRoyaltyCalculation rid ct pf) =
  (calculation_result s cid (spec_share ch dq mi), Success []).
Proof.
  intros <- Hid Hcl Hv Hdec Hsum Hmul.
  apply committed_exec; [|discriminate].
  apply (committed_calculation verify s rid ct pf ch dq mi); assumption.
Qed.

Lemma exec_request_ok (s : State) (cid : N) :
  exec verify s (CalculateRoyaltyShare cid) = (request_result s cid, Success []).
Proof. reflexivity. Qed.

Lemma exec_submit_ok (s : State) (ch dq mi : euint32) (h ts : N) :
  contributionCount s + 1 <= uint256_max ->
  exec verify s (SubmitEncryptedContribution ch dq mi h ts) =
  (submit_result s ch dq mi h ts, Success []).
Proof.
  intros Hle. apply committed_exec; [|discriminate]. constructor. exact Hle.
Qed.

Lemma exec_deposit_ok (s : State) (v : N) :
  totalRewardPool s + v <= uint256_max ->
  exec verify s (DepositRewardPool v) = (deposit_result s v, Success []).
Proof.
  intros Hle. apply committed_exec; [|discriminate]. constructor. exact Hle.
Qed.

Lemma exec_payment_key_ok (s : State) (rid key : N) (ct pf : bytes) (amount : N) :
  requestToContributorHash_at s rid = key -> key <> 0 ->
  claimed s key = false ->
  verify rid ct pf = true ->
  abi_decode_uint32 ct = Ok amount ->
  exec verify s (ProcessRoyaltyPayment rid ct pf) = (payment_result s key, Success []).
Proof.
  intros <- Hid Hcl Hv Hdec. apply (exec_payment_ok verify s rid ct pf amount); assumption.
Qed.

End SequenceFacts.

(** X14: a contribution taken through its whole life: submission,
    calculation request, calculation callback, claim request and claim
    callback all go through; the audit record holds share and payment, the
    Distribution ends claimed with the truncated payment, the oracle got
    the three metric handles and then the payment handle, the claim path
    added nothing to the log, and the pool is what it was. *)
Theorem contribution_lifecycle :
  forall (verify : N -> bytes -> bytes -> bool) (s : State)
         (hours quality impact : euint32) (key ts : N)
         (ct pf ct' pf' : bytes) (ch dq mi amount : N),
    contributionCount s + 1 <= uint256_max ->
    key <> 0 -> claimed s key = false ->
    verify (counterRequest s) ct pf = true ->
    abi_decode_uint32x3 ct = Ok (ch, dq, mi) ->
    weighted_sum ch dq mi <= uint32_max ->
    totalRewardPool s * spec_share ch dq mi <= uint256_max ->
    verify (counterRequest s + 1) ct' pf' = true ->
    abi_decode_uint32 ct' = Ok amount ->
    let newId := contributionCount s + 1 in
    let share := spec_share ch dq mi in
    let payment := totalRewardPool s * share / 10000 in
    let calls :=
      [SubmitEncryptedContribution hours quality impact key ts;
       CalculateRoyaltyShare newId;
       ProcessRoyaltyCalculation (counterRequest s) ct pf;
       ClaimRoyalty key;
       ProcessRoyaltyPayment (counterRequest s + 1) ct' pf'] in
    let s' := run verify s calls in
    outcomes verify s calls =
      [Success []; Success []; Success []; Success []; Success []] /\
    getDecryptedRoyalty s' newId = (share, payment, true) /\
    royaltyDistributions s' !! key =
      Some {| encryptedShare := Some share;
              encryptedPaymentAmount := Some (payment mod 2 ^ 32);
              isClaimed := Some true |} /\
    decryptionRequests s' =
      decryptionRequests s ++
      [{| requestID := counterRequest s;
          ctsHandles := [hours; quality; impact];
          callbackSelector := processRoyaltyCalculation_selector |};
       {| requestID := counterRequest s + 1;
          ctsHandles := [Some (payment mod 2 ^ 32)];
          callbackSelector := processRoyaltyPayment_selector |}] /\
    events s' =
      events s ++
      [ContributionRecorded newId key ts; RoyaltyCalculationRequested newId;
       RoyaltyDecrypted newId] /\
    totalRewardPool s' = totalRewardPool s.
Proof.
  intros verify s hours quality impact key ts ct pf ct' pf' ch dq mi amount
         Hcount Hkey Hcl Hv Hdec Hsum Hmul Hv' Hdec' newId share payment calls s'.
  set (s1 := submit_result s hours quality impact key ts).
  set (s2 := request_result s1 newId).
  set (s3 := calculation_result s2 newId share).
  set (s4 := claim_result s3 key).
  set (s5 := payment_result s4 key).
  assert (E1 : exec verify s (SubmitEncryptedContribution hours quality impact key ts) =
               (s1, Success [])) by (apply exec_submit_ok, Hcount).
  assert (E2 : exec verify s1 (CalculateRoyaltyShare newId) = (s2, Success []))
    by reflexivity.
  assert (Hrec : contributions_at s2 newId =
                 {| id := newId; encryptedComputeHours := hours;
                    encryptedDataQuality := quality; encryptedModelImpact := impact;
                    timestamp := ts; contributorHash := key |})
    by (apply contributions_at_submit_result).
  assert (E3 : exec verify s2 (ProcessRoyaltyCalculation (counterRequest s) ct pf) =
               (s3, Success [])).
  { apply (exec_calculation_ok verify s2 (counterRequest s) newId ct pf ch dq mi);
      try assumption.
    - apply (registry_request_result s1 newId).
    - unfold newId. lia.
    - rewrite Hrec. exact Hcl. }
  assert (Hdist : royaltyDistributions_at s3 key =
                  {| encryptedShare := Some share;
                     encryptedPaymentAmount := Some (payment mod 2 ^ 32);
                     isClaimed := Some false |}).
  { pose proof (royaltyDistributions_at_calculation_result s2 newId share) as Hd.
    rewrite Hrec in Hd. exact Hd. }
  assert (Hcl3 : claimed s3 key = false) by (unfold claimed; rewrite Hdist; reflexivity).
  assert (E4 : exec verify s3 (ClaimRoyalty key) = (s4, Success []))
    by (apply exec_claim_ok, Hcl3).
  assert (E5 : exec verify s4 (ProcessRoyaltyPayment (counterRequest s + 1) ct' pf') =
               (s5, Success [])).
  { apply (exec_payment_key_ok verify s4 (counterRequest s + 1) key ct' pf' amount);
      try assumption.
    rewrite (registry_claim_result s3 key).
    destruct (decide _) as [|Hne]; [reflexivity|]. exfalso. apply Hne. reflexivity. }
  assert (Hrun : s' = s5).
  { unfold s', calls. cbn [run]. rewrite E1. cbn [fst]. rewrite E2. cbn [fst].
    rewrite E3. cbn [fst]. rewrite E4. cbn [fst]. rewrite E5. reflexivity. }
  split.
  { unfold calls. cbn [outcomes]. rewrite E1. cbn [fst snd]. rewrite E2. cbn [fst snd].
    rewrite E3. cbn [fst snd]. rewrite E4. cbn [fst snd]. rewrite E5. reflexivity. }
  rewrite Hrun.
  split.
  { unfold getDecryptedRoyalty, decryptedRoyalties_at.
    change (decryptedRoyalties s5) with (decryptedRoyalties s3).
    unfold s3. rewrite calculation_result_royalty. reflexivity. }
  split.
  { unfold s5, payment_result. simpl. rewrite lookup_insert_eq.
    change (royaltyDistributions_at s4 key) with (royaltyDistributions_at s3 key).
    rewrite Hdist. reflexivity. }
  split.
  { change (decryptionRequests s5) with
      ((decryptionRequests s ++
        [{| requestID := counterRequest s;
            ctsHandles := [encryptedComputeHours (contributions_at s1 newId);
                           encryptedDataQuality (contributions_at s1 newId);
                           encryptedModelImpact (contributions_at s1 newId)];
            callbackSelector := processRoyaltyCalculation_selector |}]) ++
       [{| requestID := counterRequest s + 1;
           ctsHandles := [encryptedPaymentAmount (royaltyDistributions_at s3 key)];
           callbackSelector := processRoyaltyPayment_selector |}]).
    rewrite Hdist. change (contributions_at s1 newId) with (contributions_at s2 newId).
    rewrite Hrec. simpl. rewrite <- app_assoc. reflexivity. }
  split.
  { change (events s5) with
      (((events s ++ [ContributionRecorded newId key ts]) ++
        [RoyaltyCalculationRequested newId]) ++ [RoyaltyDecrypted newId]).
    rewrite <- !app_assoc. reflexivity. }
  reflexivity.
Qed.

(** X15: the payment is worked out against the pool the callback finds: a
    deposit made between the calculation request and its callback counts
    towards the payment. *)
Theorem deposit_before_callback_counts :
  forall (verify : N -> bytes -> bytes -> bool) (s : State) (cid d : N)
         (ct pf : bytes) (ch dq mi : N),
    cid <> 0 ->
    claimed s (contributorHash (contributions_at s cid)) = false ->
    totalRewardPool s + d <= uint256_max ->
    verify (counterRequest s) ct pf = true ->
    abi_decode_uint32x3 ct = Ok (ch, dq, mi) ->
    weighted_sum ch dq mi <= uint32_max ->
    (totalRewardPool s + d) * spec_share ch dq mi <= uint256_max ->
    let calls := [CalculateRoyaltyShare cid; DepositRewardPool d;
                  ProcessRoyaltyCalculation (counterRequest s) ct pf] in
    outcomes verify s calls = [Success []; Success []; Success []] /\
    getDecryptedRoyalty (run verify s calls) cid =
      (spec_share ch dq mi,
       (totalRewardPool s + d) * spec_share ch dq mi / 10000, true).
Proof.
  intros verify s cid d ct pf ch dq mi Hid Hcl Hle Hv Hdec Hsum Hmul calls.
  set (s1 := request_result s cid).
  set (s2 := deposit_result s1 d).
  set (s3 := calculation_result s2 cid (spec_share ch dq mi)).
  assert (E1 : exec verify s (CalculateRoyaltyShare cid) = (s1, Success []))
    by reflexivity.
  assert (E2 : exec verify s1 (DepositRewardPool d) = (s2, Success []))
    by (apply exec_deposit_ok; exact Hle).
  assert (E3 : exec verify s2 (ProcessRoyaltyCalculation (counterRequest s) ct pf) =
               (s3, Success [])).
  { apply (exec_calculation_ok verify s2 (counterRequest s) cid ct pf ch dq mi);
      try assumption.
    apply (registry_request_result s cid). }
  split.
  - unfold calls. cbn [outcomes]. rewrite E1. cbn [fst snd]. rewrite E2. cbn [fst snd].
    rewrite E3. reflexivity.
  - unfold calls. cbn [run]. rewrite E1. cbn [fst]. rewrite E2. cbn [fst].
    rewrite E3. cbn [fst].
    unfold getDecryptedRoyalty, decryptedRoyalties_at, s3.
    rewrite calculation_result_royalty. reflexivity.
Qed.

(** X10: a calculation can be requested for an id nothing was submitted
    under; the oracle is handed three never-assigned handles, and when the
    callback arrives the Distribution is filed under the all-zero key and
    the audit record under the requested id. *)
Theorem unsubmitted_id_files_under_zero_key :
  forall (verify : N -> bytes -> bytes -> bool) (s : State) (cid : N)
         (ct pf : bytes) (ch dq mi : N),
    cid <> 0 -> contributions s !! cid = None -> claimed s 0 = false ->
    verify (counterRequest s) ct pf = true ->
    abi_decode_uint32x3 ct = Ok (ch, dq, mi) ->
    weighted_sum ch dq mi <= uint32_max ->
    totalRewardPool s * spec_share ch dq mi <= uint256_max ->
    let calls := [CalculateRoyaltyShare cid;
                  ProcessRoyaltyCalculation (counterRequest s) ct pf] in
    let s' := run verify s calls in
    let share := spec_share ch dq mi in
    let payment := totalRewardPool s * share / 10000 in
    outcomes verify s calls = [Success []; Success []] /\
    decryptionRequests s' =
      decryptionRequests s ++
      [{| requestID := counterRequest s; ctsHandles := [None; None; None];
          callbackSelector := processRoyaltyCalculation_selector |}] /\
    royaltyDistributions s' !! 0 =
      Some {| encryptedShare := Some share;
              encryptedPaymentAmount := Some (payment mod 2 ^ 32);
              isClaimed := Some false |} /\
    decryptedRoyalties s' !! cid =
      Some {| sharePercentage := share; paymentAmount := payment; isRevealed := true |}.
Proof.
  intros verify s cid ct pf ch dq mi Hid Hnone Hcl Hv Hdec Hsum Hmul calls s' share payment.
  assert (Hzero : contributions_at s cid = zero_contribution).
  { unfold contributions_at. rewrite Hnone. reflexivity. }
  set (s1 := request_result s cid).
  set (s2 := calculation_result s1 cid share).
  assert (E1 : exec verify s (CalculateRoyaltyShare cid) = (s1, Success []))
    by reflexivity.
  assert (Hzero1 : contributions_at s1 cid = zero_contribution) by exact Hzero.
  assert (E2 : exec verify s1 (ProcessRoyaltyCalculation (counterRequest s) ct pf) =
               (s2, Success [])).
  { apply (exec_calculation_ok verify s1 (counterRequest s) cid ct pf ch dq mi);
      try assumption.
    - apply (registry_request_result s cid).
    - rewrite Hzero1. exact Hcl. }
  assert (Hrun : s' = s2).
  { unfold s', calls. cbn [run]. rewrite E1. cbn [fst]. rewrite E2. reflexivity. }
  split.
  { unfold calls. cbn [outcomes]. rewrite E1. cbn [fst snd]. rewrite E2. reflexivity. }
  rewrite Hrun. split; [|split].
  - change (decryptionRequests s2) with
      (decryptionRequests s ++
       [{| requestID := counterRequest s;
           ctsHandles := [encryptedComputeHours (contributions_at s cid);
                          encryptedDataQuality (contributions_at s cid);
                          encryptedModelImpact (contributions_at s cid)];
           callbackSelector := processRoyaltyCalculation_selector |}]).
    rewrite Hzero. reflexivity.
  - pose proof (calculation_result_distribution s1 cid share) as Hd.
    rewrite Hzero1 in Hd. exact Hd.
  - apply (calculation_result_royalty s1 cid share).
Qed.

(** X8: a claim can be settled for a key no royalty was ever computed for:
    request and callback go through, the Distribution then holds two
    never-assigned amounts and a set flag, and from then on every
    calculation callback for a contribution of that key is rejected. *)
Theorem claim_before_calculation_locks_key :
  forall (verify : N -> bytes -> bytes -> bool) (s : State) (key : N)
         (ct pf : bytes) (amount : N),
    key <> 0 -> royaltyDistributions s !! key = None ->
    verify (counterRequest s) ct pf = true ->
    abi_decode_uint32 ct = Ok amount ->
    let calls := [ClaimRoyalty key; ProcessRoyaltyPayment (counterRequest s) ct pf] in
    let s' := run verify s calls in
    outcomes verify s calls = [Success []; Success []] /\
    decryptionRequests s' =
      decryptionRequests s ++
      [{| requestID := counterRequest s; ctsHandles := [None];
          callbackSelector := processRoyaltyPayment_selector |}] /\
    royaltyDistributions s' !! key =
      Some {| encryptedShare := None; encryptedPaymentAmount := None;
              isClaimed := Some true |} /\
    (forall cs rid ct' pf',
       let s'' := run verify s' cs in
       requestToContributionId_at s'' rid <> 0 ->
       contributorHash (contributions_at s'' (requestToContributionId_at s'' rid)) = key ->
       exec verify s'' (ProcessRoyaltyCalculation rid ct' pf') =
       (s'', Reverted (Require_failed "Already processed"))).
Proof.
  intros verify s key ct pf amount Hkey Hnone Hv Hdec calls s'.
  assert (Hzero : royaltyDistributions_at s key = zero_distribution).
  { unfold royaltyDistributions_at. rewrite Hnone. reflexivity. }
  assert (Hcl : claimed s key = false) by (unfold claimed; rewrite Hzero; reflexivity).
  set (s1 := claim_result s key).
  set (s2 := payment_result s1 key).
  assert (E1 : exec verify s (ClaimRoyalty key) = (s1, Success []))
    by (apply exec_claim_ok, Hcl).
  assert (E2 : exec verify s1 (ProcessRoyaltyPayment (counterRequest s) ct pf) =
               (s2, Success [])).
  { apply (exec_payment_key_ok verify s1 (counterRequest s) key ct pf amount);
      try assumption.
    rewrite (registry_claim_result s key).
    destruct (decide _) as [|Hne]; [reflexivity|]. exfalso. apply Hne. reflexivity. }
  assert (Hrun : s' = s2).
  { unfold s', calls. cbn [run]. rewrite E1. cbn [fst]. rewrite E2. reflexivity. }
  split.
  { unfold calls. cbn [outcomes]. rewrite E1. cbn [fst snd]. rewrite E2. reflexivity. }
  rewrite Hrun. split; [|split; [|]].
  - change (decryptionRequests s2) with
      (decryptionRequests s ++
       [{| requestID := counterRequest s;
           ctsHandles := [encryptedPaymentAmount (royaltyDistributions_at s key)];
           callbackSelector := processRoyaltyPayment_selector |}]).
    rewrite Hzero. reflexivity.
  - unfold s2, payment_result. simpl. rewrite lookup_insert_eq.
    change (royaltyDistributions_at s1 key) with (royaltyDistributions_at s key).
    rewrite Hzero. reflexivity.
  - intros cs rid ct' pf' s'' Hid Hk.
    assert (Hcl2 : claimed s2 key = true).
    { unfold s2. rewrite claimed_payment_result.
      destruct (decide _) as [|Hne]; [reflexivity|]. exfalso. apply Hne. reflexivity. }
    destruct (run_frozen verify cs s2 key Hcl2) as [Hcl'' _]. fold s'' in Hcl''.
    unfold exec.
    rewrite (processRoyaltyCalculation_claimed verify s'' rid ct' pf' Hid); [reflexivity|].
    rewrite Hk. exact Hcl''.
Qed.

Section DeadRequests.

Variable verify : N -> bytes -> bytes -> bool.

Lemma committed_zero_calculation_entry (s : State) (c : Call) (s' : State) (rid : N) :
  requestToContributionId s !! rid = Some 0 /\ rid < counterRequest s ->
  committed verify s c s' ->
  requestToContributionId s' !! rid = Some 0 /\ rid < counterRequest s'.
Proof.
  intros [He Hlt] Hc.
  destruct Hc as [v Hle | ch dq mi h ts Hle | cid | rid' ct pf ch dq mi _ _ _ _ _ _
                 | k _ | rid' ct pf amount _ _ _ _ | cid];
    try (split; assumption).
  - unfold request_result. simpl. split; [|lia].
    rewrite lookup_insert_ne by lia. exact He.
  - unfold claim_result. simpl. split; [exact He | lia].
Qed.

Lemma committed_zero_claim_entry (s : State) (c : Call) (s' : State) (rid : N) :
  requestToContributorHash s !! rid = Some 0 /\ rid < counterRequest s ->
  committed verify s c s' ->
  requestToContributorHash s' !! rid = Some 0 /\ rid < counterRequest s'.
Proof.
  intros [He Hlt] Hc.
  destruct Hc as [v Hle | ch dq mi h ts Hle | cid | rid' ct pf ch dq mi _ _ _ _ _ _
                 | k _ | rid' ct pf amount _ _ _ _ | cid];
    try (split; assumption).
  - unfold request_result. simpl. split; [exact He | lia].
  - unfold claim_result. simpl. split; [|lia].
    rewrite lookup_insert_ne by lia. exact He.
Qed.

End DeadRequests.

(** X11: a calculation request for contributionId 0 and a claim request for
    the all-zero key are accepted and registered, and can never be
    completed: after any further calls their callbacks still fail with
    "Invalid request", whatever cleartexts and proof they bring. *)
Theorem zero_requests_never_complete :
  forall (verify : N -> bytes -> bytes -> bool) (s : State) (cs : list Call)
         (ct pf : bytes),
    (let s' := run verify s (CalculateRoyaltyShare 0 :: cs) in
     snd (exec verify s (CalculateRoyaltyShare 0)) = Success [] /\
     requestToContributionId s' !! counterRequest s = Some 0 /\
     exec verify s' (ProcessRoyaltyCalculation (counterRequest s) ct pf) =
     (s', Reverted (Require_failed "Invalid request"))) /\
    (claimed s 0 = false ->
     let s' := run verify s (ClaimRoyalty 0 :: cs) in
     snd (exec verify s (ClaimRoyalty 0)) = Success [] /\
     requestToContributorHash s' !! counterRequest s = Some 0 /\
     exec verify s' (ProcessRoyaltyPayment (counterRequest s) ct pf) =
     (s', Reverted (Require_failed "Invalid request"))).
Proof.
  intros verify s cs ct pf. split.
  - intros s'. split; [reflexivity|].
    assert (H : requestToContributionId s' !! counterRequest s = Some 0 /\
                counterRequest s < counterRequest s').
    { unfold s'. cbn [run].
      apply (run_invariant verify
               (fun t => requestToContributionId t !! counterRequest s = Some 0 /\
                         counterRequest s < counterRequest t)).
      - intros t c t'. apply committed_zero_calculation_entry.
      - change (fst (exec verify s (CalculateRoyaltyShare 0))) with (request_result s 0).
        unfold request_result. simpl. split; [apply lookup_insert_eq | lia]. }
    destruct H as [He _]. split; [exact He|].
    unfold exec. rewrite processRoyaltyCalculation_unknown; [reflexivity|].
    unfold requestToContributionId_at. rewrite He. reflexivity.
  - intros Hcl s'.
    pose proof (exec_claim_ok verify s 0 Hcl) as E.
    split; [rewrite E; reflexivity|].
    assert (H : requestToContributorHash s' !! counterRequest s = Some 0 /\
                counterRequest s < counterRequest s').
    { unfold s'. cbn [run]. rewrite E. cbn [fst].
      apply (run_invariant verify
               (fun t => requestToContributorHash t !! counterRequest s = Some 0 /\
                         counterRequest s < counterRequest t)).
      - intros t c t'. apply committed_zero_claim_entry.
      - unfold claim_result. simpl. split; [apply lookup_insert_eq | lia]. }
    destruct H as [He _]. split; [exact He|].
    unfold exec. rewrite processRoyaltyPayment_unknown; [reflexivity|].
    unfold requestToContributorHash_at. rewrite He. reflexivity.
Qed.

(** ** Store and log *)

Section StoreLogFacts.

Variable verify : N -> bytes -> bytes -> bool.

Lemma deployed_store_wf : store_wf deployed.
Proof.
  split; [apply deployed_ids_wf|]. simpl.
  split; [intros k Hk; lia|]. split; [reflexivity|].
  intros i h t. split.
  - intros H. apply elem_of_nil in H. destruct H.
  - intros (r & Hr & _). rewrite lookup_empty in Hr. discriminate.
Qed.

Lemma recorded_snoc_other (log : list Event) (e : Event) (i h t : N) :
  (forall i' h' t', e <> ContributionRecorded i' h' t') ->
  ContributionRecorded i h t ∈ log ++ [e] <-> ContributionRecorded i h t ∈ log.
Proof.
  intros He. rewrite elem_of_app, list_elem_of_singleton. split.
  - intros [H|H]; [exact H|]. exfalso. apply (He i h t). congruence.
  - intros H. left. exact H.
Qed.

Lemma committed_store_wf (s : State) (c : Call) (s' : State) :
  store_wf s -> committed verify s c s' -> store_wf s'.
Proof.
  intros (Hids & Hall & Hsize & Hlog) Hc.
  split.
  { rewrite <- (committed_fst verify s c s' Hc). apply exec_ids_wf, Hids. }
  destruct Hc as [v Hle | ch dq mi h ts Hle | cid | rid ct pf ch dq mi _ _ _ _ _ _
                 | k _ | rid ct pf amount _ _ _ _ | cid].
  - split; [exact Hall|]. split; [exact Hsize|]. intros i h t.
    unfold deposit_result. simpl. rewrite recorded_snoc_other by discriminate. apply Hlog.
  - destruct Hids as [Hkeys _].
    assert (Hfresh : contributions s !! (contributionCount s + 1) = None).
    { destruct (contributions s !! (contributionCount s + 1)) as [r|] eqn:Hr; [|reflexivity].
      apply Hkeys in Hr. lia. }
    unfold submit_result. simpl. split; [|split].
    + intros k Hk. apply lookup_insert_is_Some.
      destruct (decide (contributionCount s + 1 = k)) as [Heq|Hne]; [left; exact Heq|].
      right. split; [exact Hne|]. apply Hall. lia.
    + rewrite map_size_insert_None by exact Hfresh. rewrite Hsize. lia.
    + intros i h' t. rewrite elem_of_app, list_elem_of_singleton. split.
      * intros [H|H].
        -- apply Hlog in H as (r & Hr & Hh & Ht). exists r.
           split; [|split; assumption].
           rewrite lookup_insert_ne; [exact Hr|]. apply Hkeys in Hr. lia.
        -- injection H as -> -> ->. eexists.
           split; [apply lookup_insert_eq | split; reflexivity].
      * intros (r & Hr & Hh & Ht).
        destruct (decide (contributionCount s + 1 = i)) as [<-|Hne].
        -- rewrite lookup_insert_eq in Hr. injection Hr as <-. simpl in Hh, Ht.
           right. congruence.
        -- rewrite lookup_insert_ne in Hr by exact Hne. left. apply Hlog.
           exists r. repeat split; assumption.
  - split; [exact Hall|]. split; [exact Hsize|]. intros i h t.
    unfold request_result. simpl. rewrite recorded_snoc_other by discriminate. apply Hlog.
  - split; [exact Hall|]. split; [exact Hsize|]. intros i h t.
    unfold calculation_result. simpl. rewrite recorded_snoc_other by discriminate.
    apply Hlog.
  - split; [exact Hall|]. split; [exact Hsize|]. exact Hlog.
  - split; [exact Hall|]. split; [exact Hsize|]. exact Hlog.
  - split; [exact Hall|]. split; [exact Hsize|]. exact Hlog.
Qed.

Lemma run_store_wf (cs : list Call) : store_wf (run verify deployed cs).
Proof.
  apply (run_invariant verify store_wf committed_store_wf), deployed_store_wf.
Qed.

End StoreLogFacts.

(** ** What holds in every state the contract can reach *)

(** X13: from deployment on, exactly the ids 1..contributionCount are
    stored (reading any other id gives the zero record), and the log holds a
    ContributionRecorded entry for an id, contributorHash and timestamp
    exactly when that is what the store holds under the id. *)
Theorem store_matches_log :
  forall (verify : N -> bytes -> bytes -> bool) (cs : list Call) (k : N),
    let s := run verify deployed cs in
    (is_Some (contributions s !! k) <-> 1 <= k <= contributionCount s) /\
    (k = 0 \/ contributionCount s < k -> contributions_at s k = zero_contribution) /\
    size (contributions s) = N.to_nat (contributionCount s) /\
    (forall h t,
       ContributionRecorded k h t ∈ events s <->
       exists r, contributions s !! k = Some r /\ contributorHash r = h /\ timestamp r = t).
Proof.
  intros verify cs k s.
  destruct (run_store_wf verify cs) as ([Hkeys _] & Hall & Hsize & Hlog).
  fold s in Hkeys, Hall, Hsize, Hlog.
  assert (Hiff : is_Some (contributions s !! k) <-> 1 <= k <= contributionCount s).
  { split; [intros [r Hr]; apply Hkeys in Hr; lia | apply Hall]. }
  split; [exact Hiff|]. split; [|split; [exact Hsize | apply Hlog]].
  intros Hout. unfold contributions_at.
  destruct (contributions s !! k) as [r|] eqn:Hr; [|reflexivity].
  assert (1 <= k <= contributionCount s) by (apply Hiff; eexists; reflexivity). lia.
Qed.

(** X12: from deployment on, the pool is the sum of the amounts announced by
    the RewardPoolDeposited entries of the log. *)
Theorem pool_matches_deposit_log :
  forall (verify : N -> bytes -> bytes -> bool) (cs : list Call),
    totalRewardPool (run verify deployed cs) =
    deposited_in_log (events (run verify deployed cs)).
Proof.
  intros verify cs. destruct (run_wf verify cs) as [_ (_ & _ & _ & Hpool & _)].
  exact Hpool.
Qed.

(** X1: from deployment on, getDecryptedRoyalty reports an id as revealed
    exactly when the log holds RoyaltyDecrypted for it, and (0, 0, false)
    otherwise; a revealed id is non-zero and was registered by a calculation
    request, its share is at most floor((2^32 - 1) / 100) and its payment at
    most floor(pool * share / 10000) for the pool of the moment; the call
    leaves the state as it is. *)
Theorem revealed_exactly_when_announced :
  forall (verify : N -> bytes -> bytes -> bool) (cs : list Call) (cid : N),
    let s := run verify deployed cs in
    (RoyaltyDecrypted cid ∈ events s <->
     exists share amount, getDecryptedRoyalty s cid = (share, amount, true)) /\
    (RoyaltyDecrypted cid ∉ events s -> getDecryptedRoyalty s cid = (0, 0, false)) /\
    (forall share amount,
       getDecryptedRoyalty s cid = (share, amount, true) ->
       cid <> 0 /\ share <= share_max /\
       amount <= totalRewardPool s * share / 10000 /\
       exists rid, requestToContributionId s !! rid = Some cid) /\
    (exists ret, exec verify s (GetDecryptedRoyalty cid) = (s, Success ret)).
Proof.
  intros verify cs cid s.
  destruct (run_wf verify cs) as [_ (_ & Haudit & Hann & _)].
  fold s in Haudit, Hann.
  assert (Hget : forall share amount,
             getDecryptedRoyalty s cid = (share, amount, true) ->
             exists r, decryptedRoyalties s !! cid = Some r /\
                       sharePercentage r = share /\ paymentAmount r = amount).
  { intros share amount H. unfold getDecryptedRoyalty, decryptedRoyalties_at in H.
    destruct (decryptedRoyalties s !! cid) as [r|]; simpl in H.
    - injection H as <- <- _. exists r. repeat split.
    - discriminate. }
  split; [|split; [|split]].
  - split.
    + intros Hev. destruct (Hann cid Hev) as [r Hr].
      destruct (Haudit cid r Hr) as (_ & Hrev & _).
      exists (sharePercentage r), (paymentAmount r).
      unfold getDecryptedRoyalty, decryptedRoyalties_at. rewrite Hr. simpl.
      rewrite Hrev. reflexivity.
    + intros (share & amount & H). destruct (Hget share amount H) as (r & Hr & _).
      apply (Haudit cid r Hr).
  - intros Hnot. unfold getDecryptedRoyalty, decryptedRoyalties_at.
    destruct (decryptedRoyalties s !! cid) as [r|] eqn:Hr; [|reflexivity].
    exfalso. apply Hnot. apply (Haudit cid r Hr).
  - intros share amount H. destruct (Hget share amount H) as (r & Hr & <- & <-).
    destruct (Haudit cid r Hr) as (Hn & _ & Hsh & Hpay & Hreq & _).
    repeat split; assumption.
  - unfold exec. destruct (getDecryptedRoyalty s cid) as [[sh am] rv].
    eexists. reflexivity.
Qed.

(** X2: from deployment on, a registered request id was issued by the
    oracle counter, sits in one registry only, and was handed to the oracle
    with the callback of that registry; the callback of the other kind, and
    either callback for an id not issued yet, fails with "Invalid
    request". *)
Theorem request_id_has_one_kind :
  forall (verify : N -> bytes -> bytes -> bool) (cs : list Call) (rid : N),
    let s := run verify deployed cs in
    (forall cid, requestToContributionId s !! rid = Some cid ->
       rid < counterRequest s /\
       requestToContributorHash s !! rid = None /\
       (exists r, decryptionRequests s !! N.to_nat rid = Some r /\
                  requestID r = rid /\
                  callbackSelector r = processRoyaltyCalculation_selector) /\
       (forall ct pf,
          exec verify s (ProcessRoyaltyPayment rid ct pf) =
          (s, Reverted (Require_failed "Invalid request")))) /\
    (forall key, requestToContributorHash s !! rid = Some key ->
       rid < counterRequest s /\
       requestToContributionId s !! rid = None /\
       (exists r, decryptionRequests s !! N.to_nat rid = Some r /\
                  requestID r = rid /\
                  callbackSelector r = processRoyaltyPayment_selector /\
                  length (ctsHandles r) = 1%nat) /\
       (forall ct pf,
          exec verify s (ProcessRoyaltyCalculation rid ct pf) =
          (s, Reverted (Require_failed "Invalid request")))) /\
    (counterRequest s <= rid ->
     forall ct pf,
       exec verify s (ProcessRoyaltyCalculation rid ct pf) =
         (s, Reverted (Require_failed "Invalid request")) /\
       exec verify s (ProcessRoyaltyPayment rid ct pf) =
         (s, Reverted (Require_failed "Invalid request"))).
Proof.
  intros verify cs rid s.
  destruct (run_requests_wf verify cs) as (H1 & H2 & H3 & H4 & H5 & H6 & H7).
  fold s in H1, H2, H3, H4, H5, H6, H7.
  assert (Hcalc : requestToContributionId s !! rid = None ->
                  forall ct pf, exec verify s (ProcessRoyaltyCalculation rid ct pf) =
                                (s, Reverted (Require_failed "Invalid request"))).
  { intros Hn ct pf. unfold exec. rewrite processRoyaltyCalculation_unknown; [reflexivity|].
    unfold requestToContributionId_at. rewrite Hn. reflexivity. }
  assert (Hpay : requestToContributorHash s !! rid = None ->
                 forall ct pf, exec verify s (ProcessRoyaltyPayment rid ct pf) =
                               (s, Reverted (Require_failed "Invalid request"))).
  { intros Hn ct pf. unfold exec. rewrite processRoyaltyPayment_unknown; [reflexivity|].
    unfold requestToContributorHash_at. rewrite Hn. reflexivity. }
  split; [|split].
  - intros cid Hc. pose proof (H1 _ _ Hc) as Hlt.
    assert (Hn : requestToContributorHash s !! rid = None)
      by (apply H3; eexists; exact Hc).
    split; [exact Hlt|]. split; [exact Hn|]. split; [|apply Hpay, Hn].
    destruct (H6 _ _ Hc) as (r & Hr & Hsel). exists r.
    split; [exact Hr|]. split; [|exact Hsel].
    rewrite (H5 _ _ Hr). lia.
  - intros key Hk. pose proof (H2 _ _ Hk) as Hlt.
    assert (Hn : requestToContributionId s !! rid = None).
    { destruct (requestToContributionId s !! rid) as [cid|] eqn:Hc; [|reflexivity].
      assert (Hx : requestToContributorHash s !! rid = None)
        by (apply H3; eexists; exact Hc).
      congruence. }
    split; [exact Hlt|]. split; [exact Hn|]. split; [|apply Hcalc, Hn].
    destruct (H7 _ _ Hk) as (r & Hr & Hsel & Hlen). exists r.
    split; [exact Hr|]. split; [|split; assumption].
    rewrite (H5 _ _ Hr). lia.
  - intros Hge ct pf. split.
    + apply Hcalc. destruct (requestToContributionId s !! rid) as [cid|] eqn:Hc;
        [|reflexivity].
      apply H1 in Hc. lia.
    + apply Hpay. destruct (requestToContributorHash s !! rid) as [key|] eqn:Hk;
        [|reflexivity].
      apply H2 in Hk. lia.
Qed.

(** X9: from deployment on, the claimed flag of the all-zero key is never
    set, so a claim request for it is always accepted and a calculation
    callback is never turned away on its account; a key whose flag is set
    is non-zero and has a registered claim request. *)
Theorem zero_key_never_claimed :
  forall (verify : N -> bytes -> bytes -> bool) (cs : list Call),
    let s := run verify deployed cs in
    claimed s 0 = false /\
    snd (exec verify s (ClaimRoyalty 0)) = Success [] /\
    (forall key, claimed s key = true ->
       key <> 0 /\
       exists rid, requestToContributorHash s !! rid = Some key /\ rid < counterRequest s).
Proof.
  intros verify cs s.
  destruct (run_wf verify cs) as [(_ & H2 & _) (Hflag & _)]. fold s in H2, Hflag.
  assert (Hz : claimed s 0 = false).
  { destruct (claimed s 0) eqn:Hc; [|reflexivity].
    destruct (Hflag 0 Hc) as [Hne _]. exfalso. apply Hne. reflexivity. }
  split; [exact Hz|]. split.
  - rewrite (exec_claim_ok verify s 0 Hz). reflexivity.
  - intros key Hc. destruct (Hflag key Hc) as [Hne [rid Hrid]].
    split; [exact Hne|]. exists rid. split; [exact Hrid | apply (H2 _ _ Hrid)].
Qed.

(** X17: from deployment on, a stored Distribution has its claimed flag
    assigned, a share of at most floor((2^32 - 1) / 100) and a payment below
    2^32; share and payment are assigned together, and a Distribution
    without them was created by a claim callback and is claimed. *)
Theorem stored_distribution_shape :
  forall (verify : N -> bytes -> bytes -> bool) (cs : list Call) (key : N)
         (d : RoyaltyDistribution),
    royaltyDistributions (run verify deployed cs) !! key = Some d ->
    is_Some (isClaimed d) /\
    (forall share, encryptedShare d = Some share -> share <= share_max) /\
    (forall payment, encryptedPaymentAmount d = Some payment -> payment < 2 ^ 32) /\
    (encryptedShare d = None <-> encryptedPaymentAmount d = None) /\
    (encryptedShare d = None -> isClaimed d = Some true /\ key <> 0).
Proof.
  intros verify cs key d Hd.
  destruct (run_wf verify cs) as [_ (Hflag & _ & _ & _ & Hshape)].
  destruct (Hshape key d Hd) as (Hc & Hsh & Hp & Hiff & Hphantom).
  split; [exact Hc|]. split; [exact Hsh|]. split; [exact Hp|]. split; [exact Hiff|].
  intros Hnone. pose proof (Hphantom Hnone) as Hclaimed. split; [exact Hclaimed|].
  apply (Hflag key). unfold claimed, royaltyDistributions_at. rewrite Hd. simpl.
  rewrite Hclaimed. reflexivity.
Qed.

(** ** The dashboard counters *)

Lemma status_counters_step {number : Type} (c : App.RoyaltyContribution number)
    (l : list (App.RoyaltyContribution number)) :
  (App.verifiedCount (c :: l) + App.pendingCount (c :: l) + App.paidCount (c :: l) =
   App.verifiedCount l + App.pendingCount l + App.paidCount l +
   (if String.eqb (App.status c) "verified" then 1
    else if String.eqb (App.status c) "pending" then 1
    else if String.eqb (App.status c) "paid" then 1 else 0))%nat.
Proof.
  unfold App.verifiedCount, App.pendingCount, App.paidCount. cbn [List.filter].
  destruct (String.eqb_spec (App.status c) "verified") as [Hv|Hv];
    [rewrite Hv; simpl; lia|].
  destruct (String.eqb_spec (App.status c) "pending") as [Hp|Hp];
    [rewrite Hp; simpl; lia|].
  destruct (String.eqb_spec (App.status c) "paid") as [Hd|Hd]; simpl; lia.
Qed.

(** X18: the three status counters of the dashboard never count a
    contribution twice, and they add up to the number of contributions
    exactly when every status is one of "verified", "pending" and "paid"; a
    contribution with any other status is listed and counted nowhere. *)
Theorem status_counters_partition :
  forall (number : Type) (contributions : list (App.RoyaltyContribution number)),
    (App.verifiedCount contributions + App.pendingCount contributions +
     App.paidCount contributions <= length contributions)%nat /\
    ((App.verifiedCount contributions + App.pendingCount contributions +
      App.paidCount contributions = length contributions)%nat <->
     Forall (fun c => App.status c = "verified" \/ App.status c = "pending" \/
                      App.status c = "paid")%string contributions).
Proof.
  intros number contributions.
  induction contributions as [|c l [IHle IHiff]].
  - split; [reflexivity|]. split; [constructor | reflexivity].
  - rewrite status_counters_step. cbn [length].
    destruct (String.eqb_spec (App.status c) "verified") as [Hv|Hv];
      [|destruct (String.eqb_spec (App.status c) "pending") as [Hp|Hp];
        [|destruct (String.eqb_spec (App.status c) "paid") as [Hd|Hd]]].
    + split; [lia|]. split.
      * intros H. constructor; [left; exact Hv | apply IHiff; lia].
      * intros H. inversion H; subst. apply IHiff in H3. lia.
    + split; [lia|]. split.
      * intros H. constructor; [right; left; exact Hp | apply IHiff; lia].
      * intros H. inversion H; subst. apply IHiff in H3. lia.
    + split; [lia|]. split.
      * intros H. constructor; [right; right; exact Hd | apply IHiff; lia].
      * intros H. inversion H; subst. apply IHiff in H3. lia.
    + split; [lia|]. split.
      * intros H. lia.
      * intros H. inversion H; subst. destruct H2 as [?|[?|?]]; contradiction.
Qed.

(** ** The further properties on concrete runs *)

Lemma revealed_exactly_when_announced_witness :
  getDecryptedRoyalty (run demo_verifier deployed revealing_calls) 1 = (83, 8, true) /\
  1 <> 0 /\ 83 <= share_max /\
  exists rid,
    requestToContributionId (run demo_verifier deployed revealing_calls) !! rid = Some 1.
Proof.
  assert (H : getDecryptedRoyalty (run demo_verifier deployed revealing_calls) 1 =
              (83, 8, true)) by reflexivity.
  split; [exact H|].
  destruct (revealed_exactly_when_announced demo_verifier revealing_calls 1)
    as (_ & _ & Hrev & _).
  destruct (Hrev 83 8 H) as (Hn & Hsh & _ & Hreq).
  split; [exact Hn|]. split; [exact Hsh | exact Hreq].
Defined.

Lemma request_id_has_one_kind_witness :
  requestToContributionId (run demo_verifier deployed revealing_calls) !! 0 = Some 1 /\
  exec demo_verifier (run demo_verifier deployed revealing_calls)
    (ProcessRoyaltyPayment 0 (abi_encode [8]) demo_proof) =
  (run demo_verifier deployed revealing_calls, Reverted (Require_failed "Invalid request")).
Proof.
  assert (H : requestToContributionId (run demo_verifier deployed revealing_calls) !! 0 =
              Some 1) by reflexivity.
  split; [exact H|].
  destruct (request_id_has_one_kind demo_verifier revealing_calls 0) as (Hcalc & _).
  destruct (Hcalc 1 H) as (_ & _ & _ & Hother).
  apply Hother.
Defined.

Lemma rejected_proof_changes_nothing_witness :
  demo_verifier 0 example_cleartexts [] = false /\
  exec demo_verifier requested_state (ProcessRoyaltyCalculation 0 example_cleartexts []) =
  (requested_state, Reverted Invalid_signatures).
Proof.
  split; [reflexivity|].
  destruct (rejected_proof_changes_nothing demo_verifier requested_state 0
              example_cleartexts [] eq_refl) as (_ & _ & Hsig & _).
  apply Hsig; [vm_compute; discriminate | reflexivity].
Defined.

Lemma cleartexts_decoding_witness :
  (length short_cleartexts < 96)%nat /\
  abi_decode_uint32x3 short_cleartexts = Revert Abi_decode_failed /\
  (32 <= length oversized_cleartexts)%nat /\
  uint32_max < word_of_bytes (take 32 oversized_cleartexts) /\
  abi_decode_uint32 oversized_cleartexts = Revert Abi_decode_failed.
Proof.
  assert (H : (length short_cleartexts < 96)%nat) by (vm_compute; lia).
  assert (Hlen : (32 <= length oversized_cleartexts)%nat) by (vm_compute; lia).
  assert (Hbig : uint32_max < word_of_bytes (take 32 oversized_cleartexts))
    by (vm_compute; reflexivity).
  split; [exact H|].
  destruct (cleartexts_decoding short_cleartexts) as (Hshort & _).
  split; [exact (Hshort H)|].
  split; [exact Hlen|]. split; [exact Hbig|].
  destruct (cleartexts_decoding oversized_cleartexts)
    as (_ & _ & _ & _ & _ & _ & _ & Hone & _).
  destruct (Hone Hlen) as [_ Hover]. exact (Hover Hbig).
Defined.

Lemma share_is_weighted_mean_witness :
  calculateSharePercentage 100 80 60 = Ok 83 /\
  N.min 100 (N.min 80 60) <= 83 /\ 83 <= N.max 100 (N.max 80 60).
Proof.
  split; [reflexivity|].
  destruct (share_is_weighted_mean 100 80 60 83 eq_refl) as (Hmin & Hmax & _).
  split; [exact Hmin | exact Hmax].
Defined.

Lemma payment_against_pool_witness :
  abi_decode_uint32x3 example_cleartexts = Ok (100, 80, 60) /\
  processRoyaltyCalculation demo_verifier requested_state 0 example_cleartexts demo_proof =
    Ok revealed_state /\
  paymentAmount (decryptedRoyalties_at revealed_state 1) <= totalRewardPool requested_state.
Proof.
  split; [reflexivity|]. split; [reflexivity|].
  destruct (payment_against_pool demo_verifier requested_state 0 example_cleartexts
              demo_proof 100 80 60 revealed_state eq_refl eq_refl) as (Hsmall & _).
  destruct Hsmall as [_ Hpay]; [vm_compute; discriminate ..|].
  exact Hpay.
Defined.

Lemma claimed_distribution_is_final_witness :
  claimed settled_state 7 = true /\
  royaltyDistributions
    (run demo_verifier settled_state [DepositRewardPool 5; example_callback]) !! 7 =
  royaltyDistributions settled_state !! 7.
Proof.
  split; [reflexivity|].
  destruct (claimed_distribution_is_final demo_verifier settled_state 7
              [DepositRewardPool 5; example_callback] eq_refl) as (Hsame & _).
  exact Hsame.
Defined.

Lemma claim_before_calculation_locks_key_witness :
  royaltyDistributions deployed !! 5 = None /\
  royaltyDistributions
    (run demo_verifier deployed
       [ClaimRoyalty 5; ProcessRoyaltyPayment 0 (abi_encode [0]) demo_proof]) !! 5 =
  Some {| encryptedShare := None; encryptedPaymentAmount := None;
          isClaimed := Some true |}.
Proof.
  split; [reflexivity|].
  destruct (claim_before_calculation_locks_key demo_verifier deployed 5
              (abi_encode [0]) demo_proof 0) as (_ & _ & Hdist & _);
    [discriminate | reflexivity | reflexivity | reflexivity |].
  exact Hdist.
Defined.

Lemma zero_key_never_claimed_witness :
  claimed (run demo_verifier deployed settling_calls) 7 = true /\
  exists rid,
    requestToContributorHash (run demo_verifier deployed settling_calls) !! rid = Some 7 /\
    rid < counterRequest (run demo_verifier deployed settling_calls).
Proof.
  assert (H : claimed (run demo_verifier deployed settling_calls) 7 = true)
    by reflexivity.
  split; [exact H|].
  destruct (zero_key_never_claimed demo_verifier settling_calls) as (_ & _ & Hset).
  destruct (Hset 7 H) as [_ Hreq]. exact Hreq.
Defined.

Lemma unsubmitted_id_files_under_zero_key_witness :
  contributions requested_state !! 9 = None /\
  royaltyDistributions
    (run demo_verifier requested_state
       [CalculateRoyaltyShare 9; ProcessRoyaltyCalculation 1 example_cleartexts demo_proof])
    !! 0 =
  Some {| encryptedShare := Some 83; encryptedPaymentAmount := Some 8;
          isClaimed := Some false |}.
Proof.
  split; [reflexivity|].
  destruct (unsubmitted_id_files_under_zero_key demo_verifier requested_state 9
              example_cleartexts demo_proof 100 80 60) as (_ & _ & Hdist & _);
    [discriminate | reflexivity | reflexivity | reflexivity | reflexivity
    | vm_compute; discriminate | vm_compute; discriminate |].
  exact Hdist.
Defined.

Lemma zero_requests_never_complete_witness :
  claimed deployed 0 = false /\
  exec demo_verifier (run demo_verifier deployed [ClaimRoyalty 0; example_submission])
    (ProcessRoyaltyPayment 0 (abi_encode [0]) demo_proof) =
  (run demo_verifier deployed [ClaimRoyalty 0; example_submission],
   Reverted (Require_failed "Invalid request")).
Proof.
  split; [reflexivity|].
  destruct (zero_requests_never_complete demo_verifier deployed [example_submission]
              (abi_encode [0]) demo_proof) as (_ & Hclaim).
  destruct (Hclaim eq_refl) as (_ & _ & Hdead). exact Hdead.
Defined.

Lemma store_matches_log_witness :
  contributionCount (run demo_verifier deployed revealing_calls) < 5 /\
  contributions_at (run demo_verifier deployed revealing_calls) 5 = zero_contribution.
Proof.
  assert (H : contributionCount (run demo_verifier deployed revealing_calls) < 5)
    by reflexivity.
  split; [exact H|].
  destruct (store_matches_log demo_verifier revealing_calls 5) as (_ & Hzero & _).
  apply Hzero. right. exact H.
Defined.

Lemma contribution_lifecycle_witness :
  claimed revealed_state 9 = false /\
  outcomes demo_verifier revealed_state
    [SubmitEncryptedContribution (Some 10) (Some 10) (Some 10) 9 1700000002;
     CalculateRoyaltyShare 2;
     ProcessRoyaltyCalculation 1 (abi_encode [10; 10; 10]) demo_proof;
     ClaimRoyalty 9;
     ProcessRoyaltyPayment 2 (abi_encode [1]) demo_proof] =
  [Success []; Success []; Success []; Success []; Success []].
Proof.
  split; [reflexivity|].
  destruct (contribution_lifecycle demo_verifier revealed_state
              (Some 10) (Some 10) (Some 10) 9 1700000002
              (abi_encode [10; 10; 10]) demo_proof (abi_encode [1]) demo_proof
              10 10 10 1) as (Hall & _);
    [vm_compute; discriminate | discriminate | reflexivity | reflexivity | reflexivity
    | vm_compute; discriminate | vm_compute; discriminate | reflexivity | reflexivity |].
  exact Hall.
Defined.

Lemma deposit_before_callback_counts_witness :
  totalRewardPool (run demo_verifier deployed [example_submission]) = 0 /\
  getDecryptedRoyalty
    (run demo_verifier (run demo_verifier deployed [example_submission])
       [CalculateRoyaltyShare 1; DepositRewardPool 1000; example_callback]) 1 =
  (83, 8, true).
Proof.
  split; [reflexivity|].
  destruct (deposit_before_callback_counts demo_verifier
              (run demo_verifier deployed [example_submission]) 1 1000
              example_cleartexts demo_proof 100 80 60) as (_ & Hget);
    [discriminate | reflexivity | vm_compute; discriminate | reflexivity | reflexivity
    | vm_compute; discriminate | vm_compute; discriminate |].
  exact Hget.
Defined.

Lemma claim_callback_ignores_amount_witness :
  processRoyaltyPayment demo_verifier claim_requested_state 1 (abi_encode [8]) demo_proof =
    Ok settled_state /\
  processRoyaltyPayment demo_verifier claim_requested_state 1 (abi_encode [9]) demo_proof =
    Ok settled_state /\
  events settled_state = events claim_requested_state.
Proof.
  split; [reflexivity|]. split; [reflexivity|].
  destruct (claim_callback_ignores_amount demo_verifier claim_requested_state 1
              (abi_encode [8]) demo_proof (abi_encode [9]) demo_proof
              settled_state settled_state eq_refl eq_refl) as (_ & _ & Hlog & _).
  exact Hlog.
Defined.

Lemma stored_distribution_shape_witness :
  royaltyDistributions (run demo_verifier deployed revealing_calls) !! 7 =
    Some {| encryptedShare := Some 83; encryptedPaymentAmount := Some 8;
            isClaimed := Some false |} /\
  8 < 2 ^ 32.
Proof.
  assert (H : royaltyDistributions (run demo_verifier deployed revealing_calls) !! 7 =
              Some {| encryptedShare := Some 83; encryptedPaymentAmount := Some 8;
                      isClaimed := Some false |}) by reflexivity.
  split; [exact H|].
  destruct (stored_distribution_shape demo_verifier revealing_calls 7 _ H)
    as (_ & _ & Hpay & _).
  apply Hpay. reflexivity.
Defined.

Lemma status_counters_partition_witness :
  ~ Forall (fun c => App.status c = "verified" \/ App.status c = "pending" \/
                     App.status c = "paid")%string dashboard_rows /\
  (App.verifiedCount dashboard_rows + App.pendingCount dashboard_rows +
   App.paidCount dashboard_rows <> length dashboard_rows)%nat.
Proof.
  assert (H : (App.verifiedCount dashboard_rows + App.pendingCount dashboard_rows +
               App.paidCount dashboard_rows <> length dashboard_rows)%nat)
    by (vm_compute; discriminate).
  split; [|exact H].
  intros Hall. apply H.
  destruct (status_counters_partition N dashboard_rows) as (_ & Hiff).
  apply Hiff, Hall.
Defined.

(** ** The payment on the claim path *)

(** C9 (as the code has it): the audit record keeps the full payment
    floor(pool*share/10000), the Distribution keeps it truncated to 32 bits,
    and the two agree exactly when the payment is below 2^32.  On the claim
    path it is the truncated value whose handle claimRoyalty hands to the
    oracle; the claim callback for that request decodes the reveal as a
    uint32 and makes no use of it: what it commits does not depend on the
    amount, the truncated handle stays in the Distribution, the flag is set,
    and audit record, pool and log are left as they were. *)
Theorem payment_truncated_to_uint32 :
  forall (verify : N -> bytes -> bytes -> bool) (s : State) (rid : N)
         (ct pf : bytes) (s' : State),
    processRoyaltyCalculation verify s rid ct pf = Ok s' ->
    let cid := requestToContributionId_at s rid in
    let key := contributorHash (contributions_at s cid) in
    let share := sharePercentage (decryptedRoyalties_at s' cid) in
    let payment := paymentAmount (decryptedRoyalties_at s' cid) in
    payment = totalRewardPool s * share / 10000 /\
    encryptedPaymentAmount (royaltyDistributions_at s' key) = Some (payment mod 2 ^ 32) /\
    (encryptedPaymentAmount (royaltyDistributions_at s' key) = Some payment <->
     payment < 2 ^ 32) /\
    (exists s'', claimRoyalty s' key = Ok s'' /\
       decryptionRequests s'' =
         decryptionRequests s' ++
         [{| requestID := counterRequest s';
             ctsHandles := [Some (payment mod 2 ^ 32)];
             callbackSelector := processRoyaltyPayment_selector |}] /\
       requestToContributorHash s'' !! counterRequest s' = Some key /\
       (forall ct' pf' t,
          processRoyaltyPayment verify s'' (counterRequest s') ct' pf' = Ok t ->
          (exists amount, abi_decode_uint32 ct' = Ok amount /\ amount <= uint32_max) /\
          t = payment_result s'' key /\
          royaltyDistributions t !! key =
            Some {| encryptedShare := Some share;
                    encryptedPaymentAmount := Some (payment mod 2 ^ 32);
                    isClaimed := Some true |} /\
          decryptedRoyalties t = decryptedRoyalties s' /\
          paymentAmount (decryptedRoyalties_at t cid) = payment /\
          totalRewardPool t = totalRewardPool s /\
          events t = events s') /\
       (forall ct' pf' amount,
          key <> 0 ->
          verify (counterRequest s') ct' pf' = true ->
          abi_decode_uint32 ct' = Ok amount ->
          processRoyaltyPayment verify s'' (counterRequest s') ct' pf' =
          Ok (payment_result s'' key))) /\
    (forall t rid' ct' pf' t',
       processRoyaltyPayment verify t rid' ct' pf' = Ok t' ->
       exists amount, abi_decode_uint32 ct' = Ok amount /\ amount <= uint32_max).
Proof.
  intros verify s rid ct pf s' H cid key share payment.
  apply processRoyaltyCalculation_Ok in H
    as (ch & dq & mi & _ & _ & _ & _ & _ & _ & Hs').
  fold cid in Hs'.
  assert (Hroy : decryptedRoyalties_at s' cid =
                 {| sharePercentage := spec_share ch dq mi;
                    paymentAmount := totalRewardPool s * spec_share ch dq mi / 10000;
                    isRevealed := true |}).
  { unfold decryptedRoyalties_at. rewrite Hs', calculation_result_royalty. reflexivity. }
  assert (Hdist : royaltyDistributions_at s' key =
                  {| encryptedShare := Some (spec_share ch dq mi);
                     encryptedPaymentAmount :=
                       Some ((totalRewardPool s * spec_share ch dq mi / 10000) mod 2 ^ 32);
                     isClaimed := Some false |}).
  { unfold royaltyDistributions_at, key.
    rewrite Hs', calculation_result_distribution. reflexivity. }
  assert (Hshare : share = spec_share ch dq mi)
    by (unfold share; rewrite Hroy; reflexivity).
  assert (Hpay : payment = totalRewardPool s * share / 10000).
  { unfold payment, share. rewrite Hroy. reflexivity. }
  assert (Henc : encryptedPaymentAmount (royaltyDistributions_at s' key) =
                 Some (payment mod 2 ^ 32)).
  { rewrite Hdist. unfold payment. rewrite Hroy. reflexivity. }
  assert (Hfree : claimed s' key = false) by (unfold claimed; rewrite Hdist; reflexivity).
  assert (Hreg : requestToContributorHash_at (claim_result s' key) (counterRequest s') = key).
  { rewrite registry_claim_result.
    destruct (decide _) as [|Hne]; [reflexivity|]. exfalso. apply Hne. reflexivity. }
  split; [exact Hpay|]. split; [exact Henc|]. split; [|split].
  - rewrite Henc. split.
    + intros [= Heq]. rewrite <- Heq. apply N.mod_lt. discriminate.
    + intros Hlt. rewrite N.mod_small by exact Hlt. reflexivity.
  - exists (claim_result s' key).
    split; [apply claimRoyalty_Ok; split; [exact Hfree | reflexivity]|].
    split; [unfold claim_result; simpl; rewrite Henc; reflexivity|].
    split; [unfold claim_result; simpl; apply lookup_insert_eq|].
    split.
    + intros ct' pf' t Ht.
      apply processRoyaltyPayment_Ok in Ht as (amount & _ & _ & _ & Hdec & ->).
      rewrite Hreg. fold (payment_result (claim_result s' key) key).
      split.
      { exists amount. split; [exact Hdec|].
        apply (abi_decode_uint32_at_bound ct' 0). exact Hdec. }
      split; [reflexivity|].
      split.
      { unfold payment_result. simpl. rewrite lookup_insert_eq.
        change (royaltyDistributions_at (claim_result s' key) key)
          with (royaltyDistributions_at s' key).
        rewrite Hdist. simpl. rewrite Hshare. unfold payment. rewrite Hroy. reflexivity. }
      split; [reflexivity|].
      split; [reflexivity|].
      split; [rewrite Hs'; reflexivity | reflexivity].
    + intros ct' pf' amount Hkey Hv Hdec.
      apply processRoyaltyPayment_Ok. exists amount.
      rewrite Hreg. repeat split; assumption.
  - intros t rid' ct' pf' t' Hp.
    apply processRoyaltyPayment_Ok in Hp as (amount & _ & _ & _ & Hdec & _).
    exists amount. split; [exact Hdec|].
    apply (abi_decode_uint32_at_bound ct' 0). exact Hdec.
Qed.

Lemma payment_truncated_to_uint32_witness :
  processRoyaltyCalculation demo_verifier wealthy_state 0 example_cleartexts demo_proof =
    Ok (fst (exec demo_verifier wealthy_state example_callback)) /\
  paymentAmount
    (decryptedRoyalties_at (fst (exec demo_verifier wealthy_state example_callback)) 1) =
    8300000000000 /\
  encryptedPaymentAmount
    (royaltyDistributions_at (fst (exec demo_verifier wealthy_state example_callback)) 7) =
    Some 2123184128 /\
  exists s'',
    claimRoyalty (fst (exec demo_verifier wealthy_state example_callback)) 7 = Ok s'' /\
    processRoyaltyPayment demo_verifier s'' 1 (abi_encode [2123184128]) demo_proof =
    Ok (payment_result s'' 7).
Proof.
  split; [reflexivity|].
  destruct (payment_truncated_to_uint32 demo_verifier wealthy_state 0
              example_cleartexts demo_proof
              (fst (exec demo_verifier wealthy_state example_callback)) eq_refl)
    as (Hpay & Henc & _ & (s'' & Hclaim & _ & _ & _ & Hgo) & _).
  split; [exact Hpay|]. split; [exact Henc|].
  exists s''. split; [exact Hclaim|].
  apply (Hgo (abi_encode [2123184128]) demo_proof 2123184128);
    [discriminate | reflexivity | reflexivity].
Defined.

(** C9, counterexample: the Distribution of contributor 7 holds the
    truncated payment 8 and the claim request asked for its reveal; the
    callback is accepted with the amount 8 and with the amount 9 alike and
    commits the same state: the handle of 8 is still stored, the flag is
    set, and the pool still holds the 1000 that were deposited. *)
Lemma revealed_amount_is_not_used :
  encryptedPaymentAmount (royaltyDistributions_at claim_requested_state 7) = Some 8 /\
  decryptionRequests claim_requested_state !! 1%nat =
    Some {| requestID := 1; ctsHandles := [Some 8];
            callbackSelector := processRoyaltyPayment_selector |} /\
  exec demo_verifier claim_requested_state
    (ProcessRoyaltyPayment 1 (abi_encode [8]) demo_proof) = (settled_state, Success []) /\
  exec demo_verifier claim_requested_state
    (ProcessRoyaltyPayment 1 (abi_encode [9]) demo_proof) = (settled_state, Success []) /\
  royaltyDistributions_at settled_state 7 =
    {| encryptedShare := Some 83; encryptedPaymentAmount := Some 8;
       isClaimed := Some true |} /\
  totalRewardPool claim_requested_state = 1000 /\
  totalRewardPool settled_state = 1000 /\
  events settled_state = events claim_requested_state /\
  decryptedRoyalties settled_state = decryptedRoyalties claim_requested_state.
Proof. vm_compute. repeat split. Qed.
